(** * ZenithBill: the encryption and key-lifecycle subsystem

    A shallow embedding of the TypeScript sources

      - the crypto engine written over Node's [crypto] module
        ([CryptoEngineNode]),
      - the IPC handlers of the Electron main process ([ElectronMain]) and the
        bridge that [preload.js] exposes as [window.electronAPI],
      - [src/utils/encryption/cryptoEngine.ts], the engine that delegates to
        that bridge ([CryptoEngine]); it is the one that the three classes
        below import,
      - [src/utils/encryption/keyManager.ts] ([KeyManager]),
      - [src/utils/encryption/secureStorage.ts] ([SecureStorage]),
      - [src/utils/encryption/fileEncryption.ts] ([FileEncryption]),

    followed by the properties established about them.

    Conventions of the embedding.
      - A JavaScript string is modelled by [string], read as the bytes of its
        UTF-8 encoding: only well-formed Unicode text is represented. Its
        [.length], which counts UTF-16 code units, is [js_length].
      - A [Buffer] is a [list byte].
      - A time is a [Z] number of milliseconds since the epoch, and a number
        that the sources use as an integer is a [Z]. A field declared [Date]
        is a [DateField]: it holds a [Date] object in a record the running
        code built, and the ISO text of the date in a record that came out
        of [JSON.parse], which revives no dates. Likewise a checksum field
        is what it holds at run time. The other fields of records are
        modelled at their declared TypeScript types.
      - [throw new Error(m)] is [Err m]; a [try]/[catch] that rethrows with a
        prefixed message is [rethrow].
      - An [await]ed call is run to completion in place. Where the source
        calls an [async] function without [await], the value it gets is the
        promise, and the model keeps it apart from a string.
      - The primitives underneath the code (scrypt, AES, RSA, SHA-256, the
        secure random source, JSON text, base64) are the fields of the class
        [Platform]; what is assumed of them is the class [PlatformLaws].
        Failures of the primitives through exhausted resources, and
        [localStorage] running out of quota, are not modelled.
      - An operation takes the reading of the clock as the argument [now];
        [rotateKey], which reads the clock and then calls an operation that
        reads it again, takes the two readings.
      - Writes to a security log that no result depends on are left out; the
        log of the file-encryption service is modelled. *)

From Stdlib Require Import Strings.String Strings.Ascii Strings.Byte List ZArith NArith Lia Bool.
From Stdlib Require Import DecimalString.
Import ListNotations.
Open Scope string_scope.

Set Implicit Arguments.

(* ================================================================== *)
(** * Results and exceptions *)
(* ================================================================== *)

Inductive Result (A : Type) : Type :=
| Ok (a : A)
| Err (message : string).

Arguments Ok {A} a.
Arguments Err {A} message.

Definition bind {A B : Type} (r : Result A) (k : A -> Result B) : Result B :=
  match r with
  | Ok a => k a
  | Err m => Err m
  end.

Notation "x <- c ;; k" := (bind c (fun x => k))
  (at level 61, c at next level, right associativity).

(** [catch (error) { throw new Error(`${prefix}${error.message}`) }] *)
Definition rethrow {A : Type} (prefix : string) (r : Result A) : Result A :=
  match r with
  | Ok a => Ok a
  | Err m => Err (prefix ++ m)
  end.

(** JavaScript truthiness of a string: only the empty string is falsy. *)
Definition truthy (s : string) : bool := negb (s =? "").

(* ================================================================== *)
(** * Buffers and their hexadecimal text *)
(* ================================================================== *)

Definition Buffer := list byte.

Definition hex_digit (n : N) : ascii :=
  if (n <? 10)%N then ascii_of_N (48 + n) else ascii_of_N (87 + n).

Definition hex_value (c : ascii) : option N :=
  let n := N_of_ascii c in
  if ((48 <=? n) && (n <=? 57))%N then Some (n - 48)%N
  else if ((97 <=? n) && (n <=? 102))%N then Some (n - 87)%N
  else if ((65 <=? n) && (n <=? 70))%N then Some (n - 55)%N
  else None.

Definition byte_of_N (n : N) : byte :=
  match Byte.of_N n with
  | Some b => b
  | None => x00
  end.

Definition hex_of_byte (b : byte) : string :=
  let n := Byte.to_N b in
  String (hex_digit (n / 16)) (String (hex_digit (n mod 16)) EmptyString).

(** [buf.toString('hex')] *)
Fixpoint toString_hex (buf : Buffer) : string :=
  match buf with
  | [] => EmptyString
  | b :: rest => hex_of_byte b ++ toString_hex rest
  end.

(** [Buffer.from(s, 'hex')]: pairs of hex digits are decoded until the first
    pair that is not one; a trailing single digit is dropped. *)
Fixpoint Buffer_from_hex (s : string) : Buffer :=
  match s with
  | String c1 (String c2 rest) =>
      match hex_value c1, hex_value c2 with
      | Some h, Some l => byte_of_N (16 * h + l) :: Buffer_from_hex rest
      | _, _ => []
      end
  | _ => []
  end.

(** [Buffer.from(s, 'utf8')] and [buf.toString('utf8')] on the byte model of
    strings. *)
Definition utf8_encode (s : string) : Buffer := list_byte_of_string s.
Definition utf8_decode (b : Buffer) : string := string_of_list_byte b.

Fixpoint bytes_eqb (a b : Buffer) : bool :=
  match a, b with
  | [], [] => true
  | x :: a', y :: b' => Byte.eqb x y && bytes_eqb a' b'
  | _, _ => false
  end.

(* ================================================================== *)
(** * Shared data model *)
(* ================================================================== *)

(** The interfaces exported by the engine. *)
Module CryptoTypes.

Inductive Algorithm := Aes256Gcm | Aes256Cbc.

Record EncryptionConfig := {
  algorithm : Algorithm;
  keyLength : nat;
  ivLength : nat;
  saltLength : nat;
  tagLength : nat
}.

Definition DEFAULT_CONFIG : EncryptionConfig :=
  {| algorithm := Aes256Gcm; keyLength := 32; ivLength := 16;
     saltLength := 32; tagLength := 16 |}.

Record EncryptionResult := {
  encryptedData : string;
  iv : string;
  salt : string;
  tag : option string
}.

Record KeyPair := {
  publicKey : string;
  privateKey : string
}.

End CryptoTypes.
Export CryptoTypes.

(** A JavaScript number that is an integer, or [NaN]. *)
Inductive JsNumber :=
| Num (z : Z)
| NaN.

(** A value that is either a string or a promise of one that nobody awaited. *)
Inductive JsValue :=
| JsStr (s : string)
| JsPromise (settled : Result string).

(* ================================================================== *)
(** * The platform underneath the repository's code *)
(* ================================================================== *)

(** The ways a call of Node's [generateKeyPair] ends: its callback is given
    the pair, or it is given an error, or the call itself throws on options
    that it does not accept, such as a modulus length that is not an
    integer. *)
Inductive KeyPairGeneration :=
| Generated (keyPair : KeyPair)
| CallbackError
| Thrown (message : string).

Class Platform := {
  (** state of the operating system's secure random source *)
  Rng : Type;
  (** [crypto.randomBytes(n)] *)
  randomBytes : nat -> Rng -> Buffer * Rng;
  (** [Math.random().toString(36).substr(2, 9)] *)
  random_base36 : Rng -> string * Rng;
  (** [scrypt(password, salt, keylen)] *)
  scrypt : string -> Buffer -> nat -> Buffer;
  (** [createCipheriv(alg, key, iv)], [update], [final] and [getAuthTag]:
      the ciphertext and the authentication tag *)
  cipher_run : Algorithm -> Buffer -> Buffer -> Buffer -> Buffer * Buffer;
  (** [createDecipheriv(alg, key, iv)], the optional [setAuthTag], [update]
      and [final], which throws when authentication fails *)
  decipher_run :
    Algorithm -> Buffer -> Buffer -> option Buffer -> Buffer -> Result Buffer;
  (** [createHash(algorithm).update(data).digest('hex')] *)
  createHash_hex : string -> string -> Result string;
  (** [generateKeyPair('rsa', {modulusLength, ...}, callback)], PEM encoded *)
  rsa_generateKeyPair : JsNumber -> Rng -> KeyPairGeneration * Rng;
  (** [JSON.stringify] and [JSON.parse] at the type [EncryptionResult] *)
  JSON_stringify_result : EncryptionResult -> string;
  JSON_parse_result : string -> Result EncryptionResult;
  (** [btoa] and [atob] *)
  btoa : string -> Result string;
  atob : string -> Result string
}.

Class PlatformLaws `{Platform} : Prop := {
  gcm_open_seal : forall key v plain,
    decipher_run Aes256Gcm key v
      (Some (snd (cipher_run Aes256Gcm key v plain)))
      (fst (cipher_run Aes256Gcm key v plain)) = Ok plain;
  cbc_open_seal : forall key v plain,
    decipher_run Aes256Cbc key v None
      (fst (cipher_run Aes256Cbc key v plain)) = Ok plain;
  cipher_nonempty : forall alg key v plain,
    plain <> [] -> fst (cipher_run alg key v plain) <> [];
  gcm_tag_nonempty : forall key v plain,
    snd (cipher_run Aes256Gcm key v plain) <> []
}.

(* ================================================================== *)
(** * The crypto engine over Node's crypto module *)
(* ================================================================== *)

(** The two draws one encryption makes from the random source in state [g]:
    first the salt, then, from the state the first draw leaves, the iv. *)
Definition salt_draw `{Platform} (config : EncryptionConfig) (g : Rng) : Buffer :=
  fst (randomBytes (saltLength config) g).

Definition iv_draw `{Platform} (config : EncryptionConfig) (g : Rng) : Buffer :=
  fst (randomBytes (ivLength config) (snd (randomBytes (saltLength config) g))).

Definition after_draws `{Platform} (config : EncryptionConfig) (g : Rng) : Rng :=
  snd (randomBytes (ivLength config) (snd (randomBytes (saltLength config) g))).

Module CryptoEngineNode.
Section Engine.
Context `{Platform}.
Variable config : EncryptionConfig.

Definition deriveKey (password : string) (salt : Buffer) : Buffer :=
  scrypt password salt (keyLength config).

Definition encryptText (plaintext password : string) (g : Rng)
  : Result EncryptionResult * Rng :=
  if negb (truthy plaintext) || negb (truthy password) then
    (Err "Encryption failed: Plaintext and password are required", g)
  else
    let (salt, g1) := randomBytes (saltLength config) g in
    let (iv, g2) := randomBytes (ivLength config) g1 in
    let key := deriveKey password salt in
    let (encrypted, authTag) :=
      cipher_run (algorithm config) key iv (utf8_encode plaintext) in
    let tag := match algorithm config with
               | Aes256Gcm => Some (toString_hex authTag)
               | Aes256Cbc => None
               end in
    (Ok {| encryptedData := toString_hex encrypted;
           iv := toString_hex iv;
           salt := toString_hex salt;
           tag := tag |}, g2).

Definition authTag_of (r : EncryptionResult) : option Buffer :=
  match algorithm config, tag r with
  | Aes256Gcm, Some t => if truthy t then Some (Buffer_from_hex t) else None
  | _, _ => None
  end.

Definition decryptText (encryptionResult : EncryptionResult)
  (password : string) : Result string :=
  rethrow "Decryption failed: "
    (if negb (truthy (encryptedData encryptionResult))
        || negb (truthy password) then
       Err "Encrypted data and password are required"
     else
       let salt := Buffer_from_hex (salt encryptionResult) in
       let iv := Buffer_from_hex (iv encryptionResult) in
       let key := deriveKey password salt in
       decrypted <- decipher_run (algorithm config) key iv
                      (authTag_of encryptionResult)
                      (Buffer_from_hex (encryptedData encryptionResult)) ;;
       Ok (utf8_decode decrypted)).

Definition generateSecureKey (length : nat) (g : Rng) : string * Rng :=
  let (key, g') := randomBytes length g in (toString_hex key, g').

Definition generateSecureHash (data : string) (alg : string) : Result string :=
  rethrow "Failed to generate hash: " (createHash_hex alg data).

End Engine.
End CryptoEngineNode.

(* ================================================================== *)
(** * JavaScript library functions used by the sources *)
(* ================================================================== *)

(** [Map<string, V>]: entries in insertion order; [set] on a present key
    keeps its position. *)
Section JsMap.
Variable V : Type.

Fixpoint Map_get (k : string) (m : list (string * V)) : option V :=
  match m with
  | [] => None
  | (k', v) :: rest => if k' =? k then Some v else Map_get k rest
  end.

Fixpoint Map_set (k : string) (v : V) (m : list (string * V))
  : list (string * V) :=
  match m with
  | [] => [(k, v)]
  | (k', v') :: rest =>
      if k' =? k then (k, v) :: rest else (k', v') :: Map_set k v rest
  end.

(** On an index without repeated keys, which is all a [Map] can be, this
    removes the one entry of [k]. *)
Fixpoint Map_delete (k : string) (m : list (string * V)) : list (string * V) :=
  match m with
  | [] => []
  | (k', v') :: rest =>
      if k' =? k then Map_delete k rest else (k', v') :: Map_delete k rest
  end.

Definition Map_has (k : string) (m : list (string * V)) : bool :=
  match Map_get k m with Some _ => true | None => false end.

Definition Map_values (m : list (string * V)) : list V := map snd m.

End JsMap.

(** [RegExp.test] for a one-character class: some character is in it. *)
Fixpoint some_char (p : ascii -> bool) (s : string) : bool :=
  match s with
  | EmptyString => false
  | String c rest => p c || some_char p rest
  end.

Fixpoint every_char (p : ascii -> bool) (s : string) : bool :=
  match s with
  | EmptyString => true
  | String c rest => p c && every_char p rest
  end.

Definition in_range (lo hi : N) (c : ascii) : bool :=
  ((lo <=? N_of_ascii c) && (N_of_ascii c <=? hi))%N.

Definition is_upper : ascii -> bool := in_range 65 90.      (* [A-Z] *)
Definition is_lower : ascii -> bool := in_range 97 122.     (* [a-z] *)
Definition is_digit : ascii -> bool := in_range 48 57.      (* \d *)

(** The class of special characters of the password policies, by character
    code: ! @ # $ % ^ & * ( ) , . ? double-quote : { } | < > *)
Definition special_codes : list N :=
  [33; 64; 35; 36; 37; 94; 38; 42; 40; 41; 44; 46; 63; 34; 58; 123; 125;
   124; 60; 62]%N.

Definition is_special (c : ascii) : bool :=
  existsb (N.eqb (N_of_ascii c)) special_codes.

(** [s.length]: the number of UTF-16 code units of the text. Of the bytes
    of its UTF-8 encoding, a continuation byte counts for nothing, the first
    byte of a four-byte sequence for the two halves of a surrogate pair, and
    every other byte for one unit. *)
Definition utf16_units (c : ascii) : nat :=
  let n := N_of_ascii c in
  if (n <? 128)%N then 1
  else if (n <? 192)%N then 0
  else if (n <? 240)%N then 1
  else 2.

Fixpoint js_length (s : string) : nat :=
  match s with
  | EmptyString => 0
  | String c rest => utf16_units c + js_length rest
  end.

(** The white space and line terminators of JavaScript within ASCII: tab,
    line feed, vertical tab, form feed, carriage return and space. *)
Definition is_space (c : ascii) : bool :=
  existsb (N.eqb (N_of_ascii c)) [9; 10; 11; 12; 13; 32]%N.

(** Those beyond ASCII, by the bytes of their UTF-8 encoding: U+00A0,
    U+1680, U+2000 to U+200A, U+2028, U+2029, U+202F, U+205F, U+3000 and
    U+FEFF. *)
Definition wide_spaces : list (list N) :=
  [[194; 160]; [225; 154; 128];
   [226; 128; 128]; [226; 128; 129]; [226; 128; 130]; [226; 128; 131];
   [226; 128; 132]; [226; 128; 133]; [226; 128; 134]; [226; 128; 135];
   [226; 128; 136]; [226; 128; 137]; [226; 128; 138];
   [226; 128; 168]; [226; 128; 169]; [226; 128; 175]; [226; 129; 159];
   [227; 128; 128]; [239; 187; 191]]%N.

(** [s] without the bytes [codes] that it starts with. *)
Fixpoint strip_bytes (codes : list N) (s : string) : option string :=
  match codes with
  | [] => Some s
  | code :: codes' =>
      match s with
      | String c rest =>
          if (N_of_ascii c =? code)%N then strip_bytes codes' rest else None
      | EmptyString => None
      end
  end.

Fixpoint first_some {A : Type} (candidates : list (option A)) : option A :=
  match candidates with
  | [] => None
  | Some a :: _ => Some a
  | None :: rest => first_some rest
  end.

(** [s] without the white-space character that it starts with. *)
Definition strip_space (s : string) : option string :=
  match s with
  | String c rest =>
      if is_space c then Some rest
      else first_some (map (fun codes => strip_bytes codes s) wide_spaces)
  | EmptyString => None
  end.

(** [s] without its leading white space; each step removes a byte at
    least, so the number of bytes of [s] is fuel enough. *)
Fixpoint skip_spaces_within (fuel : nat) (s : string) : string :=
  match fuel with
  | O => s
  | S fuel' =>
      match strip_space s with
      | Some rest => skip_spaces_within fuel' rest
      | None => s
      end
  end.

Definition skip_spaces (s : string) : string :=
  skip_spaces_within (String.length s) s.

(** [s.trim().length === 0] *)
Definition blank (s : string) : bool := skip_spaces s =? EmptyString.

(** [s.startsWith(prefix)] *)
Fixpoint startsWith (s prefix : string) : bool :=
  match prefix, s with
  | EmptyString, _ => true
  | String p prefix', String c s' => Ascii.eqb c p && startsWith s' prefix'
  | String _ _, EmptyString => false
  end.

(** [s.substring(n)] *)
Fixpoint substring_from (n : nat) (s : string) : string :=
  match n, s with
  | O, _ => s
  | S n', String _ s' => substring_from n' s'
  | S _, EmptyString => EmptyString
  end.

(** [s.split(sep)] for a one-character separator. *)
Fixpoint split (sep : ascii) (s : string) : list string :=
  match s with
  | EmptyString => [EmptyString]
  | String c rest =>
      if Ascii.eqb c sep then EmptyString :: split sep rest
      else match split sep rest with
           | [] => [String c EmptyString]
           | piece :: pieces => String c piece :: pieces
           end
  end.

(** The longest prefix of digits in the radix, as a number; [None] when
    there is no digit. *)
Fixpoint digits_value (radix : N) (s : string) (acc : option N) : option N :=
  match s with
  | EmptyString => acc
  | String c rest =>
      match hex_value c with
      | Some d =>
          if (d <? radix)%N then
            digits_value radix rest
              (Some (match acc with Some a => a * radix + d | None => d end)%N)
          else acc
      | None => acc
      end
  end.

Definition unsigned_value (s : string) : option N :=
  match s with
  | String "0" (String "x" rest) => digits_value 16 rest None
  | String "0" (String "X" rest) => digits_value 16 rest None
  | _ => digits_value 10 s None
  end.

(** [parseInt(s)]; the argument [undefined] is [None]. *)
Definition parseInt (arg : option string) : JsNumber :=
  match arg with
  | None => NaN
  | Some s =>
      match skip_spaces s with
      | String "-" rest =>
          match unsigned_value rest with
          | Some n => Num (- Z.of_N n)
          | None => NaN
          end
      | String "+" rest =>
          match unsigned_value rest with
          | Some n => Num (Z.of_N n)
          | None => NaN
          end
      | rest =>
          match unsigned_value rest with
          | Some n => Num (Z.of_N n)
          | None => NaN
          end
      end
  end.

(** [String(n)] for an integer. *)
Definition Z_toString (z : Z) : string := NilZero.string_of_int (Z.to_int z).

Definition Number_toString (n : JsNumber) : string :=
  match n with
  | Num z => Z_toString z
  | NaN => "NaN"
  end.

(** [Math.ceil(x / d)] for integers [x] and [d > 0]. *)
Definition ceil_div (x d : Z) : Z := (- ((- x) / d))%Z.

Definition DAY_MS : Z := (24 * 60 * 60 * 1000)%Z.

(** What a field declared [Date] holds at run time: a [Date] object, which
    may be the invalid date, or, in a record that came out of [JSON.parse],
    the ISO text that [JSON.stringify] wrote for a date. Both are given by
    the time they denote. *)
Inductive DateField :=
| DateObject (time : Z)
| InvalidDate
| IsoString (time : Z).

(** The largest time value of a [Date], 100 million days from the epoch. *)
Definition MAX_TIME : Z := 8640000000000000.

(** [new Date(time)]: a time out of range gives the invalid date. *)
Definition new_Date (time : Z) : DateField :=
  if (Z.abs time <=? MAX_TIME)%Z then DateObject time else InvalidDate.

(** What [JSON.stringify] followed by [JSON.parse] leaves of an optional
    date field: the ISO text of a date, nothing of the invalid date, which
    is written as [null], and a text as it is. *)
Definition Date_toJSON (d : option DateField) : option DateField :=
  match d with
  | Some (DateObject time) => Some (IsoString time)
  | Some InvalidDate => None
  | Some (IsoString time) => Some (IsoString time)
  | None => None
  end.

(** The number a relational operator makes of a date field: the time value
    of a [Date] object, and NaN of the invalid date and of an ISO text. *)
Definition ToNumber (d : DateField) : JsNumber :=
  match d with
  | DateObject time => Num time
  | InvalidDate => NaN
  | IsoString _ => NaN
  end.

(** [a < b] and [a <= b] on numbers: false when either is NaN. *)
Definition js_lt (a b : JsNumber) : bool :=
  match a, b with
  | Num x, Num y => (x <? y)%Z
  | _, _ => false
  end.

Definition js_le (a b : JsNumber) : bool :=
  match a, b with
  | Num x, Num y => (x <=? y)%Z
  | _, _ => false
  end.

(** [field && field < new Date()]: a date object and a non-empty text are
    both truthy. *)
Definition before_now (field : option DateField) (now : Z) : bool :=
  match field with
  | Some d => js_lt (ToNumber d) (Num now)
  | None => false
  end.

(* ================================================================== *)
(** * The Electron main process: IPC handlers *)
(* ================================================================== *)

Module ElectronMain.
Section Handlers.
Context `{Platform}.

(** [ipcMain.handle('crypto:generateKeyPair', ...)] *)
Definition handle_generateKeyPair (keySize : JsNumber) (g : Rng)
  : Result KeyPair * Rng :=
  match rsa_generateKeyPair keySize g with
  | (Generated keyPair, g') => (Ok keyPair, g')
  | (CallbackError, g') => (Err "Failed to generate key pair", g')
  | (Thrown m, g') => (Err m, g')
  end.

(** [ipcMain.handle('crypto:encryptText', ...)] *)
Definition handle_encryptText (plaintext password : string)
  (config : EncryptionConfig) (g : Rng) : Result EncryptionResult * Rng :=
  let (salt, g1) := randomBytes (saltLength config) g in
  let (iv, g2) := randomBytes (ivLength config) g1 in
  let key := scrypt password salt (keyLength config) in
  let (encrypted, authTag) :=
    cipher_run (algorithm config) key iv (utf8_encode plaintext) in
  let tag := match algorithm config with
             | Aes256Gcm => Some (toString_hex authTag)
             | Aes256Cbc => None
             end in
  (Ok {| encryptedData := toString_hex encrypted;
         iv := toString_hex iv;
         salt := toString_hex salt;
         tag := tag |}, g2).

(** [ipcMain.handle('crypto:decryptText', ...)] *)
Definition handle_decryptText (encryptionResult : EncryptionResult)
  (password : string) (config : EncryptionConfig) : Result string :=
  rethrow "Decryption failed: "
    (let salt := Buffer_from_hex (salt encryptionResult) in
     let iv := Buffer_from_hex (iv encryptionResult) in
     let key := scrypt password salt (keyLength config) in
     decrypted <- decipher_run (algorithm config) key iv
                    (CryptoEngineNode.authTag_of config encryptionResult)
                    (Buffer_from_hex (encryptedData encryptionResult)) ;;
     Ok (utf8_decode decrypted)).

(** [ipcMain.handle('crypto:generateSecureHash', ...)] *)
Definition handle_generateSecureHash (data alg : string) : Result string :=
  rethrow "Failed to generate hash: " (createHash_hex alg data).

(** [ipcMain.handle('crypto:randomBytes', ...)] *)
Definition handle_randomBytes (length : nat) (g : Rng) : Result string * Rng :=
  let (bytes, g') := randomBytes length g in (Ok (toString_hex bytes), g').

(** [ipcMain.handle('crypto:deriveKey', ...)] *)
Definition handle_deriveKey (password salt : string) (keyLength : nat)
  : Result string :=
  let saltBuffer := Buffer_from_hex salt in
  let derivedKey := scrypt password saltBuffer keyLength in
  Ok (toString_hex derivedKey).

End Handlers.
End ElectronMain.

(* ================================================================== *)
(** * The bridge: preload.js and ipcRenderer.invoke *)
(* ================================================================== *)

(** What the renderer's [window] offers. *)
Record Window := {
  electronAPI : bool;   (* [window.electronAPI] was exposed by the preload *)
  getRandomValues : bool;  (* [window.crypto && window.crypto.getRandomValues] *)
  subtle : bool            (* [window.crypto && window.crypto.subtle] *)
}.

(** [ipcRenderer.invoke] serialises its arguments with the structured clone
    algorithm, which throws on a promise. *)
Definition structuredClone (v : JsValue) : Result string :=
  match v with
  | JsStr s => Ok s
  | JsPromise _ => Err "An object could not be cloned."
  end.

(** A handler's rejection reaches the renderer under Electron's own prefix. *)
Definition invoke {A : Type} (channel : string) (r : Result A) : Result A :=
  rethrow ("Error invoking remote method '" ++ channel ++ "': Error: ") r.

(** Truthiness of a string-or-promise: an object is always truthy. *)
Definition js_truthy (v : JsValue) : bool :=
  match v with
  | JsStr s => truthy s
  | JsPromise _ => true
  end.

(* ================================================================== *)
(** * src/utils/encryption/cryptoEngine.ts *)
(* ================================================================== *)

Module CryptoEngine.
Section Engine.
Context `{Platform}.
Variable window : Window.
Variable config : EncryptionConfig.

(** [async generateSecureKey(length)]: the outcome the returned promise
    settles with. *)
Definition generateSecureKey (length : nat) (g : Rng) : Result string * Rng :=
  if electronAPI window then
    match ElectronMain.handle_randomBytes length g with
    | (Ok key, g') => (Ok key, g')
    | (Err _, g') => (Err "Failed to generate secure key", g')
    end
  else if getRandomValues window then
    let (array, g') := randomBytes length g in (Ok (toString_hex array), g')
  else (Err "Failed to generate secure key", g).

Definition generateKeyPair (keySize : JsNumber) (g : Rng)
  : Result KeyPair * Rng :=
  if electronAPI window then
    match ElectronMain.handle_generateKeyPair keySize g with
    | (Ok keyPair, g') => (Ok keyPair, g')
    | (Err _, g') => (Err "Failed to generate key pair", g')
    end
  else (Err "Failed to generate key pair", g).

Definition encryptText (plaintext : JsValue) (password : string) (g : Rng)
  : Result EncryptionResult * Rng :=
  if negb (js_truthy plaintext) || negb (truthy password) then
    (Err "Encryption failed: Plaintext and password are required", g)
  else if electronAPI window then
    match structuredClone plaintext with
    | Ok text =>
        let (r, g') := ElectronMain.handle_encryptText text password config g in
        (rethrow "Encryption failed: " (invoke "crypto:encryptText" r), g')
    | Err m => (Err ("Encryption failed: " ++ m), g)
    end
  else
    (Err "Encryption failed: Text encryption not supported in browser environment",
     g).

Definition decryptText (encryptionResult : EncryptionResult)
  (password : string) : Result string :=
  rethrow "Decryption failed: "
    (if negb (truthy (encryptedData encryptionResult))
        || negb (truthy password) then
       Err "Encrypted data and password are required"
     else if electronAPI window then
       invoke "crypto:decryptText"
         (ElectronMain.handle_decryptText encryptionResult password config)
     else Err "Text decryption not supported in browser environment").

(** [async generateSecureHash(data, algorithm = 'sha256')]: the outcome the
    returned promise settles with. *)
Definition generateSecureHash (data alg : string) : Result string :=
  rethrow "Failed to generate hash: "
    (if electronAPI window then
       invoke "crypto:generateSecureHash"
         (ElectronMain.handle_generateSecureHash data alg)
     else if subtle window then createHash_hex "sha256" data
     else Err "Hash generation not supported in this environment").

Definition deriveKey (password salt : string) : Result string :=
  match (if electronAPI window then
           invoke "crypto:deriveKey"
             (ElectronMain.handle_deriveKey password salt (keyLength config))
         else Err "Key derivation not supported in browser environment") with
  | Ok derivedKey => Ok derivedKey
  | Err _ => Err "Failed to derive key from password"
  end.

End Engine.
End CryptoEngine.

(* ================================================================== *)
(** * src/utils/encryption/keyManager.ts *)
(* ================================================================== *)

Module KeyManager.

Inductive KeyType := symmetric | asymmetric.

Record Metadata := {
  purpose : string;
  owner : string;
  permissions : list string
}.

Record StoredKey := {
  id : string;
  name : string;
  type : KeyType;
  algorithm : string;
  keyData : string;
  publicKey : option string;
  createdAt : option DateField;   (* absent once written as [null] *)
  expiresAt : option DateField;
  metadata : Metadata
}.

(** What [JSON.stringify] followed by [JSON.parse] leaves of a stored key:
    its dates have become text. *)
Definition toJSON (key : StoredKey) : StoredKey :=
  {| id := id key; name := name key; type := type key;
     algorithm := algorithm key; keyData := keyData key;
     publicKey := publicKey key;
     createdAt := Date_toJSON (createdAt key);
     expiresAt := Date_toJSON (expiresAt key);
     metadata := metadata key |}.

(** The same of the entries of the index. *)
Definition entries_toJSON (entries : list (string * StoredKey))
  : list (string * StoredKey) :=
  map (fun entry => (fst entry, toJSON (snd entry))) entries.

(** [Omit<StoredKey, 'keyData'>] *)
Record KeyListing := {
  l_id : string;
  l_name : string;
  l_type : KeyType;
  l_algorithm : string;
  l_publicKey : option string;
  l_createdAt : option DateField;
  l_expiresAt : option DateField;
  l_metadata : Metadata
}.

(** The object [exportKeys] serialises, and what [importKeys] reads of the
    object it parses. *)
Record ExportData := {
  version : string;
  exportedAt : Z;
  export_keys : list StoredKey
}.

Record ParsedExport := {
  parsed_version : option string;
  parsed_keys : option (list StoredKey)
}.

Class ExportCodec := {
  JSON_stringify_export : ExportData -> string;
  JSON_parse_export : string -> Result ParsedExport
}.

Section Manager.
Context `{Platform} `{ExportCodec}.
Variable window : Window.

(** The fields of a [KeyManager], the entry ['zenithbill_encrypted_keys'] of
    [localStorage], given by the entries that its text holds, and the random
    source. *)
Record State := {
  keys : list (string * StoredKey);
  masterPassword : option string;
  localStorage : option (list (string * StoredKey));
  rng : Rng
}.

Definition with_rng (g : Rng) (s : State) : State :=
  {| keys := keys s; masterPassword := masterPassword s;
     localStorage := localStorage s; rng := g |}.

Definition with_keys (ks : list (string * StoredKey)) (s : State) : State :=
  {| keys := ks; masterPassword := masterPassword s;
     localStorage := localStorage s; rng := rng s |}.

Definition with_masterPassword (p : option string) (s : State) : State :=
  {| keys := keys s; masterPassword := p;
     localStorage := localStorage s; rng := rng s |}.

(** [this.masterPassword!] *)
Definition master (s : State) : string :=
  match masterPassword s with
  | Some p => p
  | None => EmptyString
  end.

Definition generateKeyId (now : Z) (g : Rng) : string * Rng :=
  let (suffix, g') := random_base36 g in
  ("key_" ++ Z_toString now ++ "_" ++ suffix, g').

Definition ensureInitialized (s : State) : Result unit :=
  match masterPassword s with
  | Some p =>
      if truthy p then Ok tt
      else Err "Key manager not initialized. Call initialize() first."
  | None => Err "Key manager not initialized. Call initialize() first."
  end.

Definition validateMasterPassword (password : string) : Result unit :=
  if negb (truthy password) || Nat.ltb (js_length password) 12 then
    Err "Master password must be at least 12 characters long"
  else
    let hasUpperCase := some_char is_upper password in
    let hasLowerCase := some_char is_lower password in
    let hasNumbers := some_char is_digit password in
    let hasSpecialChar := some_char is_special password in
    if negb (hasUpperCase && hasLowerCase && hasNumbers && hasSpecialChar) then
      Err "Master password must contain uppercase, lowercase, numbers, and special characters"
    else Ok tt.

(** [JSON.parse(keyData)] followed by [decryptText] under a password. *)
Definition decryptKeyData (keyData : string) (password : string)
  : Result string :=
  encryptedKey <- JSON_parse_result keyData ;;
  CryptoEngine.decryptText window DEFAULT_CONFIG encryptedKey password.

Definition verifyMasterPassword (s : State) : Result unit :=
  match keys s with
  | [] => Ok tt
  | (_, firstKey) :: _ =>
      match decryptKeyData (keyData firstKey) (master s) with
      | Ok _ => Ok tt
      | Err _ => Err "Invalid master password"
      end
  end.

(** [localStorage.setItem(..., JSON.stringify(Array.from(this.keys.entries())))] *)
Definition saveKeysToStorage (s : State) : State :=
  {| keys := keys s; masterPassword := masterPassword s;
     localStorage := Some (entries_toJSON (keys s)); rng := rng s |}.

Definition initialize (password : string) (s : State) : Result unit * State :=
  match validateMasterPassword password with
  | Err m => (Err ("Key manager initialization failed: " ++ m), s)
  | Ok _ =>
      let s1 := with_masterPassword (Some password) s in
      match verifyMasterPassword s1 with
      | Ok _ => (Ok tt, s1)
      | Err m => (Err ("Key manager initialization failed: " ++ m), s1)
      end
  end.

(** [expirationDays ? new Date(Date.now() + expirationDays * DAY) : undefined] *)
Definition expiry (expirationDays : option Z) (now : Z) : option DateField :=
  match expirationDays with
  | Some days =>
      if (days =? 0)%Z then None else Some (new_Date (now + days * DAY_MS))
  | None => None
  end.

Definition generateSymmetricKey (name purpose owner : string)
  (expirationDays : option Z) (now : Z) (s : State) : Result string * State :=
  match ensureInitialized s with
  | Err m => (Err ("Failed to generate symmetric key: " ++ m), s)
  | Ok _ =>
      let (keyId, g1) := generateKeyId now (rng s) in
      (* [generateSecureKey()] is not awaited: [keyData] is the promise *)
      let (settled, g2) :=
        CryptoEngine.generateSecureKey window (keyLength DEFAULT_CONFIG) g1 in
      let keyData := JsPromise settled in
      match CryptoEngine.encryptText window DEFAULT_CONFIG keyData
              (master s) g2 with
      | (Err m, g3) =>
          (Err ("Failed to generate symmetric key: " ++ m), with_rng g3 s)
      | (Ok encryptedKey, g3) =>
          let storedKey :=
            {| id := keyId; name := name; type := symmetric;
               algorithm := "AES-256";
               keyData := JSON_stringify_result encryptedKey;
               publicKey := None;
               createdAt := Some (DateObject now);
               expiresAt := expiry expirationDays now;
               metadata := {| purpose := purpose; owner := owner;
                              permissions := ["encrypt"; "decrypt"] |} |} in
          (Ok keyId,
           saveKeysToStorage
             (with_keys (Map_set keyId storedKey (keys s)) (with_rng g3 s)))
      end
  end.

Definition generateAsymmetricKeyPair (name purpose owner : string)
  (keySize : JsNumber) (expirationDays : option Z) (now : Z) (s : State)
  : Result string * State :=
  match ensureInitialized s with
  | Err m => (Err ("Failed to generate asymmetric key pair: " ++ m), s)
  | Ok _ =>
      let (keyId, g1) := generateKeyId now (rng s) in
      match CryptoEngine.generateKeyPair window keySize g1 with
      | (Err m, g2) =>
          (Err ("Failed to generate asymmetric key pair: " ++ m), with_rng g2 s)
      | (Ok (Build_KeyPair pub priv), g2) =>
          match CryptoEngine.encryptText window DEFAULT_CONFIG (JsStr priv)
                  (master s) g2 with
          | (Err m, g3) =>
              (Err ("Failed to generate asymmetric key pair: " ++ m),
               with_rng g3 s)
          | (Ok encryptedPrivateKey, g3) =>
              let storedKey :=
                {| id := keyId; name := name; type := asymmetric;
                   algorithm := "RSA-" ++ Number_toString keySize;
                   keyData := JSON_stringify_result encryptedPrivateKey;
                   publicKey := Some pub;
                   createdAt := Some (DateObject now);
                   expiresAt := expiry expirationDays now;
                   metadata := {| purpose := purpose; owner := owner;
                                  permissions := ["sign"; "decrypt"] |} |} in
              (Ok keyId,
               saveKeysToStorage
                 (with_keys (Map_set keyId storedKey (keys s)) (with_rng g3 s)))
          end
      end
  end.

(** [storedKey.expiresAt && storedKey.expiresAt < new Date()] *)
Definition expired (storedKey : StoredKey) (now : Z) : bool :=
  before_now (expiresAt storedKey) now.

Definition getKey (keyId : string) (now : Z) (s : State) : Result string :=
  rethrow "Failed to retrieve key: "
    (_ <- ensureInitialized s ;;
     match Map_get keyId (keys s) with
     | None => Err "Key not found"
     | Some storedKey =>
         if expired storedKey now then Err "Key has expired"
         else decryptKeyData (keyData storedKey) (master s)
     end).

Definition getPublicKey (keyId : string) (s : State) : Result string :=
  rethrow "Failed to retrieve public key: "
    match Map_get keyId (keys s) with
    | None => Err "Key not found"
    | Some storedKey =>
        match type storedKey, publicKey storedKey with
        | asymmetric, Some pub =>
            if truthy pub then Ok pub
            else Err "Key is not an asymmetric key pair"
        | _, _ => Err "Key is not an asymmetric key pair"
        end
    end.

Definition listing (key : StoredKey) : KeyListing :=
  {| l_id := id key; l_name := name key; l_type := type key;
     l_algorithm := algorithm key; l_publicKey := publicKey key;
     l_createdAt := createdAt key; l_expiresAt := expiresAt key;
     l_metadata := metadata key |}.

Definition listKeys (s : State) : list KeyListing :=
  map listing (Map_values (keys s)).

Definition deleteKey (keyId : string) (s : State) : Result unit * State :=
  match ensureInitialized s with
  | Err m => (Err ("Failed to delete key: " ++ m), s)
  | Ok _ =>
      match Map_get keyId (keys s) with
      | None => (Err "Failed to delete key: Key not found", s)
      | Some _ =>
          (Ok tt, saveKeysToStorage (with_keys (Map_delete keyId (keys s)) s))
      end
  end.

(** [oldKey.expiresAt
      ? Math.ceil((oldKey.expiresAt.getTime() - Date.now()) / DAY)
      : undefined]
    A text has no method [getTime], and calling it throws. The invalid date
    gives NaN, which the generation that receives it reads as it reads
    [undefined], by its truthiness. *)
Definition remainingDays (oldKey : StoredKey) (now : Z) : Result (option Z) :=
  match expiresAt oldKey with
  | Some (DateObject e) => Ok (Some (ceil_div (e - now) DAY_MS))
  | Some InvalidDate => Ok None
  | Some (IsoString _) => Err "oldKey.expiresAt.getTime is not a function"
  | None => Ok None
  end.

(** [now] is the time [rotateKey] reads when it computes the days that
    remain, and [later] the time that the generation it then calls reads. *)
Definition rotateKey (keyId : string) (now later : Z) (s : State)
  : Result string * State :=
  match ensureInitialized s with
  | Err m => (Err ("Failed to rotate key: " ++ m), s)
  | Ok _ =>
      match Map_get keyId (keys s) with
      | None => (Err "Failed to rotate key: Key not found", s)
      | Some oldKey =>
          let (generated, s1) :=
            match type oldKey with
            | symmetric =>
                match remainingDays oldKey now with
                | Err m => (Err m, s)
                | Ok expirationDays =>
                    generateSymmetricKey (name oldKey)
                      (purpose (metadata oldKey)) (owner (metadata oldKey))
                      expirationDays later s
                end
            | asymmetric =>
                let keySize :=
                  parseInt (nth_error (split "-" (algorithm oldKey)) 1) in
                match remainingDays oldKey now with
                | Err m => (Err m, s)
                | Ok expirationDays =>
                    generateAsymmetricKeyPair (name oldKey)
                      (purpose (metadata oldKey)) (owner (metadata oldKey))
                      keySize expirationDays later s
                end
            end in
          match generated with
          | Err m => (Err ("Failed to rotate key: " ++ m), s1)
          | Ok newKeyId =>
              match deleteKey keyId s1 with
              | (Err m, s2) => (Err ("Failed to rotate key: " ++ m), s2)
              | (Ok _, s2) => (Ok newKeyId, s2)
              end
          end
      end
  end.

(** [key.expiresAt && key.expiresAt <= cutoffDate
                   && key.expiresAt > new Date()] *)
Definition getExpiringKeys (daysAhead : Z) (now : Z) (s : State)
  : list StoredKey :=
  let cutoffDate := new_Date (now + daysAhead * DAY_MS) in
  filter (fun key =>
            match expiresAt key with
            | Some e =>
                js_le (ToNumber e) (ToNumber cutoffDate)
                && js_lt (Num now) (ToNumber e)
            | None => false
            end)
         (Map_values (keys s)).

Definition exportKeys (now : Z) (s : State) : Result string :=
  rethrow "Failed to export keys: "
    (_ <- ensureInitialized s ;;
     Ok (JSON_stringify_export
           {| version := "1.0"; exportedAt := now;
              export_keys := Map_values (keys s) |})).

Fixpoint import_each (incoming : list StoredKey)
  (ks : list (string * StoredKey)) : list (string * StoredKey) :=
  match incoming with
  | [] => ks
  | keyData :: rest =>
      if negb (Map_has (id keyData) ks)
      then import_each rest (Map_set (id keyData) keyData ks)
      else import_each rest ks
  end.

Definition importKeys (exportData : string) (s : State) : Result unit * State :=
  match ensureInitialized s with
  | Err m => (Err ("Failed to import keys: " ++ m), s)
  | Ok _ =>
      match JSON_parse_export exportData with
      | Err m => (Err ("Failed to import keys: " ++ m), s)
      | Ok data =>
          match parsed_version data, parsed_keys data with
          | Some v, Some incoming =>
              if truthy v then
                (* the keys are as [JSON.parse] made them *)
                (Ok tt,
                 saveKeysToStorage
                   (with_keys (import_each (map toJSON incoming) (keys s)) s))
              else (Err "Failed to import keys: Invalid export format", s)
          | _, _ => (Err "Failed to import keys: Invalid export format", s)
          end
      end
  end.

(** The loop of [changeMasterPassword]: each stored key is re-encrypted and
    written back at once, so a failure leaves the earlier ones rewritten. *)
Fixpoint reencrypt (entries : list (string * StoredKey))
  (oldPassword newPassword : string) (s : State) : Result unit * State :=
  match entries with
  | [] => (Ok tt, s)
  | (keyId, storedKey) :: rest =>
      match decryptKeyData (keyData storedKey) oldPassword with
      | Err m => (Err m, s)
      | Ok decryptedKey =>
          match CryptoEngine.encryptText window DEFAULT_CONFIG
                  (JsStr decryptedKey) newPassword (rng s) with
          | (Err m, g) => (Err m, with_rng g s)
          | (Ok reEncryptedKey, g) =>
              let storedKey' :=
                {| id := id storedKey; name := name storedKey;
                   type := type storedKey; algorithm := algorithm storedKey;
                   keyData := JSON_stringify_result reEncryptedKey;
                   publicKey := publicKey storedKey;
                   createdAt := createdAt storedKey;
                   expiresAt := expiresAt storedKey;
                   metadata := metadata storedKey |} in
              reencrypt rest oldPassword newPassword
                (with_keys (Map_set keyId storedKey' (keys s)) (with_rng g s))
          end
      end
  end.

Definition same_password (m : option string) (p : string) : bool :=
  match m with
  | Some q => q =? p
  | None => false
  end.

Definition changeMasterPassword (oldPassword newPassword : string) (s : State)
  : Result unit * State :=
  if negb (same_password (masterPassword s) oldPassword) then
    (Err "Failed to change master password: Invalid current master password", s)
  else
    match validateMasterPassword newPassword with
    | Err m => (Err ("Failed to change master password: " ++ m), s)
    | Ok _ =>
        match reencrypt (keys s) oldPassword newPassword s with
        | (Err m, s1) => (Err ("Failed to change master password: " ++ m), s1)
        | (Ok _, s1) =>
            (Ok tt, saveKeysToStorage (with_masterPassword (Some newPassword) s1))
        end
    end.

(** [new KeyManager()]: the index is read from [localStorage] with
    [JSON.parse], so the keys it starts with have text for dates. *)
Definition constructor (stored : option (list (string * StoredKey))) (g : Rng)
  : State :=
  {| keys := match stored with Some ks => entries_toJSON ks | None => [] end;
     masterPassword := None;
     localStorage := stored;
     rng := g |}.

(** The public operations other than [initialize]. *)
Inductive Operation :=
| GenerateSymmetricKey (name purpose owner : string) (expirationDays : option Z)
| GenerateAsymmetricKeyPair (name purpose owner : string) (keySize : JsNumber)
    (expirationDays : option Z)
| GetKey (keyId : string)
| GetPublicKey (keyId : string)
| ListKeys
| DeleteKey (keyId : string)
| RotateKey (keyId : string)
| GetExpiringKeys (daysAhead : Z)
| ExportKeys
| ImportKeys (exportData : string)
| ChangeMasterPassword (oldPassword newPassword : string).

Definition forget {A : Type} (r : Result A) : Result unit :=
  match r with
  | Ok _ => Ok tt
  | Err m => Err m
  end.

(** Whether a call returns or throws, and the state it leaves; [later] is
    the second reading of the clock that [rotateKey] makes. *)
Definition outcome (op : Operation) (now later : Z) (s : State)
  : Result unit * State :=
  match op with
  | GenerateSymmetricKey n p o d =>
      let (r, s') := generateSymmetricKey n p o d now s in (forget r, s')
  | GenerateAsymmetricKeyPair n p o k d =>
      let (r, s') := generateAsymmetricKeyPair n p o k d now s in (forget r, s')
  | GetKey keyId => (forget (getKey keyId now s), s)
  | GetPublicKey keyId => (forget (getPublicKey keyId s), s)
  | ListKeys => (forget (Ok (listKeys s)), s)
  | DeleteKey keyId => deleteKey keyId s
  | RotateKey keyId =>
      let (r, s') := rotateKey keyId now later s in (forget r, s')
  | GetExpiringKeys d => (forget (Ok (getExpiringKeys d now s)), s)
  | ExportKeys => (forget (exportKeys now s), s)
  | ImportKeys data => importKeys data s
  | ChangeMasterPassword o n => changeMasterPassword o n s
  end.

(** The operations whose body starts with [this.ensureInitialized()]. *)
Definition ensures_initialized (op : Operation) : bool :=
  match op with
  | GetPublicKey _ | ListKeys | GetExpiringKeys _ | ChangeMasterPassword _ _ =>
      false
  | _ => true
  end.

(** The prefix each operation's [catch] puts before the message. *)
Definition failure_prefix (op : Operation) : string :=
  match op with
  | GenerateSymmetricKey _ _ _ _ => "Failed to generate symmetric key: "
  | GenerateAsymmetricKeyPair _ _ _ _ _ =>
      "Failed to generate asymmetric key pair: "
  | GetKey _ => "Failed to retrieve key: "
  | GetPublicKey _ => "Failed to retrieve public key: "
  | DeleteKey _ => "Failed to delete key: "
  | RotateKey _ => "Failed to rotate key: "
  | ExportKeys => "Failed to export keys: "
  | ImportKeys _ => "Failed to import keys: "
  | ChangeMasterPassword _ _ => "Failed to change master password: "
  | ListKeys | GetExpiringKeys _ => EmptyString
  end.

End Manager.

Definition NotInitialized : string :=
  "Key manager not initialized. Call initialize() first.".

Definition fails_with_NotInitialized (r : Result unit) : Prop :=
  exists prefix, r = Err (prefix ++ NotInitialized).

End KeyManager.

(* ================================================================== *)
(** * src/utils/encryption/secureStorage.ts *)
(* ================================================================== *)

Module SecureStorage.

Record SecureStorageOptions := {
  opt_keyId : option string;
  expirationTime : option Z;          (* milliseconds *)
  compressionEnabled : option bool;
  integrityCheck : option bool
}.

(** What the field [checksum], declared a [string], holds at run time. *)
Inductive ChecksumField :=
| checksum_string (s : string)
| checksum_promise (settled : Result string) (* an un-awaited Promise<string> *)
| checksum_object.            (* a plain object, as parsed from the text {} *)

Record ItemMetadata := {
  originalSize : nat;
  encryptedSize : nat;
  checksum : ChecksumField;
  createdAt : option DateField;   (* absent once written as [null] *)
  expiresAt : option DateField;
  compressed : bool;
  keyId : option string
}.

Record SecureStorageItem := {
  id : string;
  encryptedData : EncryptionResult;
  metadata : ItemMetadata
}.

(** [JSON.stringify] writes a promise, which has no enumerable property of
    its own, as the text {} ; strings are written as strings. *)
Definition checksum_toJSON (c : ChecksumField) : ChecksumField :=
  match c with
  | checksum_string s => checksum_string s
  | checksum_promise _ => checksum_object
  | checksum_object => checksum_object
  end.

(** [fresh !== other], where [fresh] is the value the call just made
    returned: strings are compared by content, while a newly allocated object
    is identical to no other value. *)
Definition strict_neq (fresh other : ChecksumField) : bool :=
  match fresh, other with
  | checksum_string a, checksum_string b => negb (a =? b)
  | _, _ => true
  end.

(** What [JSON.stringify] followed by [JSON.parse] leaves of a storage
    item: its dates have become text and a promise an empty object. *)
Definition toJSON (item : SecureStorageItem) : SecureStorageItem :=
  let m := metadata item in
  {| id := id item;
     encryptedData := encryptedData item;
     metadata :=
       {| originalSize := originalSize m;
          encryptedSize := encryptedSize m;
          checksum := checksum_toJSON (checksum m);
          createdAt := Date_toJSON (createdAt m);
          expiresAt := Date_toJSON (expiresAt m);
          compressed := compressed m;
          keyId := keyId m |} |}.

(** JSON text of payloads and of storage items. *)
Class StorageCodec := {
  Payload : Type;
  JSON_stringify : Payload -> string;
  JSON_parse : string -> Result Payload;
  JSON_stringify_item : SecureStorageItem -> string;
  JSON_parse_item : string -> Result SecureStorageItem
}.

Section Storage.
Context `{Platform} `{StorageCodec}.
Variable window : Window.

(** The browser's [localStorage] and the random source. *)
Record State := {
  localStorage : list (string * string);
  rng : Rng
}.

Definition storageKey : string := "zenithbill_secure_storage".

Definition fullKey (key : string) : string := storageKey ++ "_" ++ key.

(** [/^[a-zA-Z0-9_-]+$/] *)
Definition key_char (c : ascii) : bool :=
  is_lower c || is_upper c || is_digit c
  || Ascii.eqb c "_" || Ascii.eqb c "-".

Definition validateKey (key : string) : Result unit :=
  if negb (truthy key) || blank key then
    Err "Invalid key: must be a non-empty string"
  else if Nat.ltb 100 (js_length key) then
    Err "Key too long: maximum 100 characters"
  else if negb (every_char key_char key) then
    Err "Key contains invalid characters: only alphanumeric, underscore, and dash allowed"
  else Ok tt.

Definition validatePassword (password : string) : Result unit :=
  if negb (truthy password) || Nat.ltb (js_length password) 8 then
    Err "Password must be at least 8 characters long"
  else Ok tt.

Definition compressData (data : string) : Result string :=
  match btoa data with
  | Ok compressed => Ok compressed
  | Err _ => Err "Compression failed"
  end.

Definition decompressData (compressedData : string) : Result string :=
  match atob compressedData with
  | Ok decompressed => Ok decompressed
  | Err _ => Err "Decompression failed"
  end.

Definition saveToStorage (key : string) (storageItem : SecureStorageItem)
  (s : State) : State :=
  {| localStorage :=
       Map_set (fullKey key) (JSON_stringify_item storageItem) (localStorage s);
     rng := rng s |}.

(** The item is as [JSON.parse] made it. *)
Definition loadFromStorage (key : string) (s : State)
  : Result (option SecureStorageItem) :=
  match Map_get (fullKey key) (localStorage s) with
  | None => Ok None
  | Some stored =>
      if negb (truthy stored) then Ok None
      else match JSON_parse_item stored with
           | Ok item => Ok (Some (toJSON item))
           | Err _ => Err "Corrupted storage data"
           end
  end.

Definition is_true (b : option bool) : bool :=
  match b with Some true => true | _ => false end.

Definition store (key : string) (data : Payload) (password : string)
  (options : SecureStorageOptions) (now : Z) (s : State)
  : Result unit * State :=
  let prepared :=
    _ <- validateKey key ;;
    _ <- validatePassword password ;;
    let serializedData := JSON_stringify data in
    processedData <- (if is_true (compressionEnabled options)
                      then compressData serializedData
                      else Ok serializedData) ;;
    Ok (serializedData, processedData) in
  match prepared with
  | Err m => (Err ("Failed to store data securely: " ++ m), s)
  | Ok (serializedData, processedData) =>
      (* [generateSecureHash] is not awaited: [checksum] is the promise *)
      let checksum :=
        checksum_promise
          (CryptoEngine.generateSecureHash window serializedData "sha256") in
      match CryptoEngine.encryptText window DEFAULT_CONFIG
              (JsStr processedData) password (rng s) with
      | (Err m, g) =>
          (Err ("Failed to store data securely: " ++ m),
           {| localStorage := localStorage s; rng := g |})
      | (Ok encryptionResult, g) =>
          let storageItem :=
            {| id := key;
               encryptedData := encryptionResult;
               metadata :=
                 {| originalSize := js_length serializedData;
                    encryptedSize :=
                      js_length (CryptoTypes.encryptedData encryptionResult);
                    checksum := checksum;
                    createdAt := Some (DateObject now);
                    expiresAt :=
                      match expirationTime options with
                      | Some t =>
                          if (t =? 0)%Z then None
                          else Some (new_Date (now + t))
                      | None => None
                      end;
                    compressed := is_true (compressionEnabled options);
                    keyId := opt_keyId options |} |} in
          (Ok tt,
           saveToStorage key storageItem
             {| localStorage := localStorage s; rng := g |})
      end
  end.

Definition remove (key : string) (s : State) : Result unit * State :=
  match validateKey key with
  | Err m => (Err ("Failed to remove data: " ++ m), s)
  | Ok _ =>
      (Ok tt,
       {| localStorage := Map_delete (fullKey key) (localStorage s);
          rng := rng s |})
  end.

(** [metadata.expiresAt && metadata.expiresAt < new Date()] *)
Definition expired (m : ItemMetadata) (now : Z) : bool :=
  before_now (expiresAt m) now.

(** What [retrieve] does with a loaded item that has not expired. *)
Definition open_item (storageItem : SecureStorageItem) (password : string)
  : Result Payload :=
  decryptedData <- CryptoEngine.decryptText window DEFAULT_CONFIG
                     (encryptedData storageItem) password ;;
  processedData <- (if compressed (metadata storageItem)
                    then decompressData decryptedData
                    else Ok decryptedData) ;;
  (* [generateSecureHash] is not awaited here either *)
  let calculatedChecksum :=
    checksum_promise
      (CryptoEngine.generateSecureHash window processedData "sha256") in
  if strict_neq calculatedChecksum (checksum (metadata storageItem)) then
    Err "Data integrity check failed"
  else JSON_parse processedData.

Definition retrieve (key password : string) (now : Z) (s : State)
  : Result Payload * State :=
  let loaded :=
    _ <- validateKey key ;;
    _ <- validatePassword password ;;
    loadFromStorage key s in
  match loaded with
  | Err m => (Err ("Failed to retrieve data securely: " ++ m), s)
  | Ok None => (Err "Failed to retrieve data securely: Data not found", s)
  | Ok (Some storageItem) =>
      if expired (metadata storageItem) now then
        match remove key s with
        | (Err m, s') => (Err ("Failed to retrieve data securely: " ++ m), s')
        | (Ok _, s') =>
            (Err "Failed to retrieve data securely: Data has expired", s')
        end
      else
        (rethrow "Failed to retrieve data securely: "
           (open_item storageItem password), s)
  end.

(** [exists(key)]: the [try] block, and the [catch] that answers [false]. *)
Definition exists_try (key : string) (s : State) : Result bool :=
  _ <- validateKey key ;;
  Ok (Map_has (fullKey key) (localStorage s)).

Definition exists_ (key : string) (s : State) : bool :=
  match exists_try key s with
  | Ok found => found
  | Err _ => false
  end.

Definition listKeys (s : State) : list string :=
  let prefix := storageKey ++ "_" in
  flat_map (fun key =>
              if truthy key && startsWith key prefix
              then [substring_from (String.length prefix) key]
              else [])
           (map fst (localStorage s)).




End Storage.
(** [exportData] and [importData]. *)
Record StorageExport := {
  version : string;
  exportedAt : Z;
  items : list (string * SecureStorageItem)
}.

Record ParsedStorageExport := {
  parsed_version : option string;
  parsed_items : option (list (string * SecureStorageItem))
}.

Class TransferCodec := {
  JSON_stringify_export : StorageExport -> string;
  JSON_parse_export : string -> Result ParsedStorageExport
}.

Section Transfer.
Context `{Platform} `{StorageCodec} `{TransferCodec}.

(** The loop of [exportData]: [exportData.items[key] = storageItem]. *)
Fixpoint export_each (keys : list string) (s : State)
  (collected : list (string * SecureStorageItem))
  : Result (list (string * SecureStorageItem)) :=
  match keys with
  | [] => Ok collected
  | key :: rest =>
      match loadFromStorage key s with
      | Err m => Err m
      | Ok (Some storageItem) =>
          export_each rest s (Map_set key storageItem collected)
      | Ok None => export_each rest s collected
      end
  end.

Definition exportData (now : Z) (s : State) : Result string :=
  rethrow "Failed to export data: "
    (collected <- export_each (listKeys s) s [] ;;
     Ok (JSON_stringify_export
           {| version := "1.0"; exportedAt := now; items := collected |})).

(** The loop of [importData] over [Object.entries(data.items)]. *)
Fixpoint import_each (entries : list (string * SecureStorageItem)) (s : State)
  : State :=
  match entries with
  | [] => s
  | (key, storageItem) :: rest =>
      if negb (exists_ key s)
      then import_each rest (saveToStorage key storageItem s)
      else import_each rest s
  end.

Definition importData (exportData : string) (s : State)
  : Result unit * State :=
  match JSON_parse_export exportData with
  | Err m => (Err ("Failed to import data: " ++ m), s)
  | Ok data =>
      match parsed_version data, parsed_items data with
      | Some v, Some entries =>
          if truthy v then (Ok tt, import_each entries s)
          else (Err "Failed to import data: Invalid export format", s)
      | _, _ => (Err "Failed to import data: Invalid export format", s)
      end
  end.

End Transfer.
End SecureStorage.

(* ================================================================== *)
(** * The security logger of cryptoEngine.ts *)
(* ================================================================== *)

Module SecurityLogger.

Inductive Status := success | error | warning | failure.

Inductive Detail :=
| DString (s : string)
| DNumber (n : Z)
| DStrings (l : list string).

Record LogEntry := {
  timestamp : Z;
  event : string;
  status : Status;
  details : list (string * Detail);
  sessionId : string
}.

Record Logger := {
  logs : list LogEntry;
  session : string
}.

Definition logEvent (now : Z) (event : string) (status : Status)
  (details : list (string * Detail)) (l : Logger) : Logger :=
  let logEntry :=
    {| timestamp := now; event := event; status := status;
       details := details; sessionId := session l |} in
  let pushed := (logs l ++ [logEntry])%list in
  {| logs := if Nat.ltb 1000 (List.length pushed)
             then skipn (List.length pushed - 1000) pushed
             else pushed;
     session := session l |}.

Definition status_name (s : Status) : string :=
  match s with
  | success => "success"
  | error => "error"
  | warning => "warning"
  | failure => "failure"
  end.

(** The argument of [getLogs]: [{ event?: string; status?: string;
    since?: Date }]. *)
Record Filter := {
  by_event : option string;
  by_status : option string;
  since : option Z
}.

(** [if (filter.field) logs = logs.filter(...)]: an absent or empty string
    does not filter. *)
Definition filter_by_text (wanted : option string) (field : LogEntry -> string)
  (l : list LogEntry) : list LogEntry :=
  match wanted with
  | Some w => if truthy w then filter (fun log => field log =? w) l else l
  | None => l
  end.

Definition filter_since (wanted : option Z) (l : list LogEntry)
  : list LogEntry :=
  match wanted with
  | Some d => filter (fun log => (d <=? timestamp log)%Z) l
  | None => l
  end.

Definition getLogs (filter : option Filter) (l : Logger) : list LogEntry :=
  match filter with
  | Some f =>
      filter_since (since f)
        (filter_by_text (by_status f) (fun log => status_name (status log))
           (filter_by_text (by_event f) event (logs l)))
  | None => logs l
  end.

Definition clearLogs (now : Z) (l : Logger) : Logger :=
  logEvent now "LOGS_CLEARED" success []
    {| logs := []; session := session l |}.

End SecurityLogger.

(* ================================================================== *)
(** * src/utils/encryption/fileEncryption.ts *)
(* ================================================================== *)

Module FileEncryption.
Import SecurityLogger.

(** A browser [File]: [text] is what [FileReader.readAsText] delivers, or
    [None] when reading fails. *)
Record File := {
  name : string;
  size : Z;
  type : string;
  text : option string
}.

Record FileMetadata := {
  originalName : string;
  originalSize : Z;
  encryptedSize : nat;
  mimeType : string;
  checksum : string
}.

Record FileEncryptionResult := {
  encryptedContent : string;
  metadata : FileMetadata;
  encryption : EncryptionResult
}.

Section Service.
Context `{Platform}.
Variable window : Window.

Record State := {
  securityLogger : Logger;
  rng : Rng
}.

Definition dangerousTypes : list string :=
  ["application/x-executable"; "application/x-msdownload";
   "application/x-msdos-program"].

Definition validateFile (file : File) : Result unit :=
  let maxSize := (50 * 1024 * 1024)%Z in
  if (maxSize <? size file)%Z then
    Err "File size exceeds maximum limit of 50MB"
  else if existsb (String.eqb (type file)) dangerousTypes then
    Err "File type not allowed for security reasons"
  else Ok tt.

Definition validatePassword (password : string) : Result unit :=
  if negb (truthy password) || Nat.ltb (js_length password) 8 then
    Err "Password must be at least 8 characters long"
  else Ok tt.

Definition readFileAsText (file : File) : Result string :=
  match text file with
  | Some content => Ok content
  | None => Err "Failed to read file"
  end.

(** The body of [encryptFile]'s [try] block. *)
Definition encryptFile_body (file : File) (password : string) (g : Rng)
  : Result FileEncryptionResult * Rng :=
  let checked :=
    _ <- validateFile file ;;
    _ <- validatePassword password ;;
    fileContent <- readFileAsText file ;;
    checksum <- CryptoEngine.generateSecureHash window fileContent "sha256" ;;
    Ok (fileContent, checksum) in
  match checked with
  | Err m => (Err m, g)
  | Ok (fileContent, checksum) =>
      match CryptoEngine.encryptText window DEFAULT_CONFIG (JsStr fileContent)
              password g with
      | (Err m, g') => (Err m, g')
      | (Ok encryptionResult, g') =>
          (Ok {| encryptedContent := encryptedData encryptionResult;
                 metadata :=
                   {| originalName := name file;
                      originalSize := size file;
                      encryptedSize :=
                        js_length (encryptedData encryptionResult);
                      mimeType := type file;
                      checksum := checksum |};
                 encryption := encryptionResult |}, g')
      end
  end.

Definition encryptFile (file : File) (password : string) (now : Z) (s : State)
  : Result FileEncryptionResult * State :=
  match encryptFile_body file password (rng s) with
  | (Ok result, g) =>
      (Ok result,
       {| securityLogger :=
            logEvent now "FILE_ENCRYPTION" success
              [("fileName", DString (name file));
               ("fileSize", DNumber (size file));
               ("mimeType", DString (type file))] (securityLogger s);
          rng := g |})
  | (Err m, g) =>
      (Err ("File encryption failed: " ++ m),
       {| securityLogger :=
            logEvent now "FILE_ENCRYPTION" error
              [("fileName", DString (name file)); ("error", DString m)]
              (securityLogger s);
          rng := g |})
  end.

(** The [for] loop of [encryptMultipleFiles], from index [i] on. *)
Fixpoint encrypt_each (files : list File) (password : string) (now : Z)
  (results : list FileEncryptionResult) (errors : list string) (s : State)
  : list FileEncryptionResult * list string * State :=
  match files with
  | [] => (results, errors, s)
  | file :: rest =>
      match encryptFile file password now s with
      | (Ok result, s') =>
          encrypt_each rest password now (results ++ [result])%list errors s'
      | (Err m, s') =>
          encrypt_each rest password now results
            (errors ++ [(name file ++ ": " ++ m)%string])%list s'
      end
  end.

Definition encryptMultipleFiles (files : list File) (password : string)
  (now : Z) (s : State) : list FileEncryptionResult * State :=
  match encrypt_each files password now [] [] s with
  | (results, errors, s') =>
      let total := Z.of_nat (List.length files) in
      let ok := Z.of_nat (List.length results) in
      let entry :=
        if Nat.ltb 0 (List.length errors) then
          logEvent now "BATCH_FILE_ENCRYPTION" warning
            [("totalFiles", DNumber total);
             ("successCount", DNumber ok);
             ("errorCount", DNumber (Z.of_nat (List.length errors)));
             ("errors", DStrings errors)]
        else
          logEvent now "BATCH_FILE_ENCRYPTION" success
            [("totalFiles", DNumber total); ("successCount", DNumber ok)] in
      (results, {| securityLogger := entry (securityLogger s'); rng := rng s' |})
  end.

(** A [Blob] made of one string: its text and its [type]. *)
Record Blob := {
  blob_text : string;
  blob_type : string
}.

(** The body of [decryptFile]'s [try] block. *)
Definition decryptFile_body (fileEncryptionResult : FileEncryptionResult)
  (password : string) : Result Blob :=
  _ <- validatePassword password ;;
  decryptedContent <- CryptoEngine.decryptText window DEFAULT_CONFIG
                        (encryption fileEncryptionResult) password ;;
  calculatedChecksum <- CryptoEngine.generateSecureHash window
                          decryptedContent "sha256" ;;
  if negb (calculatedChecksum =? checksum (metadata fileEncryptionResult)) then
    Err "File integrity check failed - file may be corrupted"
  else
    Ok {| blob_text := decryptedContent;
          blob_type := mimeType (metadata fileEncryptionResult) |}.

Definition decryptFile (fileEncryptionResult : FileEncryptionResult)
  (password : string) (now : Z) (s : State) : Result Blob * State :=
  match decryptFile_body fileEncryptionResult password with
  | Ok blob =>
      (Ok blob,
       {| securityLogger :=
            logEvent now "FILE_DECRYPTION" success
              [("fileName",
                DString (originalName (metadata fileEncryptionResult)));
               ("originalSize",
                DNumber (originalSize (metadata fileEncryptionResult)))]
              (securityLogger s);
          rng := rng s |})
  | Err m =>
      (Err ("File decryption failed: " ++ m),
       {| securityLogger :=
            logEvent now "FILE_DECRYPTION" error
              [("fileName",
                DString (originalName (metadata fileEncryptionResult)));
               ("error", DString m)]
              (securityLogger s);
          rng := rng s |})
  end.

(** [getEncryptionStats] and [getDecryptionStats] *)
Definition getEncryptionStats (s : State) : list LogEntry :=
  getLogs (Some {| by_event := Some "FILE_ENCRYPTION"; by_status := None;
                   since := None |}) (securityLogger s).

Definition getDecryptionStats (s : State) : list LogEntry :=
  getLogs (Some {| by_event := Some "FILE_DECRYPTION"; by_status := None;
                   since := None |}) (securityLogger s).

End Service.

(** [createEncryptedBackup] and [restoreFromEncryptedBackup]: the data are
    written with [JSON.stringify(data, null, 2)] and read with [JSON.parse]. *)
Class BackupCodec := {
  BackupData : Type;
  JSON_stringify_pretty : BackupData -> string;
  JSON_parse : string -> Result BackupData
}.

Section Backup.
Context `{Platform} `{BackupCodec}.
Variable window : Window.

(** [new File([new Blob([jsonData])], filename, {type: 'application/json'})] *)
Definition backup_file (jsonData filename : string) : File :=
  {| name := filename;
     size := Z.of_nat (String.length jsonData);
     type := "application/json";
     text := Some jsonData |}.

Definition createEncryptedBackup (data : BackupData) (password : string)
  (filename : string) (now : Z) (s : State)
  : Result FileEncryptionResult * State :=
  let jsonData := JSON_stringify_pretty data in
  match encryptFile window (backup_file jsonData filename) password now s with
  | (Ok result, s') => (Ok result, s')
  | (Err m, s') =>
      (Err ("Backup creation failed: " ++ m),
       {| securityLogger :=
            logEvent now "BACKUP_CREATION" error
              [("filename", DString filename); ("error", DString m)]
              (securityLogger s');
          rng := rng s' |})
  end.

Definition restoreFromEncryptedBackup
  (fileEncryptionResult : FileEncryptionResult) (password : string) (now : Z)
  (s : State) : Result BackupData * State :=
  let (decrypted, s1) := decryptFile window fileEncryptionResult password now s in
  match (blob <- decrypted ;; JSON_parse (blob_text blob)) with
  | Ok data =>
      (Ok data,
       {| securityLogger :=
            logEvent now "BACKUP_RESTORATION" success
              [("filename",
                DString (originalName (metadata fileEncryptionResult)))]
              (securityLogger s1);
          rng := rng s1 |})
  | Err m =>
      (Err ("Backup restoration failed: " ++ m),
       {| securityLogger :=
            logEvent now "BACKUP_RESTORATION" error
              [("filename",
                DString (originalName (metadata fileEncryptionResult)));
               ("error", DString m)]
              (securityLogger s1);
          rng := rng s1 |})
  end.

End Backup.
End FileEncryption.

(* ================================================================== *)
(** * A small platform on which the model runs *)
(* ================================================================== *)

(** An instance of [Platform] simple enough to compute with: the random
    source is a counter, the derived key is the password followed by the
    salt, and the cipher leaves the text as it is and authenticates with the
    key. It offers no secrecy and serves to evaluate the model on examples. *)
Module Toy.

Definition randomBytes (n : nat) (g : nat) : Buffer * nat :=
  (repeat (byte_of_N (N.of_nat g mod 256)) n, S g).

Definition random_base36 (g : nat) : string * nat :=
  ("r" ++ Z_toString (Z.of_nat g), S g).

Definition scrypt (password : string) (salt : Buffer) (n : nat) : Buffer :=
  (utf8_encode password ++ salt)%list.

Definition cipher_run (alg : Algorithm) (key v plain : Buffer)
  : Buffer * Buffer :=
  (plain, x01 :: key).

Definition auth_error : string :=
  "Unsupported state or unable to authenticate data".

Definition decipher_run (alg : Algorithm) (key v : Buffer)
  (authTag : option Buffer) (sealed : Buffer) : Result Buffer :=
  match alg, authTag with
  | Aes256Gcm, Some t =>
      if bytes_eqb t (x01 :: key) then Ok sealed else Err auth_error
  | Aes256Gcm, None => Err auth_error
  | Aes256Cbc, _ => Ok sealed
  end.

Definition createHash_hex (alg data : string) : Result string :=
  if alg =? "sha256" then Ok (toString_hex (utf8_encode data))
  else Err "Digest method not supported".

Definition rsa_generateKeyPair (keySize : JsNumber) (g : nat)
  : KeyPairGeneration * nat :=
  match keySize with
  | Num bits =>
      if (bits <? 0)%Z then (Thrown "modulusLength is out of range.", g)
      else if (bits <? 512)%Z then (CallbackError, g)
      else
        (Generated
           {| CryptoTypes.publicKey := "PUBLIC-" ++ Z_toString (Z.of_nat g);
              privateKey := "PRIVATE-" ++ Z_toString (Z.of_nat g) |}, S g)
  | NaN => (Thrown "modulusLength is out of range. It must be an integer.", g)
  end.

(** Four comma-separated fields; an absent tag is the empty field. *)
Definition JSON_stringify_result (r : EncryptionResult) : string :=
  encryptedData r ++ "," ++ iv r ++ "," ++ salt r ++ ","
  ++ match tag r with Some t => t | None => EmptyString end.

Definition JSON_parse_result (text : string) : Result EncryptionResult :=
  match split "," text with
  | [e; v; s; t] =>
      Ok {| encryptedData := e; iv := v; salt := s;
            tag := if truthy t then Some t else None |}
  | _ => Err "Unexpected token in JSON"
  end.

Definition btoa (s : string) : Result string := Ok ("b64:" ++ s).

Definition atob (s : string) : Result string :=
  match s with
  | String "b" (String "6" (String "4" (String ":" rest))) => Ok rest
  | _ => Err "The string to be decoded is not correctly encoded."
  end.

Definition platform : Platform :=
  Build_Platform randomBytes random_base36 scrypt cipher_run decipher_run
    createHash_hex rsa_generateKeyPair JSON_stringify_result JSON_parse_result
    btoa atob.

(** Key exports: the toy text carries no keys. *)
Definition export_codec : KeyManager.ExportCodec :=
  {| KeyManager.JSON_stringify_export :=
       fun data =>
         "{version:" ++ KeyManager.version data ++ ",keys:"
         ++ Z_toString (Z.of_nat (List.length (KeyManager.export_keys data)))
         ++ "}";
     KeyManager.JSON_parse_export :=
       fun text =>
         if text =? "{}" then
           Ok {| KeyManager.parsed_version := None;
                 KeyManager.parsed_keys := None |}
         else Err "Unexpected token in JSON" |}.

(** Storage items: twelve comma-separated fields. The payloads are JSON
    documents given as text. *)
Definition checksum_text (c : SecureStorage.ChecksumField) : string :=
  match SecureStorage.checksum_toJSON c with
  | SecureStorage.checksum_string s => "s" ++ s
  | _ => "{}"
  end.

Definition checksum_of_text (t : string) : SecureStorage.ChecksumField :=
  match t with
  | String "s" rest => SecureStorage.checksum_string rest
  | _ => SecureStorage.checksum_object
  end.

Definition text_of_option (o : option string) : string :=
  match o with Some t => t | None => EmptyString end.

Definition option_of_text (t : string) : option string :=
  if truthy t then Some t else None.

Definition number_of_text (t : string) : Z :=
  match parseInt (Some t) with Num z => z | NaN => 0%Z end.

(** A date is written by its time value and read back as text. *)
Definition date_text (d : option DateField) : string :=
  match Date_toJSON d with
  | Some (IsoString time) => Z_toString time
  | _ => EmptyString
  end.

Definition date_of_text (t : string) : option DateField :=
  option_map (fun time => IsoString (number_of_text time)) (option_of_text t).

Definition JSON_stringify_item (item : SecureStorage.SecureStorageItem)
  : string :=
  let m := SecureStorage.metadata item in
  let e := SecureStorage.encryptedData item in
  String.concat ","
    [SecureStorage.id item;
     CryptoTypes.encryptedData e; iv e; salt e; text_of_option (tag e);
     Z_toString (Z.of_nat (SecureStorage.originalSize m));
     Z_toString (Z.of_nat (SecureStorage.encryptedSize m));
     checksum_text (SecureStorage.checksum m);
     date_text (SecureStorage.createdAt m);
     date_text (SecureStorage.expiresAt m);
     if SecureStorage.compressed m then "true" else "false";
     text_of_option (SecureStorage.keyId m)].

Definition JSON_parse_item (text : string)
  : Result SecureStorage.SecureStorageItem :=
  match split "," text with
  | [i; e; v; s; t; osz; esz; ck; cr; ex; co; k] =>
      Ok {| SecureStorage.id := i;
            SecureStorage.encryptedData :=
              {| CryptoTypes.encryptedData := e; iv := v; salt := s;
                 tag := option_of_text t |};
            SecureStorage.metadata :=
              {| SecureStorage.originalSize := Z.to_nat (number_of_text osz);
                 SecureStorage.encryptedSize := Z.to_nat (number_of_text esz);
                 SecureStorage.checksum := checksum_of_text ck;
                 SecureStorage.createdAt := date_of_text cr;
                 SecureStorage.expiresAt := date_of_text ex;
                 SecureStorage.compressed := co =? "true";
                 SecureStorage.keyId := option_of_text k |} |}
  | _ => Err "Unexpected token in JSON"
  end.

Definition storage_codec : SecureStorage.StorageCodec :=
  {| SecureStorage.Payload := string;
     SecureStorage.JSON_stringify := fun d => d;
     SecureStorage.JSON_parse := fun t => Ok t;
     SecureStorage.JSON_stringify_item := JSON_stringify_item;
     SecureStorage.JSON_parse_item := JSON_parse_item |}.

(** An Electron renderer. *)
Definition window : Window :=
  {| electronAPI := true; getRandomValues := true; subtle := true |}.

(** Storage exports: the version, then one [key=item] field per item,
    separated by semicolons. Backups are JSON documents given as text. *)
Definition entry_text (entry : string * SecureStorage.SecureStorageItem)
  : string :=
  fst entry ++ "=" ++ JSON_stringify_item (snd entry).

Fixpoint entries_of_texts (texts : list string)
  : Result (list (string * SecureStorage.SecureStorageItem)) :=
  match texts with
  | [] => Ok []
  | t :: rest =>
      match split "=" t with
      | [key; itemText] =>
          item <- JSON_parse_item itemText ;;
          others <- entries_of_texts rest ;;
          Ok ((key, item) :: others)
      | _ => Err "Unexpected token in JSON"
      end
  end.

Definition transfer_codec : SecureStorage.TransferCodec :=
  {| SecureStorage.JSON_stringify_export :=
       fun data =>
         String.concat ";"
           (SecureStorage.version data
            :: map entry_text (SecureStorage.items data));
     SecureStorage.JSON_parse_export :=
       fun text =>
         match split ";" text with
         | v :: texts =>
             entries <- entries_of_texts texts ;;
             Ok {| SecureStorage.parsed_version := option_of_text v;
                   SecureStorage.parsed_items := Some entries |}
         | [] => Err "Unexpected end of JSON input"
         end |}.

(** Key exports that carry the keys: the version, then one field per key
    with its components separated by bars. *)
Definition key_text (k : KeyManager.StoredKey) : string :=
  String.concat "|"
    [KeyManager.id k; KeyManager.name k;
     match KeyManager.type k with
     | KeyManager.symmetric => "symmetric"
     | KeyManager.asymmetric => "asymmetric"
     end;
     KeyManager.algorithm k; KeyManager.keyData k;
     text_of_option (KeyManager.publicKey k);
     date_text (KeyManager.createdAt k);
     date_text (KeyManager.expiresAt k);
     KeyManager.purpose (KeyManager.metadata k);
     KeyManager.owner (KeyManager.metadata k);
     String.concat "+" (KeyManager.permissions (KeyManager.metadata k))].

Definition key_of_text (t : string) : Result KeyManager.StoredKey :=
  match split "|" t with
  | [i; n; ty; alg; kd; pub; cr; ex; pu; ow; perms] =>
      Ok {| KeyManager.id := i; KeyManager.name := n;
            KeyManager.type :=
              if ty =? "symmetric" then KeyManager.symmetric
              else KeyManager.asymmetric;
            KeyManager.algorithm := alg; KeyManager.keyData := kd;
            KeyManager.publicKey := option_of_text pub;
            KeyManager.createdAt := date_of_text cr;
            KeyManager.expiresAt := date_of_text ex;
            KeyManager.metadata :=
              {| KeyManager.purpose := pu; KeyManager.owner := ow;
                 KeyManager.permissions := split "+" perms |} |}
  | _ => Err "Unexpected token in JSON"
  end.

Fixpoint keys_of_texts (texts : list string)
  : Result (list KeyManager.StoredKey) :=
  match texts with
  | [] => Ok []
  | t :: rest =>
      k <- key_of_text t ;;
      others <- keys_of_texts rest ;;
      Ok (k :: others)
  end.

Definition key_export_codec : KeyManager.ExportCodec :=
  {| KeyManager.JSON_stringify_export :=
       fun data =>
         String.concat ";"
           (KeyManager.version data
            :: map key_text (KeyManager.export_keys data));
     KeyManager.JSON_parse_export :=
       fun text =>
         match split ";" text with
         | v :: texts =>
             ks <- keys_of_texts texts ;;
             Ok {| KeyManager.parsed_version := option_of_text v;
                   KeyManager.parsed_keys := Some ks |}
         | [] => Err "Unexpected end of JSON input"
         end |}.

Definition backup_codec : FileEncryption.BackupCodec :=
  {| FileEncryption.BackupData := string;
     FileEncryption.JSON_stringify_pretty := fun d => d;
     FileEncryption.JSON_parse := fun t => Ok t |}.

End Toy.

(* ================================================================== *)
(** * Example runs *)
(* ================================================================== *)

Module Examples.

Definition t0 : Z := 1700000000000.
Definition HOUR_MS : Z := 3600000.

(** A key manager over an empty index, initialised, holding one RSA key
    that expires a day after [t0]. *)
Definition fresh_manager : KeyManager.State :=
  @KeyManager.constructor Toy.platform None 0%nat.

Definition unlocked : KeyManager.State :=
  snd (@KeyManager.initialize Toy.platform Toy.window "Str0ng!Pass1234"
         fresh_manager).

Definition with_signing_key : KeyManager.State :=
  snd (@KeyManager.generateAsymmetricKeyPair Toy.platform Toy.window
         "signing" "invoices" "alice" (Num 2048) (Some 1%Z) t0 unlocked).

Definition signing_key_id : string := "key_1700000000000_r0".

(** The index as that manager persisted it, and the application restarted:
    a new key manager over the persisted index. *)
Definition persisted_index : list (string * KeyManager.StoredKey) :=
  match KeyManager.localStorage with_signing_key with
  | Some entries => entries
  | None => []
  end.

Definition reopened : KeyManager.State :=
  @KeyManager.constructor Toy.platform (Some persisted_index) 7%nat.

(** A password of four characters that takes eight bytes as UTF-8: four
    times the letter a with diaeresis, U+00E4. *)
Definition a_diaeresis : string :=
  String (ascii_of_nat 195) (String (ascii_of_nat 164) EmptyString).

Definition four_umlauts : string :=
  a_diaeresis ++ a_diaeresis ++ a_diaeresis ++ a_diaeresis.

(** An empty secure storage, and [store] called without options. *)
Definition empty_storage : SecureStorage.State :=
  @SecureStorage.Build_State Toy.platform [] 0%nat.

Definition no_options : SecureStorage.SecureStorageOptions :=
  {| SecureStorage.opt_keyId := None;
     SecureStorage.expirationTime := None;
     SecureStorage.compressionEnabled := None;
     SecureStorage.integrityCheck := None |}.

(** A file-encryption service with an empty log, and three files: the
    second is empty and the third cannot be read. *)
Definition service : FileEncryption.State :=
  @FileEncryption.Build_State Toy.platform
    {| SecurityLogger.logs := []; SecurityLogger.session := "session-1" |}
    0%nat.

Definition report : FileEncryption.File :=
  {| FileEncryption.name := "report.txt"; FileEncryption.size := 5;
     FileEncryption.type := "text/plain";
     FileEncryption.text := Some "hello" |}.

Definition empty_file : FileEncryption.File :=
  {| FileEncryption.name := "empty.txt"; FileEncryption.size := 0;
     FileEncryption.type := "text/plain";
     FileEncryption.text := Some EmptyString |}.

Definition unreadable : FileEncryption.File :=
  {| FileEncryption.name := "locked.txt"; FileEncryption.size := 9;
     FileEncryption.type := "text/plain";
     FileEncryption.text := None |}.

(** The text [exportKeys] gives for the manager with the signing key. *)
Definition exported_keys : string :=
  match @KeyManager.exportKeys Toy.platform Toy.key_export_codec
          (t0 + HOUR_MS) with_signing_key with
  | Ok text => text
  | Err _ => EmptyString
  end.

(** A secure storage holding one item, stored at [t0] to expire after an
    hour, and the text [exportData] gives for it. *)
Definition hour_options : SecureStorage.SecureStorageOptions :=
  {| SecureStorage.opt_keyId := None;
     SecureStorage.expirationTime := Some HOUR_MS;
     SecureStorage.compressionEnabled := None;
     SecureStorage.integrityCheck := None |}.

Definition stored_backup : SecureStorage.State :=
  snd (@SecureStorage.store Toy.platform Toy.storage_codec Toy.window
         "backup_2024" "{a:1}" "password123" hour_options t0 empty_storage).

Definition exported_storage : string :=
  match @SecureStorage.exportData Toy.platform Toy.storage_codec
          Toy.transfer_codec t0 stored_backup with
  | Ok text => text
  | Err _ => EmptyString
  end.

(** The result of encrypting [report], and the same with another checksum
    written into its metadata. *)
Definition encrypted_report : Result FileEncryption.FileEncryptionResult :=
  fst (@FileEncryption.encryptFile Toy.platform Toy.window report
         "password123" t0 service).

Definition with_checksum (c : string)
  (r : FileEncryption.FileEncryptionResult)
  : FileEncryption.FileEncryptionResult :=
  let m := FileEncryption.metadata r in
  {| FileEncryption.encryptedContent := FileEncryption.encryptedContent r;
     FileEncryption.metadata :=
       {| FileEncryption.originalName := FileEncryption.originalName m;
          FileEncryption.originalSize := FileEncryption.originalSize m;
          FileEncryption.encryptedSize := FileEncryption.encryptedSize m;
          FileEncryption.mimeType := FileEncryption.mimeType m;
          FileEncryption.checksum := c |};
     FileEncryption.encryption := FileEncryption.encryption r |}.

End Examples.

(* ================================================================== *)
(** * Properties *)
(* ================================================================== *)

Lemma hex_of_byte_decode (b : byte) (rest : string) :
  Buffer_from_hex (hex_of_byte b ++ rest) = b :: Buffer_from_hex rest.
Proof.
  destruct b; reflexivity.
Qed.

Lemma Buffer_from_toString_hex (buf : Buffer) :
  Buffer_from_hex (toString_hex buf) = buf.
Proof.
  induction buf as [|b rest IH]; [reflexivity|].
  cbn [toString_hex]. rewrite hex_of_byte_decode. now rewrite IH.
Qed.

Lemma truthy_true (s : string) : s <> EmptyString -> truthy s = true.
Proof.
  destruct s; [congruence | reflexivity].
Qed.

Lemma toString_hex_nonempty (buf : Buffer) :
  buf <> [] -> toString_hex buf <> EmptyString.
Proof.
  destruct buf as [|b rest]; [congruence|]. intros _. discriminate.
Qed.

Lemma utf8_encode_nonempty (s : string) :
  s <> EmptyString -> utf8_encode s <> [].
Proof.
  destruct s; [congruence|]. intros _. discriminate.
Qed.

Lemma utf8_decode_encode (s : string) : utf8_decode (utf8_encode s) = s.
Proof.
  apply string_of_list_byte_of_string.
Qed.

Section EngineFacts.
Context `{PlatformLaws}.

(** Opening what the cipher sealed, as both engines and the IPC handlers do
    it: the hexadecimal fields are read back and the key is derived again. *)
Lemma open_sealed (config : EncryptionConfig) (password : string)
  (salt v plain : Buffer) :
  let key := scrypt password salt (keyLength config) in
  let sealed := cipher_run (algorithm config) key v plain in
  let r := {| encryptedData := toString_hex (fst sealed);
              iv := toString_hex v;
              salt := toString_hex salt;
              tag := match algorithm config with
                     | Aes256Gcm => Some (toString_hex (snd sealed))
                     | Aes256Cbc => None
                     end |} in
  decipher_run (algorithm config)
    (scrypt password (Buffer_from_hex (CryptoTypes.salt r)) (keyLength config))
    (Buffer_from_hex (iv r))
    (CryptoEngineNode.authTag_of config r)
    (Buffer_from_hex (encryptedData r)) = Ok plain.
Proof.
  intros key sealed r. subst r. cbn [CryptoTypes.salt iv encryptedData].
  rewrite !Buffer_from_toString_hex.
  unfold CryptoEngineNode.authTag_of. cbn [tag]. subst sealed key.
  destruct (algorithm config).
  - rewrite truthy_true
      by (apply toString_hex_nonempty, gcm_tag_nonempty).
    rewrite Buffer_from_toString_hex. apply gcm_open_seal.
  - apply cbc_open_seal.
Qed.

End EngineFacts.

(** C1. Round trip of the engine over Node's crypto module: for a non-empty
    plaintext and a non-empty password, [encryptText] returns an envelope, and
    [decryptText] of that envelope under the same password returns the
    plaintext. *)
Theorem decryptText_encryptText `{PlatformLaws} (config : EncryptionConfig)
  (plaintext password : string) (g : Rng) :
  plaintext <> EmptyString ->
  password <> EmptyString ->
  exists r g',
    CryptoEngineNode.encryptText config plaintext password g = (Ok r, g')
    /\ CryptoEngineNode.decryptText config r password = Ok plaintext.
Proof.
  intros Ht Hp.
  unfold CryptoEngineNode.encryptText, CryptoEngineNode.deriveKey.
  rewrite (truthy_true Ht), (truthy_true Hp). cbn [negb orb].
  destruct (randomBytes (saltLength config) g) as [salt g1].
  destruct (randomBytes (ivLength config) g1) as [v g2].
  pose proof (open_sealed config password salt v (utf8_encode plaintext)) as Hopen.
  pose proof (@cipher_nonempty _ _ (algorithm config)
                (scrypt password salt (keyLength config)) v
                (utf8_encode plaintext) (utf8_encode_nonempty Ht)) as Hne.
  cbv zeta in Hopen.
  destruct (cipher_run (algorithm config)
              (scrypt password salt (keyLength config)) v
              (utf8_encode plaintext)) as [encrypted authTag].
  cbn [fst snd] in Hopen, Hne.
  eexists; eexists; split; [reflexivity|].
  unfold CryptoEngineNode.decryptText, CryptoEngineNode.deriveKey.
  cbv zeta. rewrite Hopen. cbn [encryptedData].
  rewrite (truthy_true (toString_hex_nonempty Hne)), (truthy_true Hp).
  cbn [negb orb bind rethrow].
  now rewrite utf8_decode_encode.
Qed.

(* ------------------------------------------------------------------ *)
(** ** The small platform satisfies the laws *)

Lemma bytes_eqb_refl (b : Buffer) : bytes_eqb b b = true.
Proof.
  induction b as [|x rest IH]; [reflexivity|].
  cbn [bytes_eqb]. rewrite IH.
  now rewrite (Byte.byte_dec_lb (eq_refl x)).
Qed.

Lemma toy_laws : @PlatformLaws Toy.platform.
Proof.
  split.
  - intros key v plain. cbn. unfold Toy.decipher_run. cbn.
    now rewrite bytes_eqb_refl.
  - reflexivity.
  - intros alg key v plain Hne. exact Hne.
  - intros key v plain. cbn. discriminate.
Qed.

Lemma decryptText_encryptText_witness :
  exists r g',
    @CryptoEngineNode.encryptText Toy.platform DEFAULT_CONFIG
      "invoice 42" "password123" 0 = (Ok r, g')
    /\ @CryptoEngineNode.decryptText Toy.platform DEFAULT_CONFIG r
         "password123" = Ok "invoice 42".
Proof.
  apply (@decryptText_encryptText Toy.platform toy_laws DEFAULT_CONFIG
           "invoice 42" "password123" 0%nat); discriminate.
Defined.

(* ------------------------------------------------------------------ *)
(** ** Dates *)

(** A date that has been through JSON text compares as NaN. *)
Lemma Date_toJSON_NaN (d : option DateField) (e : DateField) :
  Date_toJSON d = Some e -> ToNumber e = NaN.
Proof.
  destruct d as [[t| |t]|]; cbn; intros E; inversion E; reflexivity.
Qed.

Lemma before_now_toJSON (d : option DateField) (now : Z) :
  before_now (Date_toJSON d) now = false.
Proof.
  destruct d as [[t| |t]|]; reflexivity.
Qed.

(* ------------------------------------------------------------------ *)
(** ** Secure storage: keys *)

(** No white-space character starts with a character of a key. *)
Lemma strip_space_key_char (c : ascii) (rest : string) :
  SecureStorage.key_char c = true -> strip_space (String c rest) = None.
Proof.
  destruct c as [[] [] [] [] [] [] [] []]; intros Hc;
    solve [discriminate Hc | reflexivity].
Qed.

Lemma blank_not_key (key : string) :
  key <> EmptyString -> blank key = true ->
  every_char SecureStorage.key_char key = false.
Proof.
  destruct key as [|c rest]; [congruence|]. intros _.
  unfold blank, skip_spaces. cbn [every_char String.length skip_spaces_within].
  destruct (SecureStorage.key_char c) eqn:Hc; [|reflexivity].
  rewrite (@strip_space_key_char c rest Hc). discriminate.
Qed.

(** The characters of a key are ASCII: each is one UTF-16 code unit. *)
Lemma key_char_unit (c : ascii) :
  SecureStorage.key_char c = true -> utf16_units c = 1.
Proof.
  destruct c as [[] [] [] [] [] [] [] []]; intros Hc;
    solve [discriminate Hc | reflexivity].
Qed.

Lemma key_chars_js_length (key : string) :
  every_char SecureStorage.key_char key = true ->
  js_length key = String.length key.
Proof.
  induction key as [|c rest IH]; [reflexivity|].
  cbn [every_char js_length String.length]. intros Hk.
  apply andb_true_iff in Hk as [Hc Hrest].
  now rewrite (@key_char_unit c Hc), (IH Hrest).
Qed.

(** [validateKey] accepts exactly the non-empty keys of at most 100
    characters, all of them alphanumeric, underscore or dash. *)
Lemma validateKey_ok (key : string) :
  SecureStorage.validateKey key = Ok tt <->
  key <> EmptyString
  /\ String.length key <= 100
  /\ every_char SecureStorage.key_char key = true.
Proof.
  unfold SecureStorage.validateKey.
  destruct key as [|c rest] eqn:Ek.
  - cbn. split; [discriminate | intros [Hne _]; congruence].
  - rewrite <- Ek. assert (Hne : key <> EmptyString) by (subst; discriminate).
    rewrite (truthy_true Hne). cbn [negb orb].
    destruct (blank key) eqn:Hb.
    + rewrite (blank_not_key Hne Hb). split; [discriminate|].
      intros [_ [_ Hc]]. discriminate.
    + destruct (every_char SecureStorage.key_char key) eqn:Hc.
      * rewrite (@key_chars_js_length key Hc).
        destruct (Nat.ltb 100 (String.length key)) eqn:Hlen.
        -- apply Nat.ltb_lt in Hlen. split; [discriminate|].
           intros [_ [Hl _]]. lia.
        -- apply Nat.ltb_ge in Hlen. cbn. split; auto.
      * destruct (Nat.ltb 100 (js_length key)); cbn;
          (split; [discriminate|]); intros [_ [_ Hc']]; discriminate.
Qed.

(** C10. [exists] never throws. For a key that fails validation (empty,
    longer than 100 characters, or with a character outside alphanumeric,
    underscore and dash) the error raised by [validateKey] is caught and the
    answer is [false]; for any other key the answer is whether
    [localStorage] holds an entry under the prefixed key. *)
Theorem exists_never_throws `{Platform} (key : string)
  (s : SecureStorage.State) :
  (forall m, SecureStorage.exists_try key s = Err m ->
             SecureStorage.exists_ key s = false)
  /\ (key = EmptyString \/ 100 < String.length key
      \/ every_char SecureStorage.key_char key = false ->
      SecureStorage.exists_ key s = false)
  /\ (key <> EmptyString -> String.length key <= 100 ->
      every_char SecureStorage.key_char key = true ->
      SecureStorage.exists_ key s =
        match Map_get (SecureStorage.fullKey key)
                (SecureStorage.localStorage s) with
        | Some _ => true
        | None => false
        end).
Proof.
  unfold SecureStorage.exists_, SecureStorage.exists_try.
  split; [|split].
  - intros m E. now rewrite E.
  - intros Hbad.
    destruct (SecureStorage.validateKey key) as [[]|m] eqn:Ev; [|reflexivity].
    apply validateKey_ok in Ev as [Hne [Hlen Hc]].
    destruct Hbad as [E | [Hl | Hc']]; [congruence | lia | congruence].
  - intros Hne Hlen Hc.
    rewrite (proj2 (validateKey_ok key) (conj Hne (conj Hlen Hc))).
    reflexivity.
Qed.

Lemma exists_never_throws_witness :
  @SecureStorage.exists_ Toy.platform "bad key!"
    (@SecureStorage.Build_State Toy.platform [] 0%nat) = false
  /\ @SecureStorage.exists_ Toy.platform "backup_2024"
       (@SecureStorage.Build_State Toy.platform
          [("zenithbill_secure_storage_backup_2024", "item")] 0%nat) = true.
Proof.
  split.
  - apply (proj1 (proj2 (@exists_never_throws Toy.platform "bad key!" _))).
    right; right. reflexivity.
  - rewrite (proj2 (proj2 (@exists_never_throws Toy.platform "backup_2024" _)));
      [reflexivity | discriminate | cbn; lia | reflexivity].
Defined.

(* ------------------------------------------------------------------ *)
(** ** Secure storage: store and retrieve *)

(** The checksum computed at retrieval is a promise that was just created,
    so the comparison with the stored checksum always reports a mismatch. *)
Lemma open_item_fails `{Platform} `{SecureStorage.StorageCodec}
  (window : Window) (item : SecureStorage.SecureStorageItem)
  (password : string) :
  exists m, SecureStorage.open_item window item password = Err m.
Proof.
  unfold SecureStorage.open_item.
  destruct (CryptoEngine.decryptText _ _ _ _) as [decrypted|m];
    [|now exists m].
  cbn [bind].
  destruct (if SecureStorage.compressed (SecureStorage.metadata item)
            then SecureStorage.decompressData decrypted
            else Ok decrypted) as [processed|m]; [|now exists m].
  cbn [bind SecureStorage.strict_neq]. eauto.
Qed.

(** C2 fails on the code: whatever was stored, under whatever key and
    password, [retrieve] never returns a payload. *)
Theorem retrieve_never_returns `{Platform} `{SecureStorage.StorageCodec}
  (window : Window) (key password : string) (now : Z)
  (s : SecureStorage.State) (d : SecureStorage.Payload) :
  fst (SecureStorage.retrieve window key password now s) <> Ok d.
Proof.
  unfold SecureStorage.retrieve.
  destruct (bind (SecureStorage.validateKey key) _) as [[item|]|m];
    cbn; try discriminate.
  destruct (SecureStorage.expired _ _).
  - destruct (SecureStorage.remove key s) as [[?|?] ?]; cbn; discriminate.
  - destruct (open_item_fails window item password) as [m E].
    rewrite E. cbn. discriminate.
Qed.

(** At the claimed scenario: [store("backup_2024", {a:1}, "password123")]
    succeeds, and [retrieve] with the same key and password then fails the
    integrity check. *)
Example store_then_retrieve_backup_2024 :
  let stored :=
    @SecureStorage.store Toy.platform Toy.storage_codec Toy.window
      "backup_2024" "{a:1}" "password123" Examples.no_options Examples.t0
      Examples.empty_storage in
  fst stored = Ok tt
  /\ fst (@SecureStorage.retrieve Toy.platform Toy.storage_codec Toy.window
            "backup_2024" "password123" (Examples.t0 + 500) (snd stored))
     = Err "Failed to retrieve data securely: Data integrity check failed".
Proof.
  vm_compute. split; reflexivity.
Qed.

(* ------------------------------------------------------------------ *)
(** ** The key index *)

Section MapFacts.
Variable V : Type.
Implicit Types (k : string) (v : V) (m : list (string * V)).

Lemma Map_get_set_same k v m : Map_get k (Map_set k v m) = Some v.
Proof.
  induction m as [|[k' v'] rest IH]; cbn.
  - now rewrite String.eqb_refl.
  - destruct (String.eqb_spec k' k) as [->|Hne]; cbn.
    + now rewrite String.eqb_refl.
    + apply String.eqb_neq in Hne. now rewrite Hne.
Qed.

Lemma Map_get_set_other k k' v m :
  k' <> k -> Map_get k' (Map_set k v m) = Map_get k' m.
Proof.
  intros Hne. assert (Hkk : (k =? k') = false) by (apply String.eqb_neq; congruence).
  induction m as [|[k1 v1] rest IH]; cbn.
  - now rewrite Hkk.
  - destruct (String.eqb_spec k1 k) as [->|Hne1]; cbn.
    + now rewrite Hkk.
    + now rewrite IH.
Qed.

Lemma Map_get_delete_same k m : Map_get k (Map_delete k m) = None.
Proof.
  induction m as [|[k' v'] rest IH]; cbn; [reflexivity|].
  destruct (k' =? k) eqn:E; [exact IH|]. cbn. now rewrite E.
Qed.

Lemma Map_get_delete_other k k' m :
  k' <> k -> Map_get k' (Map_delete k m) = Map_get k' m.
Proof.
  intros Hne. induction m as [|[k1 v1] rest IH]; cbn; [reflexivity|].
  destruct (String.eqb_spec k1 k) as [->|Hne1]; cbn.
  - rewrite IH. apply String.eqb_neq in Hne.
    now rewrite String.eqb_sym, Hne.
  - now rewrite IH.
Qed.

End MapFacts.

(* ------------------------------------------------------------------ *)
(** ** The bridged engine *)

(** What the bridged [encryptText] returns, the bridged [decryptText] opens
    under the same password. *)
Lemma CryptoEngine_decryptText_encryptText `{PlatformLaws} (window : Window)
  (config : EncryptionConfig) (plaintext password : string) (g g' : Rng)
  (r : EncryptionResult) :
  CryptoEngine.encryptText window config (JsStr plaintext) password g
    = (Ok r, g') ->
  CryptoEngine.decryptText window config r password = Ok plaintext.
Proof.
  unfold CryptoEngine.encryptText. cbn [js_truthy structuredClone].
  destruct (truthy plaintext) eqn:Ht; [|discriminate].
  destruct (truthy password) eqn:Hp; [|discriminate]. cbn [negb orb].
  destruct (electronAPI window) eqn:Hw; [|discriminate].
  unfold ElectronMain.handle_encryptText.
  destruct (randomBytes (saltLength config) g) as [salt g1].
  destruct (randomBytes (ivLength config) g1) as [v g2].
  pose proof (open_sealed config password salt v (utf8_encode plaintext)) as Hopen.
  assert (Hne : plaintext <> EmptyString) by (intros ->; discriminate).
  pose proof (@cipher_nonempty _ _ (algorithm config)
                (scrypt password salt (keyLength config)) v
                (utf8_encode plaintext) (utf8_encode_nonempty Hne)) as Hc.
  cbv zeta in Hopen.
  destruct (cipher_run (algorithm config)
              (scrypt password salt (keyLength config)) v
              (utf8_encode plaintext)) as [encrypted authTag].
  cbn [fst snd] in Hopen, Hc. cbn [invoke rethrow].
  intros E. inversion E; subst r g'. clear E.
  unfold CryptoEngine.decryptText, ElectronMain.handle_decryptText.
  cbv zeta. rewrite Hopen, Hw, Hp. cbn [encryptedData].
  rewrite (truthy_true (toString_hex_nonempty Hc)).
  cbn [negb orb bind rethrow invoke].
  now rewrite utf8_decode_encode.
Qed.

(* ------------------------------------------------------------------ *)
(** ** Key manager: initialisation state *)

Lemma ensureInitialized_ok `{Platform} (s : KeyManager.State) (p : string) :
  KeyManager.masterPassword s = Some p -> p <> EmptyString ->
  KeyManager.ensureInitialized s = Ok tt.
Proof.
  intros Hm Hp. unfold KeyManager.ensureInitialized.
  now rewrite Hm, (truthy_true Hp).
Qed.

Lemma ensureInitialized_none `{Platform} (s : KeyManager.State) :
  KeyManager.masterPassword s = None ->
  KeyManager.ensureInitialized s = Err KeyManager.NotInitialized.
Proof.
  intros Hm. unfold KeyManager.ensureInitialized. now rewrite Hm.
Qed.

Lemma validateMasterPassword_nonempty (password : string) :
  KeyManager.validateMasterPassword password = Ok tt ->
  password <> EmptyString.
Proof.
  intros Hv ->. discriminate.
Qed.

(** What [JSON.parse] gives for the persisted index, entry by entry. *)
Lemma Map_get_entries_toJSON (keyId : string)
  (entries : list (string * KeyManager.StoredKey)) :
  Map_get keyId (KeyManager.entries_toJSON entries)
    = option_map KeyManager.toJSON (Map_get keyId entries).
Proof.
  induction entries as [|[k v] rest IH]; [reflexivity|].
  cbn. destruct (k =? keyId); [reflexivity | exact IH].
Qed.

(** A key that came out of JSON text never counts as expired. *)
Lemma expired_toJSON (key : KeyManager.StoredKey) (now : Z) :
  KeyManager.expired (KeyManager.toJSON key) now = false.
Proof.
  unfold KeyManager.expired. cbn [KeyManager.toJSON KeyManager.expiresAt].
  apply before_now_toJSON.
Qed.

(** [initialize] never touches the index. *)
Lemma initialize_keeps_keys `{Platform} (window : Window) (password : string)
  (s : KeyManager.State) :
  KeyManager.keys (snd (KeyManager.initialize window password s))
    = KeyManager.keys s.
Proof.
  unfold KeyManager.initialize.
  destruct (KeyManager.validateMasterPassword password); [|reflexivity].
  destruct (KeyManager.verifyMasterPassword _ _); reflexivity.
Qed.

Lemma initialize_ok_state `{Platform} (window : Window) (password : string)
  (s s' : KeyManager.State) :
  KeyManager.initialize window password s = (Ok tt, s') ->
  s' = KeyManager.with_masterPassword (Some password) s
  /\ password <> EmptyString.
Proof.
  unfold KeyManager.initialize.
  destruct (KeyManager.validateMasterPassword password) as [[]|m] eqn:Hv;
    [|discriminate].
  destruct (KeyManager.verifyMasterPassword _ _); [|discriminate].
  intros E. inversion E. split; [reflexivity|].
  exact (validateMasterPassword_nonempty Hv).
Qed.

(** C5 fails on the code. A key manager made after a restart reads its index
    back with [JSON.parse], which leaves every [expiresAt] as the text of the
    date. The test [expiresAt < new Date()] on a text compares NaN and is
    false, so for a key of the persisted index [getKey], at whatever time it
    is called, goes on to decrypt: it returns what decrypting the stored
    [keyData] under the master password gives, which is the plaintext key
    when [keyData] holds an envelope made for it under that password, and
    the expiry of the key is never reported. *)
Theorem getKey_reloaded_key_never_expires `{PlatformLaws} (window : Window)
  (stored : list (string * KeyManager.StoredKey)) (g : Rng)
  (password keyId : string) (persisted : KeyManager.StoredKey) (now : Z)
  (s : KeyManager.State) :
  KeyManager.initialize window password
    (KeyManager.constructor (Some stored) g) = (Ok tt, s) ->
  Map_get keyId stored = Some persisted ->
  Map_get keyId (KeyManager.keys s) = Some (KeyManager.toJSON persisted)
  /\ KeyManager.getKey window keyId now s
     = rethrow "Failed to retrieve key: "
         (KeyManager.decryptKeyData window
            (KeyManager.keyData persisted) password)
  /\ forall plain r g1 g2,
       JSON_parse_result (KeyManager.keyData persisted) = Ok r ->
       CryptoEngine.encryptText window DEFAULT_CONFIG (JsStr plain) password g1
         = (Ok r, g2) ->
       KeyManager.getKey window keyId now s = Ok plain.
Proof.
  intros Hinit Hget.
  apply initialize_ok_state in Hinit as [-> Hne].
  assert (Hk : Map_get keyId
                 (KeyManager.keys
                    (KeyManager.with_masterPassword (Some password)
                       (KeyManager.constructor (Some stored) g)))
               = Some (KeyManager.toJSON persisted)).
  { cbn [KeyManager.with_masterPassword KeyManager.constructor KeyManager.keys].
    now rewrite Map_get_entries_toJSON, Hget. }
  split; [exact Hk|].
  assert (Hkey : KeyManager.getKey window keyId now
                   (KeyManager.with_masterPassword (Some password)
                      (KeyManager.constructor (Some stored) g))
                 = rethrow "Failed to retrieve key: "
                     (KeyManager.decryptKeyData window
                        (KeyManager.keyData persisted) password)).
  { unfold KeyManager.getKey.
    rewrite (@ensureInitialized_ok _
               (KeyManager.with_masterPassword (Some password)
                  (KeyManager.constructor (Some stored) g))
               password eq_refl Hne).
    cbn [bind]. rewrite Hk, expired_toJSON. reflexivity. }
  split; [exact Hkey|].
  intros plain r g1 g2 Hparse Henc. rewrite Hkey.
  unfold KeyManager.decryptKeyData. rewrite Hparse. cbn [bind].
  now rewrite (CryptoEngine_decryptText_encryptText _ _ _ _ _ Henc).
Qed.

(** At the failing input: the signing key was made at [t0] to expire a day
    later. In the manager that made it, [getKey] two days after [t0] reports
    the expiry; after a restart the key carries the text of the same date
    and [getKey], at the same time, returns the private key. *)
Lemma getKey_reloaded_key_never_expires_witness :
  let restarted :=
    snd (@KeyManager.initialize Toy.platform Toy.window "Str0ng!Pass1234"
           Examples.reopened) in
  option_map KeyManager.expiresAt
    (Map_get Examples.signing_key_id (KeyManager.keys restarted))
    = Some (Some (IsoString (Examples.t0 + DAY_MS)))
  /\ @KeyManager.getKey Toy.platform Toy.window Examples.signing_key_id
       (Examples.t0 + 2 * DAY_MS) restarted = Ok "PRIVATE-1"
  /\ @KeyManager.getKey Toy.platform Toy.window Examples.signing_key_id
       (Examples.t0 + 2 * DAY_MS) Examples.with_signing_key
     = Err "Failed to retrieve key: Key has expired".
Proof.
  cbv zeta.
  epose proof (@getKey_reloaded_key_never_expires Toy.platform toy_laws
                 Toy.window Examples.persisted_index 7%nat "Str0ng!Pass1234"
                 Examples.signing_key_id _ (Examples.t0 + 2 * DAY_MS)%Z
                 (snd (@KeyManager.initialize Toy.platform Toy.window
                         "Str0ng!Pass1234" Examples.reopened))) as W.
  edestruct W as [Hk [Hkey _]].
  - vm_compute. reflexivity.
  - vm_compute. reflexivity.
  - split; [|split].
    + rewrite Hk. reflexivity.
    + rewrite Hkey. reflexivity.
    + reflexivity.
Defined.

(** X28. The cases of [getKey] by what [expiresAt] holds. In an initialised
    key manager, [getKey] fails with "Key not found" when the index has no
    key of that id; fails with "Key has expired" when the key's [expiresAt]
    is a date object strictly before the current time; and otherwise (no
    [expiresAt], a date at or after the current time, the invalid date, or
    the text of a date) returns what decrypting the stored [keyData] under
    the master password gives, which is the plaintext key whenever
    [keyData] holds an envelope that [encryptText] made for it under the
    master password. *)
Theorem getKey_cases `{PlatformLaws} (window : Window) (s : KeyManager.State)
  (keyId : string) (now : Z) (p : string) :
  KeyManager.masterPassword s = Some p ->
  p <> EmptyString ->
  (Map_get keyId (KeyManager.keys s) = None ->
   KeyManager.getKey window keyId now s
     = Err "Failed to retrieve key: Key not found")
  /\ (forall storedKey,
        Map_get keyId (KeyManager.keys s) = Some storedKey ->
        (forall e,
           KeyManager.expiresAt storedKey = Some (DateObject e) ->
           (e < now)%Z ->
           KeyManager.getKey window keyId now s
             = Err "Failed to retrieve key: Key has expired")
        /\ (KeyManager.expiresAt storedKey = None
            \/ KeyManager.expiresAt storedKey = Some InvalidDate
            \/ (exists t, KeyManager.expiresAt storedKey = Some (IsoString t))
            \/ (exists e, KeyManager.expiresAt storedKey = Some (DateObject e)
                          /\ (now <= e)%Z) ->
            KeyManager.getKey window keyId now s
              = rethrow "Failed to retrieve key: "
                  (KeyManager.decryptKeyData window
                     (KeyManager.keyData storedKey) p)
            /\ forall plain r g g',
                 JSON_parse_result (KeyManager.keyData storedKey) = Ok r ->
                 CryptoEngine.encryptText window DEFAULT_CONFIG
                   (JsStr plain) p g = (Ok r, g') ->
                 KeyManager.getKey window keyId now s = Ok plain)).
Proof.
  intros Hm Hp. unfold KeyManager.getKey.
  rewrite (ensureInitialized_ok s Hm Hp). cbn [bind].
  unfold KeyManager.master. rewrite Hm.
  split.
  - intros ->. reflexivity.
  - intros storedKey ->. unfold KeyManager.expired. split.
    + intros e -> Hlt. apply Z.ltb_lt in Hlt. cbn. now rewrite Hlt.
    + intros Hlive.
      assert (Hno : before_now (KeyManager.expiresAt storedKey) now = false).
      { destruct Hlive as [-> | [-> | [[t ->] | [e [-> Hle]]]]];
          try reflexivity.
        cbn. now apply Z.ltb_ge. }
      rewrite Hno. split; [reflexivity|].
      intros plain r g g' Hparse Henc.
      unfold KeyManager.decryptKeyData. rewrite Hparse. cbn [bind].
      now rewrite (CryptoEngine_decryptText_encryptText _ _ _ _ _ Henc).
Qed.

Lemma getKey_cases_witness :
  @KeyManager.getKey Toy.platform Toy.window Examples.signing_key_id
    (Examples.t0 + DAY_MS) Examples.with_signing_key = Ok "PRIVATE-1"
  /\ @KeyManager.getKey Toy.platform Toy.window Examples.signing_key_id
       (Examples.t0 + DAY_MS + 1) Examples.with_signing_key
     = Err "Failed to retrieve key: Key has expired"
  /\ @KeyManager.getKey Toy.platform Toy.window "key_0_none"
       Examples.t0 Examples.with_signing_key
     = Err "Failed to retrieve key: Key not found".
Proof.
  pose proof (@getKey_cases Toy.platform toy_laws Toy.window
                Examples.with_signing_key) as W.
  split; [|split].
  - destruct (W Examples.signing_key_id (Examples.t0 + DAY_MS)%Z
                "Str0ng!Pass1234" eq_refl ltac:(discriminate)) as [_ Hk].
    destruct (Hk _ eq_refl) as [_ Hlive].
    destruct Hlive as [-> _]; [|reflexivity].
    right; right; right. eexists. split; [reflexivity|].
    vm_compute. discriminate.
  - destruct (W Examples.signing_key_id (Examples.t0 + DAY_MS + 1)%Z
                "Str0ng!Pass1234" eq_refl ltac:(discriminate)) as [_ Hk].
    destruct (Hk _ eq_refl) as [Hdead _].
    apply (Hdead _ eq_refl). reflexivity.
  - destruct (W "key_0_none" Examples.t0
                "Str0ng!Pass1234" eq_refl ltac:(discriminate)) as [Hnone _].
    apply Hnone. reflexivity.
Defined.

(* ------------------------------------------------------------------ *)
(** ** Key manager: expiring keys *)

(** The keys a new key manager starts with have text for dates. *)
Lemma constructor_dates `{Platform}
  (stored : option (list (string * KeyManager.StoredKey))) (g : Rng)
  (key : KeyManager.StoredKey) :
  In key (Map_values (KeyManager.keys (KeyManager.constructor stored g))) ->
  exists persisted, key = KeyManager.toJSON persisted.
Proof.
  unfold KeyManager.constructor, Map_values, KeyManager.entries_toJSON.
  cbn [KeyManager.keys]. destruct stored as [entries|]; [|intros []].
  rewrite map_map. cbn [snd]. intros Hin.
  apply in_map_iff in Hin as [[k persisted] [E _]]. cbn [snd] in E.
  now exists persisted.
Qed.

(** [getExpiringKeys] reads the index alone. *)
Lemma getExpiringKeys_reads_index `{Platform} (daysAhead now : Z)
  (s s' : KeyManager.State) :
  KeyManager.keys s' = KeyManager.keys s ->
  KeyManager.getExpiringKeys daysAhead now s'
    = KeyManager.getExpiringKeys daysAhead now s.
Proof.
  intros E. unfold KeyManager.getExpiringKeys. now rewrite E.
Qed.

(** C9 fails on the code. A key manager made after a restart reads its index
    back with [JSON.parse], which leaves every [expiresAt] as the text of the
    date. Both comparisons of [getExpiringKeys] then compare NaN and are
    false: on the restarted manager, before and after [initialize],
    [getExpiringKeys] returns the empty list whatever the keys, the time and
    [daysAhead], also when a key of the index expires within the window. *)
Theorem getExpiringKeys_after_restart `{Platform} (window : Window)
  (stored : option (list (string * KeyManager.StoredKey))) (g : Rng)
  (daysAhead now : Z) :
  KeyManager.getExpiringKeys daysAhead now (KeyManager.constructor stored g)
    = []
  /\ forall password,
       KeyManager.getExpiringKeys daysAhead now
         (snd (KeyManager.initialize window password
                 (KeyManager.constructor stored g))) = [].
Proof.
  assert (Hnone : KeyManager.getExpiringKeys daysAhead now
                    (KeyManager.constructor stored g) = []).
  { destruct (KeyManager.getExpiringKeys daysAhead now
                (KeyManager.constructor stored g)) as [|key rest] eqn:E;
      [reflexivity|].
    assert (Hin : In key (KeyManager.getExpiringKeys daysAhead now
                            (KeyManager.constructor stored g)))
      by (rewrite E; now left).
    unfold KeyManager.getExpiringKeys in Hin.
    apply filter_In in Hin as [Hin Hf].
    destruct (constructor_dates stored g key Hin) as [persisted ->].
    cbn [KeyManager.toJSON KeyManager.expiresAt] in Hf.
    destruct (Date_toJSON (KeyManager.expiresAt persisted)) as [e|] eqn:Hd;
      [|discriminate].
    rewrite (Date_toJSON_NaN _ Hd) in Hf. discriminate. }
  split; [exact Hnone|].
  intros password. rewrite <- Hnone.
  apply getExpiringKeys_reads_index, initialize_keeps_keys.
Qed.

(** At the failing input: the signing key was made at [t0] to expire a day
    later. Asked at [t0] for the keys that expire within 30 days, the
    manager that made the key lists it; after a restart the index holds the
    key with the text of the same date, and the answer is empty. *)
Example getExpiringKeys_signing_key :
  map KeyManager.id
    (@KeyManager.getExpiringKeys Toy.platform 30 Examples.t0
       Examples.with_signing_key) = [Examples.signing_key_id]
  /\ map (fun key => (KeyManager.id key, KeyManager.expiresAt key))
       (Map_values (KeyManager.keys Examples.reopened))
     = [(Examples.signing_key_id,
         Some (IsoString (Examples.t0 + DAY_MS)))]
  /\ @KeyManager.getExpiringKeys Toy.platform 30 Examples.t0
       Examples.reopened = []
  /\ @KeyManager.getExpiringKeys Toy.platform 30 Examples.t0
       (snd (@KeyManager.initialize Toy.platform Toy.window "Str0ng!Pass1234"
               Examples.reopened)) = [].
Proof.
  vm_compute. repeat split.
Qed.



(** C3 fails on the code. When the probe fails for a password that passes
    the policy, [initialize] does fail with "Invalid master password", but
    the password has already been stored and stays stored: the manager is
    initialised, [ensureInitialized] passes, and for instance [deleteKey]
    of any stored key then succeeds instead of failing with
    "not initialized". *)
Theorem initialize_failed_probe_keeps_password `{Platform} (window : Window)
  (s : KeyManager.State) (password firstId m : string)
  (firstKey : KeyManager.StoredKey)
  (rest : list (string * KeyManager.StoredKey)) :
  KeyManager.validateMasterPassword password = Ok tt ->
  KeyManager.keys s = (firstId, firstKey) :: rest ->
  KeyManager.decryptKeyData window (KeyManager.keyData firstKey) password
    = Err m ->
  fst (KeyManager.initialize window password s)
    = Err "Key manager initialization failed: Invalid master password"
  /\ KeyManager.masterPassword (snd (KeyManager.initialize window password s))
     = Some password
  /\ KeyManager.ensureInitialized (snd (KeyManager.initialize window password s))
     = Ok tt
  /\ forall keyId storedKey,
       Map_get keyId (KeyManager.keys s) = Some storedKey ->
       fst (KeyManager.deleteKey keyId
              (snd (KeyManager.initialize window password s))) = Ok tt.
Proof.
  intros Hv Hk Hd.
  pose proof (validateMasterPassword_nonempty Hv) as Hne.
  unfold KeyManager.initialize. rewrite Hv.
  unfold KeyManager.verifyMasterPassword.
  cbn [KeyManager.with_masterPassword KeyManager.keys KeyManager.master
       KeyManager.masterPassword].
  rewrite Hk, Hd. cbn [fst snd KeyManager.masterPassword].
  split; [reflexivity|]. split; [reflexivity|].
  assert (Hi : KeyManager.ensureInitialized
                 (KeyManager.with_masterPassword (Some password) s) = Ok tt)
    by (apply ensureInitialized_ok with password; auto).
  split; [exact Hi|].
  intros keyId storedKey Hget. unfold KeyManager.deleteKey.
  rewrite Hi. cbn [KeyManager.with_masterPassword KeyManager.keys].
  now rewrite Hk, Hget.
Qed.

Lemma initialize_failed_probe_keeps_password_witness :
  fst (@KeyManager.initialize Toy.platform Toy.window "Wr0ng!Pass12345"
         Examples.reopened)
    = Err "Key manager initialization failed: Invalid master password"
  /\ fst (@KeyManager.deleteKey Toy.platform Examples.signing_key_id
            (snd (@KeyManager.initialize Toy.platform Toy.window
                    "Wr0ng!Pass12345" Examples.reopened))) = Ok tt.
Proof.
  destruct (@initialize_failed_probe_keeps_password Toy.platform Toy.window
              Examples.reopened "Wr0ng!Pass12345" Examples.signing_key_id
              ("Decryption failed: Error invoking remote method "
               ++ "'crypto:decryptText': Error: Decryption failed: "
               ++ Toy.auth_error)
              _ [] eq_refl eq_refl eq_refl) as [Hfail [_ [_ Hdel]]].
  split; [exact Hfail|]. now apply (Hdel Examples.signing_key_id _ eq_refl).
Defined.

(** C4 fails on the code as stated: on a manager that was never
    initialised, [getPublicKey] returns the public key, [listKeys] returns
    the listing, and [changeMasterPassword] fails with another error. *)
Lemma uninitialized_operations_that_answer :
  KeyManager.masterPassword Examples.reopened = None
  /\ @KeyManager.getPublicKey Toy.platform Examples.signing_key_id
       Examples.reopened = Ok "PUBLIC-1"
  /\ List.length (@KeyManager.listKeys Toy.platform Examples.reopened) = 1
  /\ ~ (forall op : KeyManager.Operation,
          KeyManager.fails_with_NotInitialized
            (fst (@KeyManager.outcome Toy.platform Toy.export_codec Toy.window
                    op Examples.t0 Examples.t0 Examples.reopened))).
Proof.
  split; [reflexivity|]. split; [reflexivity|]. split; [reflexivity|].
  intros Hall. destruct (Hall KeyManager.ListKeys) as [prefix E].
  discriminate E.
Qed.

(** C4 as amended. Seven operations begin with [ensureInitialized]: on a
    manager without a master password each of them fails with the message
    "Key manager not initialized. Call initialize() first." under its own
    prefix and leaves the state as it was. [listKeys], [getExpiringKeys] and
    [getPublicKey] do not require initialization. They return rather than
    throw for want of a password: [listKeys] lists every key of the index,
    in order and without its [keyData]; [getExpiringKeys] returns keys of
    the index; [getPublicKey] returns the public key of an asymmetric key
    that has one, and fails with "Key not found" or "Key is not an
    asymmetric key pair" otherwise. They read the index alone, so they
    answer the same in every state of the manager that has this index,
    initialised or not. [changeMasterPassword] rejects the call as a wrong
    current password. *)
Theorem uninitialized_operations `{Platform} `{KeyManager.ExportCodec}
  (window : Window) (now later : Z) (s : KeyManager.State) :
  KeyManager.masterPassword s = None ->
  (forall op, KeyManager.ensures_initialized op = true ->
     KeyManager.outcome window op now later s
       = (Err (KeyManager.failure_prefix op ++ KeyManager.NotInitialized), s))
  /\ (KeyManager.outcome window KeyManager.ListKeys now later s = (Ok tt, s)
      /\ KeyManager.listKeys s
         = map KeyManager.listing (map snd (KeyManager.keys s)))
  /\ (forall d,
        KeyManager.outcome window (KeyManager.GetExpiringKeys d) now later s
          = (Ok tt, s)
        /\ forall key, In key (KeyManager.getExpiringKeys d now s) ->
                       In key (map snd (KeyManager.keys s)))
  /\ (forall keyId,
        match Map_get keyId (KeyManager.keys s) with
        | None =>
            KeyManager.getPublicKey keyId s
              = Err "Failed to retrieve public key: Key not found"
        | Some storedKey =>
            (forall pub,
               KeyManager.type storedKey = KeyManager.asymmetric ->
               KeyManager.publicKey storedKey = Some pub ->
               pub <> EmptyString ->
               KeyManager.getPublicKey keyId s = Ok pub)
            /\ (KeyManager.type storedKey = KeyManager.symmetric
                \/ KeyManager.publicKey storedKey = None
                \/ KeyManager.publicKey storedKey = Some EmptyString ->
                KeyManager.getPublicKey keyId s
                  = Err "Failed to retrieve public key: Key is not an asymmetric key pair")
        end)
  /\ (forall s' : KeyManager.State,
        KeyManager.keys s' = KeyManager.keys s ->
        KeyManager.listKeys s' = KeyManager.listKeys s
        /\ (forall d, KeyManager.getExpiringKeys d now s'
                      = KeyManager.getExpiringKeys d now s)
        /\ (forall keyId, KeyManager.getPublicKey keyId s'
                          = KeyManager.getPublicKey keyId s))
  /\ (forall o n,
        KeyManager.changeMasterPassword window o n s
          = (Err "Failed to change master password: Invalid current master password",
             s)).
Proof.
  intros Hm. pose proof (ensureInitialized_none s Hm) as Hun.
  split; [|split; [|split; [|split; [|split]]]].
  - intros op Hop.
    destruct op; try discriminate Hop; cbn [KeyManager.outcome];
      unfold KeyManager.generateSymmetricKey,
        KeyManager.generateAsymmetricKeyPair, KeyManager.getKey,
        KeyManager.deleteKey, KeyManager.rotateKey, KeyManager.exportKeys,
        KeyManager.importKeys;
      rewrite Hun; reflexivity.
  - split; reflexivity.
  - intros d. split; [reflexivity|].
    intros key Hin. unfold KeyManager.getExpiringKeys in Hin.
    apply filter_In in Hin as [Hin _]. exact Hin.
  - intros keyId. unfold KeyManager.getPublicKey.
    destruct (Map_get keyId (KeyManager.keys s)) as [storedKey|];
      [|reflexivity].
    split.
    + intros pub Ht Hp Hne. now rewrite Ht, Hp, (truthy_true Hne).
    + intros [Ht | [Hp | Hp]].
      * now rewrite Ht.
      * rewrite Hp. now destruct (KeyManager.type storedKey).
      * rewrite Hp. now destruct (KeyManager.type storedKey).
  - intros s' Hk.
    unfold KeyManager.listKeys, KeyManager.getExpiringKeys,
      KeyManager.getPublicKey.
    rewrite Hk. auto.
  - intros o n. unfold KeyManager.changeMasterPassword. now rewrite Hm.
Qed.

(** On the manager of the restarted application, which nobody initialised:
    [getKey] fails for want of a password, while [getPublicKey] and
    [listKeys] answer as they do once that manager has been initialised. *)
Lemma uninitialized_operations_witness :
  @KeyManager.outcome Toy.platform Toy.export_codec Toy.window
    (KeyManager.GetKey Examples.signing_key_id) Examples.t0 Examples.t0
    Examples.reopened
  = (Err "Failed to retrieve key: Key manager not initialized. Call initialize() first.",
     Examples.reopened)
  /\ @KeyManager.getPublicKey Toy.platform Examples.signing_key_id
       Examples.reopened = Ok "PUBLIC-1"
  /\ @KeyManager.listKeys Toy.platform
       (snd (@KeyManager.initialize Toy.platform Toy.window "Str0ng!Pass1234"
               Examples.reopened))
     = @KeyManager.listKeys Toy.platform Examples.reopened.
Proof.
  pose proof (@uninitialized_operations Toy.platform Toy.export_codec
                Toy.window Examples.t0 Examples.t0 Examples.reopened eq_refl)
    as [Hguarded [_ [_ [Hpub [Hsame _]]]]].
  split; [|split].
  - exact (Hguarded (KeyManager.GetKey Examples.signing_key_id) eq_refl).
  - specialize (Hpub Examples.signing_key_id).
    apply (proj1 Hpub "PUBLIC-1"); [reflexivity | reflexivity | discriminate].
  - apply (Hsame (snd (@KeyManager.initialize Toy.platform Toy.window
                         "Str0ng!Pass1234" Examples.reopened))).
    reflexivity.
Defined.

(* ------------------------------------------------------------------ *)
(** ** Key manager: rotation *)

(** [generateSymmetricKey] hands [encryptText] the promise that
    [generateSecureKey] returned instead of awaiting it, and the bridge
    cannot carry a promise: the operation fails in every state. *)
Lemma generateSymmetricKey_fails `{Platform} (window : Window)
  (name purpose owner : string) (expirationDays : option Z) (now : Z)
  (s : KeyManager.State) :
  exists m, fst (KeyManager.generateSymmetricKey window name purpose owner
                   expirationDays now s) = Err m.
Proof.
  unfold KeyManager.generateSymmetricKey.
  destruct (KeyManager.ensureInitialized s); [|cbn; eauto].
  destruct (KeyManager.generateKeyId now (KeyManager.rng s)) as [keyId g1].
  destruct (CryptoEngine.generateSecureKey window _ g1) as [settled g2].
  unfold CryptoEngine.encryptText. cbn [js_truthy structuredClone negb orb].
  destruct (negb (truthy (KeyManager.master s))); [cbn; eauto|].
  destruct (electronAPI window); cbn; eauto.
Qed.

Lemma generateAsymmetricKeyPair_ok `{Platform} (window : Window)
  (name purpose owner : string) (keySize : JsNumber)
  (expirationDays : option Z) (now : Z) (s s1 : KeyManager.State)
  (newId : string) :
  KeyManager.generateAsymmetricKeyPair window name purpose owner keySize
    expirationDays now s = (Ok newId, s1) ->
  exists storedKey,
    KeyManager.keys s1 = Map_set newId storedKey (KeyManager.keys s)
    /\ KeyManager.masterPassword s1 = KeyManager.masterPassword s
    /\ KeyManager.name storedKey = name
    /\ KeyManager.purpose (KeyManager.metadata storedKey) = purpose
    /\ KeyManager.owner (KeyManager.metadata storedKey) = owner
    /\ KeyManager.expiresAt storedKey = KeyManager.expiry expirationDays now.
Proof.
  unfold KeyManager.generateAsymmetricKeyPair.
  destruct (KeyManager.ensureInitialized s); [|discriminate].
  destruct (KeyManager.generateKeyId now (KeyManager.rng s)) as [keyId g1].
  destruct (CryptoEngine.generateKeyPair window keySize g1)
    as [[[pub priv]|m] g2]; [|discriminate].
  destruct (CryptoEngine.encryptText window DEFAULT_CONFIG (JsStr priv)
              (KeyManager.master s) g2) as [[encrypted|m] g3]; [|discriminate].
  intros E. inversion E; subst. eexists. cbn. repeat split.
Qed.

(** What a successful rotation leaves behind, provided the generated id is
    not the id being rotated: the new key carries the old name, purpose and
    owner, its [expiresAt] is computed, at the time the generation reads,
    from the days that remained to the old key at the time the rotation
    read, and the old id is gone from the index. *)
Lemma rotateKey_result `{Platform} (window : Window) (keyId newId : string)
  (now later : Z) (s s' : KeyManager.State) (oldKey : KeyManager.StoredKey) :
  Map_get keyId (KeyManager.keys s) = Some oldKey ->
  KeyManager.rotateKey window keyId now later s = (Ok newId, s') ->
  newId <> keyId ->
  exists newKey days,
    Map_get newId (KeyManager.keys s') = Some newKey
    /\ KeyManager.name newKey = KeyManager.name oldKey
    /\ KeyManager.purpose (KeyManager.metadata newKey)
       = KeyManager.purpose (KeyManager.metadata oldKey)
    /\ KeyManager.owner (KeyManager.metadata newKey)
       = KeyManager.owner (KeyManager.metadata oldKey)
    /\ KeyManager.remainingDays oldKey now = Ok days
    /\ KeyManager.expiresAt newKey = KeyManager.expiry days later
    /\ Map_get keyId (KeyManager.keys s') = None.
Proof.
  intros Hget Hrot Hfresh. unfold KeyManager.rotateKey in Hrot.
  destruct (KeyManager.ensureInitialized s) as [[]|] eqn:Hi; [|discriminate].
  rewrite Hget in Hrot.
  destruct (KeyManager.remainingDays oldKey now) as [days|m] eqn:Hdays;
    [|destruct (KeyManager.type oldKey); discriminate].
  destruct (KeyManager.type oldKey).
  - destruct (generateSymmetricKey_fails window (KeyManager.name oldKey)
                (KeyManager.purpose (KeyManager.metadata oldKey))
                (KeyManager.owner (KeyManager.metadata oldKey))
                days later s) as [m Hm].
    destruct (KeyManager.generateSymmetricKey _ _ _ _ _ _ _) as [generated s1].
    cbn in Hm. subst generated. discriminate.
  - destruct (KeyManager.generateAsymmetricKeyPair _ _ _ _ _ _ _ _)
      as [[generatedId|m] s1] eqn:Hgen; [|discriminate].
    apply generateAsymmetricKeyPair_ok in Hgen
      as [newKey [Hkeys [Hmaster [Hn [Hp [Ho He]]]]]].
    unfold KeyManager.deleteKey in Hrot.
    assert (Hi1 : KeyManager.ensureInitialized s1 = Ok tt).
    { unfold KeyManager.ensureInitialized in *. rewrite Hmaster. exact Hi. }
    rewrite Hi1, Hkeys in Hrot.
    destruct (String.eqb_spec generatedId keyId) as [->|Hne].
    + rewrite Map_get_set_same in Hrot. inversion Hrot; subst. congruence.
    + rewrite Map_get_set_other, Hget in Hrot by congruence.
      inversion Hrot; subst newId s'. clear Hrot.
      exists newKey, days.
      cbn [KeyManager.saveKeysToStorage KeyManager.with_keys KeyManager.keys].
      rewrite Map_get_delete_other, Map_get_set_same by exact Hne.
      rewrite Map_get_delete_same. auto 10.
Qed.

Lemma ceil_div_lapsed (x : Z) :
  (- DAY_MS < x <= 0)%Z -> ceil_div x DAY_MS = 0%Z.
Proof.
  intros Hx. unfold ceil_div.
  rewrite Z.div_small; [reflexivity|]. unfold DAY_MS in *. lia.
Qed.

Lemma ceil_div_bounds (x : Z) :
  (x <= ceil_div x DAY_MS * DAY_MS < x + DAY_MS)%Z.
Proof.
  unfold ceil_div.
  pose proof (Z.div_mod (- x) DAY_MS ltac:(discriminate)) as Hdm.
  pose proof (Z.mod_pos_bound (- x) DAY_MS ltac:(reflexivity)) as Hb.
  lia.
Qed.

(** C6 fails on the code. Rotating a key whose [expiresAt] is the current
    instant, or lies less than a day in the past, succeeds and carries over
    name, purpose and owner, and the old id is gone; but the number of
    remaining days comes out as zero, which the generation step reads as
    "no expiration": the new key has no [expiresAt] at all. *)
Theorem rotateKey_lapsed_key_never_expires `{Platform} (window : Window)
  (keyId newId : string) (now later e : Z) (s s' : KeyManager.State)
  (oldKey : KeyManager.StoredKey) :
  Map_get keyId (KeyManager.keys s) = Some oldKey ->
  KeyManager.expiresAt oldKey = Some (DateObject e) ->
  (now - DAY_MS < e <= now)%Z ->
  KeyManager.rotateKey window keyId now later s = (Ok newId, s') ->
  newId <> keyId ->
  exists newKey,
    Map_get newId (KeyManager.keys s') = Some newKey
    /\ KeyManager.name newKey = KeyManager.name oldKey
    /\ KeyManager.purpose (KeyManager.metadata newKey)
       = KeyManager.purpose (KeyManager.metadata oldKey)
    /\ KeyManager.owner (KeyManager.metadata newKey)
       = KeyManager.owner (KeyManager.metadata oldKey)
    /\ Map_get keyId (KeyManager.keys s') = None
    /\ KeyManager.expiresAt newKey = None.
Proof.
  intros Hget He Hwin Hrot Hfresh.
  destruct (@rotateKey_result _ window keyId newId now later s s' oldKey
              Hget Hrot Hfresh)
    as [newKey [days [Hnew [Hn [Hp [Ho [Hdays [Hexp Hold]]]]]]]].
  exists newKey. repeat (split; [assumption|]).
  rewrite Hexp. unfold KeyManager.remainingDays in Hdays.
  rewrite He, ceil_div_lapsed in Hdays by lia.
  inversion Hdays. reflexivity.
Qed.

Lemma rotateKey_lapsed_key_never_expires_witness :
  exists newKey s',
    @KeyManager.rotateKey Toy.platform Toy.window Examples.signing_key_id
      (Examples.t0 + DAY_MS + Examples.HOUR_MS)
      (Examples.t0 + DAY_MS + Examples.HOUR_MS + 250)
      Examples.with_signing_key
      = (Ok "key_1700090000250_r4", s')
    /\ Map_get "key_1700090000250_r4" (KeyManager.keys s') = Some newKey
    /\ KeyManager.name newKey = "signing"
    /\ KeyManager.expiresAt newKey = None.
Proof.
  destruct (@rotateKey_lapsed_key_never_expires Toy.platform Toy.window
              Examples.signing_key_id "key_1700090000250_r4"
              (Examples.t0 + DAY_MS + Examples.HOUR_MS)%Z
              (Examples.t0 + DAY_MS + Examples.HOUR_MS + 250)%Z
              (Examples.t0 + DAY_MS)%Z Examples.with_signing_key _ _
              eq_refl eq_refl ltac:(vm_compute; split; congruence)
              eq_refl ltac:(discriminate))
    as [newKey [Hnew [Hname [_ [_ [_ Hexp]]]]]].
  exists newKey. eexists. split; [reflexivity|].
  split; [exact Hnew|]. split; [exact Hname | exact Hexp].
Defined.

(* ------------------------------------------------------------------ *)
(** ** File encryption: batches *)

Lemma logEvent_appends (now : Z) (event : string)
  (status : SecurityLogger.Status)
  (details : list (string * SecurityLogger.Detail))
  (l : SecurityLogger.Logger) :
  exists older,
    SecurityLogger.logs (SecurityLogger.logEvent now event status details l)
    = (older ++ [{| SecurityLogger.timestamp := now;
                    SecurityLogger.event := event;
                    SecurityLogger.status := status;
                    SecurityLogger.details := details;
                    SecurityLogger.sessionId := SecurityLogger.session l |}])%list.
Proof.
  unfold SecurityLogger.logEvent. cbn [SecurityLogger.logs].
  destruct (Nat.ltb 1000 _) eqn:E; [|eauto].
  apply Nat.ltb_lt in E. rewrite length_app in *. cbn [List.length] in *.
  rewrite skipn_app.
  replace (List.length (SecurityLogger.logs l) + 1 - 1000
           - List.length (SecurityLogger.logs l)) with 0 by lia.
  cbn [skipn]. eauto.
Qed.

(** The entries before the new one are the old log, short of what was
    dropped from its front. *)
Lemma logEvent_appends_one (now : Z) (event : string)
  (status : SecurityLogger.Status)
  (details : list (string * SecurityLogger.Detail))
  (l : SecurityLogger.Logger) :
  exists dropped older,
    SecurityLogger.logs l = (dropped ++ older)%list
    /\ SecurityLogger.logs (SecurityLogger.logEvent now event status details l)
       = (older ++ [{| SecurityLogger.timestamp := now;
                       SecurityLogger.event := event;
                       SecurityLogger.status := status;
                       SecurityLogger.details := details;
                       SecurityLogger.sessionId := SecurityLogger.session l |}])%list.
Proof.
  unfold SecurityLogger.logEvent. cbn [SecurityLogger.logs].
  destruct (Nat.ltb 1000 _) eqn:E.
  - apply Nat.ltb_lt in E. rewrite length_app in *. cbn [List.length] in *.
    exists (firstn (List.length (SecurityLogger.logs l) + 1 - 1000)
              (SecurityLogger.logs l)),
           (skipn (List.length (SecurityLogger.logs l) + 1 - 1000)
              (SecurityLogger.logs l)).
    split; [symmetry; apply firstn_skipn|].
    rewrite skipn_app.
    replace (List.length (SecurityLogger.logs l) + 1 - 1000
             - List.length (SecurityLogger.logs l)) with 0 by lia.
    reflexivity.
  - exists [], (SecurityLogger.logs l). split; reflexivity.
Qed.

Section BatchFacts.
Context `{Platform}.
Variable window : Window.
Variables (password : string) (now : Z).

Lemma encrypt_each_app (before after : list FileEncryption.File)
  (results : list FileEncryption.FileEncryptionResult) (errors : list string)
  (s : FileEncryption.State) :
  FileEncryption.encrypt_each window (before ++ after) password now
    results errors s
  = let '(results', errors', s') :=
      FileEncryption.encrypt_each window before password now results errors s in
    FileEncryption.encrypt_each window after password now results' errors' s'.
Proof.
  revert results errors s.
  induction before as [|file rest IH]; intros results errors s; cbn.
  - reflexivity.
  - destruct (FileEncryption.encryptFile window file password now s)
      as [[result|m] s1]; apply IH.
Qed.

Lemma encrypt_each_counts (files : list FileEncryption.File)
  (results results' : list FileEncryption.FileEncryptionResult)
  (errors errors' : list string) (s s' : FileEncryption.State) :
  FileEncryption.encrypt_each window files password now results errors s
    = (results', errors', s') ->
  List.length results' + List.length errors'
  = List.length results + List.length errors + List.length files.
Proof.
  revert results errors s.
  induction files as [|file rest IH]; intros results errors s; cbn.
  - intros E. inversion E; subst. lia.
  - destruct (FileEncryption.encryptFile window file password now s)
      as [[result|m] s1]; intros E; apply IH in E;
      rewrite length_app in E; cbn [List.length] in E; lia.
Qed.

End BatchFacts.

(** C8 fails on the code as stated: the value [encryptMultipleFiles]
    returns does not carry the per-file errors. An empty batch and a batch of
    one file that cannot be encrypted return the same value, the empty list,
    although the second collected an error. *)
Lemma encryptMultipleFiles_returns_no_errors :
  let returned files :=
    fst (@FileEncryption.encryptMultipleFiles Toy.platform Toy.window files
           "password123" Examples.t0 Examples.service) in
  let collected files :=
    snd (fst (@FileEncryption.encrypt_each Toy.platform Toy.window files
                "password123" Examples.t0 [] [] Examples.service)) in
  returned [] = returned [Examples.empty_file]
  /\ collected [] = []
  /\ collected [Examples.empty_file]
     = ["empty.txt: File encryption failed: Encryption failed: Plaintext and password are required"]
  /\ ~ (exists errors_of,
          forall files, errors_of (returned files) = collected files).
Proof.
  cbv zeta. split; [reflexivity|]. split; [reflexivity|].
  split; [reflexivity|].
  intros [errors_of Hall].
  pose proof (Hall []) as H0. pose proof (Hall [Examples.empty_file]) as H1.
  vm_compute in H0, H1. congruence.
Qed.

(** C8 as amended. For every list of files and every password,
    [encryptMultipleFiles] passes each file in turn to [encryptFile],
    whatever happened to the files before it, and always returns: the value
    returned is the list of the successful results, in order; every file is
    accounted for by a result or by a collected error; and the errors are
    not returned but written to the security log, in the details of a
    [BATCH_FILE_ENCRYPTION] entry with status [warning], while a batch
    without errors logs [success]. *)
Theorem encryptMultipleFiles_partial_success `{Platform} (window : Window)
  (files : list FileEncryption.File) (password : string) (now : Z)
  (s : FileEncryption.State) :
  exists results errors s1 older entry,
    FileEncryption.encrypt_each window files password now [] [] s
      = (results, errors, s1)
    /\ fst (FileEncryption.encryptMultipleFiles window files password now s)
       = results
    /\ List.length results + List.length errors = List.length files
    /\ (forall before file after, files = (before ++ file :: after)%list ->
        exists results0 errors0 s0,
          FileEncryption.encrypt_each window before password now [] [] s
            = (results0, errors0, s0)
          /\ (results, errors, s1)
             = match FileEncryption.encryptFile window file password now s0 with
               | (Ok result, s0') =>
                   FileEncryption.encrypt_each window after password now
                     (results0 ++ [result])%list errors0 s0'
               | (Err m, s0') =>
                   FileEncryption.encrypt_each window after password now
                     results0
                     (errors0 ++ [(FileEncryption.name file ++ ": " ++ m)%string])%list
                     s0'
               end)
    /\ SecurityLogger.logs
         (FileEncryption.securityLogger
            (snd (FileEncryption.encryptMultipleFiles window files password
                    now s)))
       = (older ++ [entry])%list
    /\ SecurityLogger.event entry = "BATCH_FILE_ENCRYPTION"
    /\ (errors = [] -> SecurityLogger.status entry = SecurityLogger.success)
    /\ (errors <> [] ->
        SecurityLogger.status entry = SecurityLogger.warning
        /\ In ("errors", SecurityLogger.DStrings errors)
              (SecurityLogger.details entry)).
Proof.
  destruct (FileEncryption.encrypt_each window files password now [] [] s)
    as [[results errors] s1] eqn:Hloop.
  unfold FileEncryption.encryptMultipleFiles. rewrite Hloop.
  cbn [fst snd FileEncryption.securityLogger].
  set (logger := FileEncryption.securityLogger s1).
  destruct errors as [|err errors'].
  - destruct (logEvent_appends now "BATCH_FILE_ENCRYPTION"
                SecurityLogger.success
                [("totalFiles",
                  SecurityLogger.DNumber (Z.of_nat (List.length files)));
                 ("successCount",
                  SecurityLogger.DNumber (Z.of_nat (List.length results)))]
                logger) as [older Hlog].
    exists results, [], s1, older. eexists.
    split; [reflexivity|]. split; [reflexivity|].
    split; [apply encrypt_each_counts in Hloop; cbn in *; lia|].
    split.
    { intros before file after ->. rewrite encrypt_each_app in Hloop.
      destruct (FileEncryption.encrypt_each window before password now [] [] s)
        as [[results0 errors0] s0].
      exists results0, errors0, s0. split; [reflexivity|].
      cbn [FileEncryption.encrypt_each] in Hloop.
      destruct (FileEncryption.encryptFile window file password now s0)
        as [[result|m] s0']; now rewrite Hloop. }
    split; [exact Hlog|]. cbn. repeat split; congruence.
  - destruct (logEvent_appends now "BATCH_FILE_ENCRYPTION"
                SecurityLogger.warning
                [("totalFiles",
                  SecurityLogger.DNumber (Z.of_nat (List.length files)));
                 ("successCount",
                  SecurityLogger.DNumber (Z.of_nat (List.length results)));
                 ("errorCount",
                  SecurityLogger.DNumber
                    (Z.of_nat (List.length (err :: errors'))));
                 ("errors", SecurityLogger.DStrings (err :: errors'))]
                logger) as [older Hlog].
    exists results, (err :: errors'), s1, older. eexists.
    split; [reflexivity|]. split; [reflexivity|].
    split; [apply encrypt_each_counts in Hloop; cbn in *; lia|].
    split.
    { intros before file after ->. rewrite encrypt_each_app in Hloop.
      destruct (FileEncryption.encrypt_each window before password now [] [] s)
        as [[results0 errors0] s0].
      exists results0, errors0, s0. split; [reflexivity|].
      cbn [FileEncryption.encrypt_each] in Hloop.
      destruct (FileEncryption.encryptFile window file password now s0)
        as [[result|m] s0']; now rewrite Hloop. }
    split; [exact Hlog|]. cbn. split; [reflexivity|].
    split; [discriminate|]. intros _. split; [reflexivity|]. auto 10.
Qed.

(** A batch of three files of which only the first can be encrypted: one
    result is returned and two errors are collected. *)
Example encryptMultipleFiles_three_files :
  let batch := [Examples.report; Examples.empty_file; Examples.unreadable] in
  List.length
    (fst (@FileEncryption.encryptMultipleFiles Toy.platform Toy.window batch
            "password123" Examples.t0 Examples.service)) = 1
  /\ snd (fst (@FileEncryption.encrypt_each Toy.platform Toy.window batch
                 "password123" Examples.t0 [] [] Examples.service))
     = ["empty.txt: File encryption failed: Encryption failed: Plaintext and password are required";
        "locked.txt: File encryption failed: Failed to read file"].
Proof.
  vm_compute. split; reflexivity.
Qed.

(* ================================================================== *)
(** * Further properties of the engines *)
(* ================================================================== *)

(** X1. Empty input. With an empty plaintext or an empty password, both
    engines' [encryptText] fail with "Plaintext and password are required"
    before anything is drawn from the random source; with an empty
    [encryptedData] or an empty password, both [decryptText] fail with
    "Encrypted data and password are required". *)
Theorem engines_reject_empty_input `{Platform} (window : Window)
  (config : EncryptionConfig) (text password : string) (g : Rng)
  (r : EncryptionResult) :
  text = EmptyString \/ password = EmptyString ->
  encryptedData r = text ->
  CryptoEngineNode.encryptText config text password g
    = (Err "Encryption failed: Plaintext and password are required", g)
  /\ CryptoEngine.encryptText window config (JsStr text) password g
     = (Err "Encryption failed: Plaintext and password are required", g)
  /\ CryptoEngineNode.decryptText config r password
     = Err "Decryption failed: Encrypted data and password are required"
  /\ CryptoEngine.decryptText window config r password
     = Err "Decryption failed: Encrypted data and password are required".
Proof.
  intros Hempty Hr.
  assert (Hc : negb (truthy text) || negb (truthy password) = true).
  { destruct Hempty as [-> | ->]; [reflexivity|].
    now rewrite orb_true_r. }
  unfold CryptoEngineNode.encryptText, CryptoEngine.encryptText,
    CryptoEngineNode.decryptText, CryptoEngine.decryptText.
  cbn [js_truthy]. rewrite Hr, Hc. repeat split.
Qed.

Lemma engines_reject_empty_input_witness :
  @CryptoEngineNode.encryptText Toy.platform DEFAULT_CONFIG "" "password123"
    5%nat
  = (Err "Encryption failed: Plaintext and password are required", 5%nat).
Proof.
  exact (proj1 (@engines_reject_empty_input Toy.platform Toy.window
                  DEFAULT_CONFIG "" "password123" 5%nat
                  {| encryptedData := ""; iv := ""; salt := ""; tag := None |}
                  (or_introl eq_refl) eq_refl)).
Defined.

(** X2. Round trip through the Electron bridge. When [window.electronAPI]
    is present, [encryptText] of the bridged engine returns an envelope for
    every non-empty plaintext and password, and [decryptText] of that
    envelope under the same password returns the plaintext. *)
Theorem bridged_decryptText_encryptText `{PlatformLaws} (window : Window)
  (config : EncryptionConfig) (plaintext password : string) (g : Rng) :
  electronAPI window = true ->
  plaintext <> EmptyString ->
  password <> EmptyString ->
  exists r g',
    CryptoEngine.encryptText window config (JsStr plaintext) password g
      = (Ok r, g')
    /\ CryptoEngine.decryptText window config r password = Ok plaintext.
Proof.
  intros Hw Ht Hp.
  destruct (CryptoEngine.encryptText window config (JsStr plaintext) password g)
    as [[r|m] g'] eqn:E.
  - exists r, g'. split; [reflexivity|].
    eapply CryptoEngine_decryptText_encryptText; eassumption.
  - exfalso. revert E. unfold CryptoEngine.encryptText.
    cbn [js_truthy structuredClone].
    rewrite (truthy_true Ht), (truthy_true Hp), Hw. cbn [negb orb].
    unfold ElectronMain.handle_encryptText.
    destruct (randomBytes _ g) as [s g1]. destruct (randomBytes _ g1) as [v g2].
    destruct (cipher_run _ _ _ _). cbn. discriminate.
Qed.

Lemma bridged_decryptText_encryptText_witness :
  exists r g',
    @CryptoEngine.encryptText Toy.platform Toy.window DEFAULT_CONFIG
      (JsStr "invoice 42") "password123" 0%nat = (Ok r, g')
    /\ @CryptoEngine.decryptText Toy.platform Toy.window DEFAULT_CONFIG r
         "password123" = Ok "invoice 42".
Proof.
  apply (@bridged_decryptText_encryptText Toy.platform toy_laws Toy.window
           DEFAULT_CONFIG "invoice 42" "password123" 0%nat);
    [reflexivity | discriminate | discriminate].
Defined.

(** X3. Without the Electron bridge the engine of cryptoEngine.ts cannot
    encrypt, decrypt, derive keys or generate key pairs: each of these fails,
    and the random source is left untouched, while [generateSecureKey] and
    [generateSecureHash] fall back on the browser's Web Crypto when it is
    there; the hash is then SHA-256 whatever algorithm was asked for. *)
Theorem bridged_engine_without_electron `{Platform} (window : Window)
  (config : EncryptionConfig) (text password : string) (g : Rng)
  (r : EncryptionResult) (keySize : JsNumber) (n : nat) :
  electronAPI window = false ->
  text <> EmptyString -> password <> EmptyString ->
  encryptedData r <> EmptyString ->
  CryptoEngine.encryptText window config (JsStr text) password g
    = (Err "Encryption failed: Text encryption not supported in browser environment",
       g)
  /\ CryptoEngine.decryptText window config r password
     = Err "Decryption failed: Text decryption not supported in browser environment"
  /\ CryptoEngine.deriveKey window config password text
     = Err "Failed to derive key from password"
  /\ CryptoEngine.generateKeyPair window keySize g
     = (Err "Failed to generate key pair", g)
  /\ (getRandomValues window = true ->
      CryptoEngine.generateSecureKey window n g
        = (Ok (toString_hex (fst (randomBytes n g))), snd (randomBytes n g)))
  /\ (getRandomValues window = false ->
      CryptoEngine.generateSecureKey window n g
        = (Err "Failed to generate secure key", g))
  /\ (subtle window = true ->
      forall alg,
        CryptoEngine.generateSecureHash window text alg
        = rethrow "Failed to generate hash: " (createHash_hex "sha256" text))
  /\ (subtle window = false ->
      forall alg,
        CryptoEngine.generateSecureHash window text alg
        = Err "Failed to generate hash: Hash generation not supported in this environment").
Proof.
  intros Hw Ht Hp Hr.
  unfold CryptoEngine.encryptText, CryptoEngine.decryptText,
    CryptoEngine.deriveKey, CryptoEngine.generateKeyPair,
    CryptoEngine.generateSecureKey, CryptoEngine.generateSecureHash.
  cbn [js_truthy].
  rewrite Hw, (truthy_true Ht), (truthy_true Hp), (truthy_true Hr).
  do 4 (split; [reflexivity|]).
  split; [|split; [|split]]; intros ->; try reflexivity.
  destruct (randomBytes n g); reflexivity.
Qed.

Lemma bridged_engine_without_electron_witness :
  @CryptoEngine.encryptText Toy.platform
    {| electronAPI := false; getRandomValues := true;
       subtle := true |} DEFAULT_CONFIG
    (JsStr "invoice 42") "password123" 0%nat
  = (Err "Encryption failed: Text encryption not supported in browser environment",
     0%nat).
Proof.
  exact (proj1 (@bridged_engine_without_electron Toy.platform
                  {| electronAPI := false; getRandomValues := true;
       subtle := true |} DEFAULT_CONFIG
                  "invoice 42" "password123" 0%nat
                  {| encryptedData := "00"; iv := ""; salt := ""; tag := None |}
                  (Num 2048) 32 eq_refl
                  ltac:(discriminate) ltac:(discriminate) ltac:(discriminate))).
Defined.

(** X4. Key derivation through the bridge agrees with the engine over
    Node's crypto: for a salt passed as hexadecimal text, the bridged
    [deriveKey] returns the hexadecimal text of the key that the Node engine
    derives from the salt's bytes. *)
Theorem deriveKey_bridge_agrees `{Platform} (window : Window)
  (config : EncryptionConfig) (password : string) (salt : Buffer) :
  electronAPI window = true ->
  CryptoEngine.deriveKey window config password (toString_hex salt)
  = Ok (toString_hex (CryptoEngineNode.deriveKey config password salt)).
Proof.
  intros Hw. unfold CryptoEngine.deriveKey, ElectronMain.handle_deriveKey,
    CryptoEngineNode.deriveKey.
  rewrite Hw. cbn. now rewrite Buffer_from_toString_hex.
Qed.

Lemma deriveKey_bridge_agrees_witness :
  @CryptoEngine.deriveKey Toy.platform Toy.window DEFAULT_CONFIG "password123"
    (toString_hex [x0a; xff])
  = Ok (toString_hex
          (@CryptoEngineNode.deriveKey Toy.platform DEFAULT_CONFIG
             "password123" [x0a; xff])).
Proof.
  exact (@deriveKey_bridge_agrees Toy.platform Toy.window DEFAULT_CONFIG
           "password123" [x0a; xff] eq_refl).
Defined.

Lemma toString_hex_length (buf : Buffer) :
  String.length (toString_hex buf) = 2 * List.length buf.
Proof.
  induction buf as [|b rest IH]; [reflexivity|].
  cbn [toString_hex hex_of_byte append String.length List.length].
  rewrite IH. lia.
Qed.

(** X5. [generateSecureKey(length)] returns [2 * length] hexadecimal
    characters whenever the random source hands out the [length] bytes asked
    for: 64 characters for the default 32-byte key. This holds for the Node
    engine and, with the bridge or Web Crypto present, for the engine of
    cryptoEngine.ts. *)
Theorem generateSecureKey_length `{Platform} (window : Window) (n : nat)
  (g : Rng) :
  List.length (fst (randomBytes n g)) = n ->
  String.length (fst (CryptoEngineNode.generateSecureKey n g)) = 2 * n
  /\ (electronAPI window = true \/ getRandomValues window = true ->
      exists key g',
        CryptoEngine.generateSecureKey window n g = (Ok key, g')
        /\ String.length key = 2 * n
        /\ key = fst (CryptoEngineNode.generateSecureKey n g)).
Proof.
  intros Hlen.
  unfold CryptoEngineNode.generateSecureKey, CryptoEngine.generateSecureKey,
    ElectronMain.handle_randomBytes.
  destruct (randomBytes n g) as [bytes g'] eqn:E. cbn [fst] in *.
  split; [now rewrite toString_hex_length, Hlen|].
  intros Hhost. exists (toString_hex bytes), g'.
  rewrite toString_hex_length, Hlen.
  destruct (electronAPI window); [auto|].
  destruct Hhost as [Hf | ->]; [discriminate | auto].
Qed.

Lemma generateSecureKey_length_witness :
  String.length
    (fst (@CryptoEngineNode.generateSecureKey Toy.platform 32 0%nat)) = 64.
Proof.
  exact (proj1 (@generateSecureKey_length Toy.platform Toy.window 32 0%nat
                  eq_refl)).
Defined.

(* ================================================================== *)
(** * Further properties of the security logger *)
(* ================================================================== *)

(** X6. The log is capped. After [logEvent] the log is the old log with the
    new entry appended, minus entries dropped from the front: it holds
    [min (n + 1) 1000] entries when it held [n], and the new entry, stamped
    with the logger's session id, is the last one. *)
Theorem logEvent_keeps_last_1000 (now : Z) (event : string)
  (status : SecurityLogger.Status)
  (details : list (string * SecurityLogger.Detail))
  (l : SecurityLogger.Logger) :
  let entry := {| SecurityLogger.timestamp := now;
                  SecurityLogger.event := event;
                  SecurityLogger.status := status;
                  SecurityLogger.details := details;
                  SecurityLogger.sessionId := SecurityLogger.session l |} in
  let l' := SecurityLogger.logEvent now event status details l in
  (exists dropped,
     (dropped ++ SecurityLogger.logs l' = SecurityLogger.logs l ++ [entry])%list)
  /\ List.length (SecurityLogger.logs l')
     = Nat.min (List.length (SecurityLogger.logs l) + 1) 1000
  /\ (exists older, SecurityLogger.logs l' = (older ++ [entry])%list)
  /\ SecurityLogger.session l' = SecurityLogger.session l.
Proof.
  intros entry l'. split; [|split; [|split]].
  - subst l'. unfold SecurityLogger.logEvent. cbn [SecurityLogger.logs].
    fold entry. destruct (Nat.ltb 1000 _).
    + eexists. apply firstn_skipn.
    + exists []. reflexivity.
  - subst l'. unfold SecurityLogger.logEvent. cbn [SecurityLogger.logs].
    fold entry. destruct (Nat.ltb 1000 _) eqn:E.
    + apply Nat.ltb_lt in E. rewrite length_skipn.
      rewrite length_app in *. cbn [List.length] in *. lia.
    + apply Nat.ltb_ge in E.
      rewrite length_app in *. cbn [List.length] in *. lia.
  - apply logEvent_appends.
  - reflexivity.
Qed.

Lemma In_filter_by_text (wanted : option string)
  (field : SecurityLogger.LogEntry -> string)
  (l : list SecurityLogger.LogEntry) (e : SecurityLogger.LogEntry) :
  In e (SecurityLogger.filter_by_text wanted field l) <->
  In e l /\ match wanted with
            | Some w => w = EmptyString \/ field e = w
            | None => True
            end.
Proof.
  unfold SecurityLogger.filter_by_text.
  destruct wanted as [w|]; [|tauto].
  destruct w as [|c w'] eqn:Ew.
  - cbn. tauto.
  - rewrite <- Ew. assert (Hne : w <> EmptyString) by (subst; discriminate).
    rewrite (truthy_true Hne), filter_In, String.eqb_eq. tauto.
Qed.

(** X7. [getLogs(filter)] returns exactly the entries of the log that match
    every field the filter gives: the event, the status name, and a
    timestamp at or after [since]. A filter field that is absent or the empty
    string does not restrict anything, and without a filter the whole log is
    returned. *)
Theorem getLogs_exactly (f : SecurityLogger.Filter) (l : SecurityLogger.Logger)
  (e : SecurityLogger.LogEntry) :
  SecurityLogger.getLogs None l = SecurityLogger.logs l
  /\ (In e (SecurityLogger.getLogs (Some f) l) <->
      In e (SecurityLogger.logs l)
      /\ match SecurityLogger.by_event f with
         | Some w => w = EmptyString \/ SecurityLogger.event e = w
         | None => True
         end
      /\ match SecurityLogger.by_status f with
         | Some w =>
             w = EmptyString
             \/ SecurityLogger.status_name (SecurityLogger.status e) = w
         | None => True
         end
      /\ match SecurityLogger.since f with
         | Some d => (d <= SecurityLogger.timestamp e)%Z
         | None => True
         end).
Proof.
  split; [reflexivity|].
  unfold SecurityLogger.getLogs, SecurityLogger.filter_since.
  destruct (SecurityLogger.since f) as [d|].
  - rewrite filter_In, !In_filter_by_text, Z.leb_le. tauto.
  - rewrite !In_filter_by_text. tauto.
Qed.

(* ================================================================== *)
(** * Further properties of the key manager *)
(* ================================================================== *)

(** X9. A successful [initialize]. A password that passes the policy is
    accepted when the index is empty, and otherwise when the first key of
    the index decrypts under it; only that first key is probed. The manager
    then holds the password, the index is untouched, and [ensureInitialized]
    passes. A password that fails the policy is rejected with the policy's
    message and the manager stays as it was. *)
Theorem initialize_accepts `{Platform} (window : Window)
  (s : KeyManager.State) (password : string) :
  (KeyManager.validateMasterPassword password = Ok tt ->
   match KeyManager.keys s with
   | [] => True
   | (_, firstKey) :: _ =>
       exists plain,
         KeyManager.decryptKeyData window (KeyManager.keyData firstKey)
           password = Ok plain
   end ->
   KeyManager.initialize window password s
     = (Ok tt, KeyManager.with_masterPassword (Some password) s)
   /\ KeyManager.ensureInitialized
        (KeyManager.with_masterPassword (Some password) s) = Ok tt)
  /\ (forall m, KeyManager.validateMasterPassword password = Err m ->
      KeyManager.initialize window password s
        = (Err ("Key manager initialization failed: " ++ m), s)).
Proof.
  split.
  - intros Hv Hprobe. pose proof (validateMasterPassword_nonempty Hv) as Hne.
    split; [|apply ensureInitialized_ok with password; auto].
    unfold KeyManager.initialize. rewrite Hv.
    unfold KeyManager.verifyMasterPassword.
    cbn [KeyManager.with_masterPassword KeyManager.keys KeyManager.master
         KeyManager.masterPassword].
    destruct (KeyManager.keys s) as [|[firstId firstKey] rest];
      [reflexivity|].
    destruct Hprobe as [plain ->]. reflexivity.
  - intros m Hv. unfold KeyManager.initialize. now rewrite Hv.
Qed.

Lemma initialize_accepts_witness :
  fst (@KeyManager.initialize Toy.platform Toy.window "Str0ng!Pass1234"
         Examples.reopened) = Ok tt
  /\ fst (@KeyManager.initialize Toy.platform Toy.window "weak"
            Examples.reopened)
     = Err "Key manager initialization failed: Master password must be at least 12 characters long".
Proof.
  destruct (@initialize_accepts Toy.platform Toy.window Examples.reopened
              "Str0ng!Pass1234") as [Hok _].
  destruct (@initialize_accepts Toy.platform Toy.window Examples.reopened
              "weak") as [_ Hbad].
  split.
  - rewrite (proj1 (Hok eq_refl (ex_intro _ "PRIVATE-1" eq_refl))).
    reflexivity.
  - rewrite (Hbad _ eq_refl). reflexivity.
Defined.

(** X10. What [generateAsymmetricKeyPair] stores. When it returns an id,
    the index holds under that id an asymmetric key with the given name,
    purpose and owner, algorithm [RSA-<keySize>], permissions sign and
    decrypt, the public key in the clear, and as [keyData] the JSON text of
    an envelope that decrypts under the master password to the private key;
    every other id of the index is untouched and the index has been
    persisted. *)
Theorem generateAsymmetricKeyPair_stores `{PlatformLaws} (window : Window)
  (name purpose owner : string) (keySize : JsNumber)
  (expirationDays : option Z) (now : Z) (s s' : KeyManager.State)
  (newId : string) :
  KeyManager.generateAsymmetricKeyPair window name purpose owner keySize
    expirationDays now s = (Ok newId, s') ->
  exists storedKey pair envelope,
    Map_get newId (KeyManager.keys s') = Some storedKey
    /\ KeyManager.id storedKey = newId
    /\ KeyManager.name storedKey = name
    /\ KeyManager.type storedKey = KeyManager.asymmetric
    /\ KeyManager.algorithm storedKey = "RSA-" ++ Number_toString keySize
    /\ KeyManager.metadata storedKey
       = {| KeyManager.purpose := purpose; KeyManager.owner := owner;
            KeyManager.permissions := ["sign"; "decrypt"] |}
    /\ KeyManager.createdAt storedKey = Some (DateObject now)
    /\ KeyManager.expiresAt storedKey = KeyManager.expiry expirationDays now
    /\ KeyManager.publicKey storedKey = Some (CryptoTypes.publicKey pair)
    /\ KeyManager.keyData storedKey = JSON_stringify_result envelope
    /\ CryptoEngine.decryptText window DEFAULT_CONFIG envelope
         (KeyManager.master s) = Ok (privateKey pair)
    /\ (forall other, other <> newId ->
          Map_get other (KeyManager.keys s')
          = Map_get other (KeyManager.keys s))
    /\ KeyManager.localStorage s'
         = Some (KeyManager.entries_toJSON (KeyManager.keys s'))
    /\ KeyManager.masterPassword s' = KeyManager.masterPassword s.
Proof.
  unfold KeyManager.generateAsymmetricKeyPair.
  destruct (KeyManager.ensureInitialized s); [|discriminate].
  destruct (KeyManager.generateKeyId now (KeyManager.rng s)) as [keyId g1].
  destruct (CryptoEngine.generateKeyPair window keySize g1)
    as [[[pub priv]|m] g2]; [|discriminate].
  destruct (CryptoEngine.encryptText window DEFAULT_CONFIG (JsStr priv)
              (KeyManager.master s) g2) as [[envelope|m] g3] eqn:Henc;
    [|discriminate].
  intros E. inversion E; subst newId s'. clear E.
  eexists. exists {| CryptoTypes.publicKey := pub; privateKey := priv |}, envelope.
  cbn [KeyManager.saveKeysToStorage KeyManager.with_keys KeyManager.with_rng
       KeyManager.keys KeyManager.localStorage KeyManager.masterPassword].
  rewrite Map_get_set_same.
  split; [reflexivity|]. cbn.
  repeat (split; [reflexivity|]).
  split; [eapply CryptoEngine_decryptText_encryptText; exact Henc|].
  split; [|auto].
  intros other Hne. now apply Map_get_set_other.
Qed.

Lemma generateAsymmetricKeyPair_stores_witness :
  exists storedKey,
    Map_get Examples.signing_key_id (KeyManager.keys Examples.with_signing_key)
      = Some storedKey
    /\ KeyManager.algorithm storedKey = "RSA-2048"
    /\ KeyManager.publicKey storedKey = Some "PUBLIC-1".
Proof.
  destruct (@generateAsymmetricKeyPair_stores Toy.platform toy_laws Toy.window
              "signing" "invoices" "alice" (Num 2048) (Some 1%Z) Examples.t0
              Examples.unlocked Examples.with_signing_key
              Examples.signing_key_id eq_refl)
    as [storedKey [pair [envelope [Hget [_ [_ [_ [Halg _]]]]]]]].
  exists storedKey. split; [exact Hget|]. split; [exact Halg|].
  vm_compute in Hget. inversion Hget. reflexivity.
Defined.

Lemma generateSymmetricKey_leaves_index `{Platform} (window : Window)
  (name purpose owner : string) (expirationDays : option Z) (now : Z)
  (s : KeyManager.State) :
  let out := KeyManager.generateSymmetricKey window name purpose owner
               expirationDays now s in
  (exists m, fst out = Err m)
  /\ KeyManager.keys (snd out) = KeyManager.keys s
  /\ KeyManager.localStorage (snd out) = KeyManager.localStorage s
  /\ KeyManager.masterPassword (snd out) = KeyManager.masterPassword s.
Proof.
  cbv zeta. unfold KeyManager.generateSymmetricKey.
  destruct (KeyManager.ensureInitialized s); [|cbn; eauto].
  destruct (KeyManager.generateKeyId now (KeyManager.rng s)) as [keyId g1].
  destruct (CryptoEngine.generateSecureKey window _ g1) as [settled g2].
  unfold CryptoEngine.encryptText. cbn [js_truthy structuredClone negb orb].
  destruct (negb (truthy (KeyManager.master s))); [cbn; eauto|].
  destruct (electronAPI window); cbn; eauto.
Qed.

(** X11. [generateSymmetricKey] never stores a key. It passes to
    [encryptText] the promise returned by the [async] [generateSecureKey],
    which it does not await; the bridge cannot send a promise, and without
    the bridge the engine cannot encrypt. So in every state and for every
    argument the call fails, and the index, the persisted index and the
    master password are as before. *)
Theorem generateSymmetricKey_never_stores `{Platform} (window : Window)
  (name purpose owner : string) (expirationDays : option Z) (now : Z)
  (s : KeyManager.State) :
  (exists m,
     fst (KeyManager.generateSymmetricKey window name purpose owner
            expirationDays now s) = Err m)
  /\ KeyManager.keys
       (snd (KeyManager.generateSymmetricKey window name purpose owner
               expirationDays now s)) = KeyManager.keys s
  /\ KeyManager.localStorage
       (snd (KeyManager.generateSymmetricKey window name purpose owner
               expirationDays now s)) = KeyManager.localStorage s
  /\ (KeyManager.ensureInitialized s = Ok tt ->
      electronAPI window = true ->
      fst (KeyManager.generateSymmetricKey window name purpose owner
             expirationDays now s)
      = Err "Failed to generate symmetric key: Encryption failed: An object could not be cloned.").
Proof.
  pose proof (generateSymmetricKey_leaves_index window name purpose owner
                expirationDays now s) as [He [Hk [Hl _]]].
  split; [exact He|]. split; [exact Hk|]. split; [exact Hl|].
  intros Hi Hw. unfold KeyManager.generateSymmetricKey. rewrite Hi.
  destruct (KeyManager.generateKeyId now (KeyManager.rng s)) as [keyId g1].
  destruct (CryptoEngine.generateSecureKey window _ g1) as [settled g2].
  unfold CryptoEngine.encryptText. cbn [js_truthy structuredClone negb orb].
  assert (Ht : truthy (KeyManager.master s) = true).
  { unfold KeyManager.ensureInitialized, KeyManager.master in *.
    destruct (KeyManager.masterPassword s) as [p|]; [|discriminate].
    destruct (truthy p); [reflexivity | discriminate]. }
  rewrite Ht, Hw. reflexivity.
Qed.

(** X12. [deleteKey] in an initialised manager. A missing id fails with
    "Key not found" and changes nothing, so deleting twice fails the second
    time. A present id is removed: the index no longer has it, [getKey] of
    it reports "Key not found", every other id keeps its key, and the index
    is persisted. *)
Theorem deleteKey_removes `{Platform} (window : Window) (keyId : string)
  (now : Z) (s : KeyManager.State) :
  KeyManager.ensureInitialized s = Ok tt ->
  (Map_get keyId (KeyManager.keys s) = None ->
   KeyManager.deleteKey keyId s
     = (Err "Failed to delete key: Key not found", s))
  /\ (Map_get keyId (KeyManager.keys s) <> None ->
      let s' := snd (KeyManager.deleteKey keyId s) in
      fst (KeyManager.deleteKey keyId s) = Ok tt
      /\ Map_get keyId (KeyManager.keys s') = None
      /\ (forall other, other <> keyId ->
            Map_get other (KeyManager.keys s')
            = Map_get other (KeyManager.keys s))
      /\ KeyManager.localStorage s'
         = Some (KeyManager.entries_toJSON (KeyManager.keys s'))
      /\ KeyManager.getKey window keyId now s'
         = Err "Failed to retrieve key: Key not found"
      /\ fst (KeyManager.deleteKey keyId s')
         = Err "Failed to delete key: Key not found").
Proof.
  intros Hi. unfold KeyManager.deleteKey at 1 2 3. rewrite Hi. split.
  - intros ->. reflexivity.
  - destruct (Map_get keyId (KeyManager.keys s)) as [k|] eqn:Hget;
      [intros _ | congruence].
    cbn [fst snd KeyManager.saveKeysToStorage KeyManager.with_keys
         KeyManager.keys KeyManager.localStorage].
    split; [reflexivity|].
    split; [apply Map_get_delete_same|].
    split; [intros other Hne; now apply Map_get_delete_other|].
    split; [reflexivity|].
    assert (Hi' : KeyManager.ensureInitialized
                    (KeyManager.saveKeysToStorage
                       (KeyManager.with_keys
                          (Map_delete keyId (KeyManager.keys s)) s)) = Ok tt)
      by exact Hi.
    unfold KeyManager.getKey, KeyManager.deleteKey. rewrite Hi'.
    cbn [bind KeyManager.saveKeysToStorage KeyManager.with_keys
         KeyManager.keys].
    rewrite Map_get_delete_same. split; reflexivity.
Qed.

Lemma deleteKey_removes_witness :
  let s' := snd (@KeyManager.deleteKey Toy.platform Examples.signing_key_id
                   Examples.with_signing_key) in
  fst (@KeyManager.deleteKey Toy.platform Examples.signing_key_id
         Examples.with_signing_key) = Ok tt
  /\ @KeyManager.getKey Toy.platform Toy.window Examples.signing_key_id
       Examples.t0 s'
     = Err "Failed to retrieve key: Key not found".
Proof.
  destruct (proj2 (@deleteKey_removes Toy.platform Toy.window
                     Examples.signing_key_id Examples.t0
                     Examples.with_signing_key eq_refl))
    as [Hok [_ [_ [_ [Hget _]]]]].
  - vm_compute. discriminate.
  - split; [exact Hok | exact Hget].
Defined.

(* ------------------------------------------------------------------ *)
(** ** Import *)

Lemma import_each_keeps (incoming : list KeyManager.StoredKey)
  (ks : list (string * KeyManager.StoredKey)) (keyId : string)
  (k : KeyManager.StoredKey) :
  Map_get keyId ks = Some k ->
  Map_get keyId (KeyManager.import_each incoming ks) = Some k.
Proof.
  revert ks. induction incoming as [|key rest IH]; intros ks Hget; cbn;
    [exact Hget|].
  unfold Map_has. destruct (Map_get (KeyManager.id key) ks) eqn:Hin; cbn.
  - now apply IH.
  - apply IH. rewrite Map_get_set_other; [exact Hget|].
    intros ->. congruence.
Qed.

Lemma import_each_adds (incoming : list KeyManager.StoredKey)
  (ks : list (string * KeyManager.StoredKey)) (key : KeyManager.StoredKey) :
  In key incoming ->
  Map_get (KeyManager.id key) (KeyManager.import_each incoming ks) <> None.
Proof.
  revert ks. induction incoming as [|first rest IH]; intros ks Hin;
    [destruct Hin|].
  cbn. unfold Map_has.
  destruct Hin as [-> | Hin].
  - destruct (Map_get (KeyManager.id key) ks) as [k|] eqn:Hget; cbn.
    + now rewrite (import_each_keeps rest ks _ Hget).
    + now rewrite (import_each_keeps rest _ _
                     (Map_get_set_same (KeyManager.id key) key ks)).
  - destruct (Map_get (KeyManager.id first) ks); cbn; now apply IH.
Qed.

Lemma import_each_only (incoming : list KeyManager.StoredKey)
  (ks : list (string * KeyManager.StoredKey)) (keyId : string) :
  Map_get keyId (KeyManager.import_each incoming ks) <> None ->
  Map_get keyId ks <> None
  \/ exists key, In key incoming /\ KeyManager.id key = keyId.
Proof.
  revert ks. induction incoming as [|first rest IH]; intros ks Hget;
    [now left|].
  cbn in Hget. unfold Map_has in Hget.
  destruct (Map_get (KeyManager.id first) ks) eqn:Hfirst; cbn in Hget.
  - destruct (IH _ Hget) as [Hl | [key [Hin Hid]]]; [now left|].
    right. exists key. split; [now right | exact Hid].
  - destruct (IH _ Hget) as [Hl | [key [Hin Hid]]].
    + destruct (String.eqb_spec keyId (KeyManager.id first)) as [->|Hne].
      * right. exists first. split; [now left | reflexivity].
      * left. now rewrite Map_get_set_other in Hl.
    + right. exists key. split; [now right | exact Hid].
Qed.

(** X13. [importKeys] is additive. In an initialised manager, for an export
    text that parses to a version and a list of keys: the call succeeds,
    every id that had a key keeps exactly that key (an incoming key with a
    known id is skipped, never written over), every incoming key's id has a
    key afterwards, no other id appears, and the index is persisted. A text
    without version or without keys is rejected as "Invalid export format"
    and changes nothing. *)
Theorem importKeys_additive `{Platform} `{KeyManager.ExportCodec}
  (exportData : string) (s : KeyManager.State)
  (data : KeyManager.ParsedExport) :
  KeyManager.ensureInitialized s = Ok tt ->
  KeyManager.JSON_parse_export exportData = Ok data ->
  match KeyManager.parsed_version data, KeyManager.parsed_keys data with
  | Some v, Some incoming =>
      v <> EmptyString ->
      let s' := snd (KeyManager.importKeys exportData s) in
      fst (KeyManager.importKeys exportData s) = Ok tt
      /\ (forall keyId k, Map_get keyId (KeyManager.keys s) = Some k ->
            Map_get keyId (KeyManager.keys s') = Some k)
      /\ (forall key, In key incoming ->
            Map_get (KeyManager.id key) (KeyManager.keys s') <> None)
      /\ (forall keyId, Map_get keyId (KeyManager.keys s') <> None ->
            Map_get keyId (KeyManager.keys s) <> None
            \/ exists key, In key incoming /\ KeyManager.id key = keyId)
      /\ KeyManager.localStorage s'
         = Some (KeyManager.entries_toJSON (KeyManager.keys s'))
  | _, _ =>
      KeyManager.importKeys exportData s
        = (Err "Failed to import keys: Invalid export format", s)
  end.
Proof.
  intros Hi Hparse. unfold KeyManager.importKeys. rewrite Hi, Hparse.
  destruct (KeyManager.parsed_version data) as [v|]; [|reflexivity].
  destruct (KeyManager.parsed_keys data) as [incoming|]; [|reflexivity].
  intros Hv. rewrite (truthy_true Hv).
  cbn [fst snd KeyManager.saveKeysToStorage KeyManager.with_keys
       KeyManager.keys KeyManager.localStorage].
  split; [reflexivity|].
  split; [intros keyId k; apply import_each_keeps|].
  split.
  { intros key Hin.
    change (KeyManager.id key) with (KeyManager.id (KeyManager.toJSON key)).
    apply import_each_adds. now apply in_map. }
  split; [|reflexivity].
  intros keyId Hget.
  destruct (import_each_only _ _ _ Hget) as [Hl | [parsed [Hin Hid]]];
    [now left|].
  apply in_map_iff in Hin as [key [<- Hin]].
  right. exists key. split; [exact Hin | exact Hid].
Qed.

Lemma importKeys_additive_witness :
  let s' := snd (@KeyManager.importKeys Toy.platform Toy.key_export_codec
                   Examples.exported_keys Examples.unlocked) in
  fst (@KeyManager.importKeys Toy.platform Toy.key_export_codec
         Examples.exported_keys Examples.unlocked) = Ok tt
  /\ Map_get Examples.signing_key_id (KeyManager.keys s')
     = option_map KeyManager.toJSON
         (Map_get Examples.signing_key_id
            (KeyManager.keys Examples.with_signing_key)).
Proof.
  pose proof (@importKeys_additive Toy.platform Toy.key_export_codec
                Examples.exported_keys Examples.unlocked
                {| KeyManager.parsed_version := Some "1.0";
                   KeyManager.parsed_keys :=
                     Some (map KeyManager.toJSON
                             (Map_values
                                (KeyManager.keys Examples.with_signing_key))) |}
                eq_refl eq_refl) as W.
  cbn [KeyManager.parsed_version KeyManager.parsed_keys] in W.
  destruct (W ltac:(discriminate)) as [Hok _].
  split; [exact Hok | reflexivity].
Defined.

(* ------------------------------------------------------------------ *)
(** ** Changing the master password *)

Lemma Map_set_present_ids (V : Type) (k : string) (v : V)
  (m : list (string * V)) :
  In k (map fst m) -> map fst (Map_set k v m) = map fst m.
Proof.
  induction m as [|[k' v'] rest IH]; cbn; [tauto|].
  intros Hin. destruct (String.eqb_spec k' k) as [->|Hne]; cbn.
  - reflexivity.
  - f_equal. apply IH. destruct Hin; [congruence | assumption].
Qed.

Lemma reencrypt_preserves `{Platform} (window : Window)
  (entries : list (string * KeyManager.StoredKey))
  (oldPassword newPassword : string) (s s1 : KeyManager.State)
  (r : Result unit) :
  incl (map fst entries) (map fst (KeyManager.keys s)) ->
  KeyManager.reencrypt window entries oldPassword newPassword s = (r, s1) ->
  KeyManager.masterPassword s1 = KeyManager.masterPassword s
  /\ map fst (KeyManager.keys s1) = map fst (KeyManager.keys s)
  /\ KeyManager.localStorage s1 = KeyManager.localStorage s.
Proof.
  revert s. induction entries as [|[keyId storedKey] rest IH];
    intros s Hincl E; cbn in E.
  - inversion E; subst. auto.
  - destruct (KeyManager.decryptKeyData window _ oldPassword);
      [|inversion E; subst; auto].
    destruct (CryptoEngine.encryptText window DEFAULT_CONFIG _ newPassword _)
      as [[reEncrypted|m] g]; [|inversion E; subst; auto].
    assert (Hids : map fst (Map_set keyId
                     {| KeyManager.id := KeyManager.id storedKey;
                        KeyManager.name := KeyManager.name storedKey;
                        KeyManager.type := KeyManager.type storedKey;
                        KeyManager.algorithm := KeyManager.algorithm storedKey;
                        KeyManager.keyData := JSON_stringify_result reEncrypted;
                        KeyManager.publicKey := KeyManager.publicKey storedKey;
                        KeyManager.createdAt := KeyManager.createdAt storedKey;
                        KeyManager.expiresAt := KeyManager.expiresAt storedKey;
                        KeyManager.metadata := KeyManager.metadata storedKey |}
                     (KeyManager.keys s))
                   = map fst (KeyManager.keys s)).
    { apply Map_set_present_ids. apply Hincl. now left. }
    apply IH in E.
    + cbn [KeyManager.with_keys KeyManager.with_rng KeyManager.keys
           KeyManager.masterPassword KeyManager.localStorage] in E.
      rewrite Hids in E. exact E.
    + cbn [KeyManager.with_keys KeyManager.with_rng KeyManager.keys].
      rewrite Hids. intros x Hx. apply Hincl. now right.
Qed.

(** X14. [changeMasterPassword]. If the given current password is not the
    one the manager holds, or the new one fails the policy, the call fails
    and nothing changes. Otherwise the keys are re-encrypted in turn: when
    that fails the manager still holds the old password, and when it
    succeeds the manager holds the new password, the index has the same ids
    in the same order, and it has been persisted. *)
Theorem changeMasterPassword_outcomes `{Platform} (window : Window)
  (oldPassword newPassword : string) (s : KeyManager.State) :
  let out := KeyManager.changeMasterPassword window oldPassword newPassword s in
  (KeyManager.masterPassword s <> Some oldPassword ->
   out = (Err "Failed to change master password: Invalid current master password",
          s))
  /\ (forall m, KeyManager.validateMasterPassword newPassword = Err m ->
      KeyManager.masterPassword s = Some oldPassword ->
      out = (Err ("Failed to change master password: " ++ m), s))
  /\ (forall m, fst out = Err m ->
      KeyManager.masterPassword (snd out) = KeyManager.masterPassword s)
  /\ (fst out = Ok tt ->
      KeyManager.masterPassword s = Some oldPassword
      /\ KeyManager.masterPassword (snd out) = Some newPassword
      /\ map fst (KeyManager.keys (snd out)) = map fst (KeyManager.keys s)
      /\ KeyManager.localStorage (snd out)
         = Some (KeyManager.entries_toJSON (KeyManager.keys (snd out)))).
Proof.
  cbv zeta. unfold KeyManager.changeMasterPassword, KeyManager.same_password.
  destruct (KeyManager.masterPassword s) as [p|] eqn:Hm.
  - destruct (String.eqb_spec p oldPassword) as [->|Hne]; cbn [negb].
    + destruct (KeyManager.validateMasterPassword newPassword) as [[]|mv].
      * destruct (KeyManager.reencrypt window (KeyManager.keys s) oldPassword
                    newPassword s) as [[[]|mr] s1] eqn:E;
          apply reencrypt_preserves in E; try apply incl_refl;
          destruct E as [E1 [E2 E3]]; cbn [fst snd];
          (split; [congruence|]); (split; [discriminate|]).
        -- split; [discriminate|]. intros _.
           cbn [KeyManager.saveKeysToStorage KeyManager.with_masterPassword
                KeyManager.keys KeyManager.masterPassword
                KeyManager.localStorage]. auto.
        -- split; [intros; congruence | discriminate].
      * cbn [fst snd]. split; [congruence|].
        split; [intros m Hv; congruence|].
        split; [auto | discriminate].
    + cbn [fst snd]. split; [reflexivity|].
      split; [intros m _ Hp; congruence|].
      split; [auto | discriminate].
  - cbn [negb fst snd]. split; [reflexivity|].
    split; [discriminate|]. split; [auto | discriminate].
Qed.

(* ------------------------------------------------------------------ *)
(** ** Rotation *)

(** X15. Rotating a key that has not expired. When [rotateKey] returns an
    id other than the one rotated, the index holds under it a key with the
    old key's name, purpose and owner, and the old id is gone. The new key
    expires a whole number of days after the time at which the replacement
    is generated; that number is positive and is the time that remained to
    the old key when [rotateKey] read the clock, rounded up to days. So the
    new key expires no earlier than the old one, and later than it by less
    than a day and the time that passed between the two readings of the
    clock. *)
Theorem rotateKey_live_key `{Platform} (window : Window)
  (keyId newId : string) (now later e : Z) (s s' : KeyManager.State)
  (oldKey : KeyManager.StoredKey) :
  Map_get keyId (KeyManager.keys s) = Some oldKey ->
  KeyManager.expiresAt oldKey = Some (DateObject e) ->
  (now < e)%Z ->
  (now <= later)%Z ->
  KeyManager.rotateKey window keyId now later s = (Ok newId, s') ->
  newId <> keyId ->
  exists newKey days,
    Map_get newId (KeyManager.keys s') = Some newKey
    /\ KeyManager.name newKey = KeyManager.name oldKey
    /\ KeyManager.purpose (KeyManager.metadata newKey)
       = KeyManager.purpose (KeyManager.metadata oldKey)
    /\ KeyManager.owner (KeyManager.metadata newKey)
       = KeyManager.owner (KeyManager.metadata oldKey)
    /\ KeyManager.expiresAt newKey = Some (new_Date (later + days * DAY_MS))
    /\ (0 < days)%Z
    /\ (e - now <= days * DAY_MS < e - now + DAY_MS)%Z
    /\ (e <= later + days * DAY_MS < e + DAY_MS + (later - now))%Z
    /\ Map_get keyId (KeyManager.keys s') = None.
Proof.
  intros Hget He Hlt Hlater Hrot Hfresh.
  destruct (@rotateKey_result _ window keyId newId now later s s' oldKey
              Hget Hrot Hfresh)
    as [newKey [days [Hnew [Hn [Hp [Ho [Hdays [Hexp Hold]]]]]]]].
  unfold KeyManager.remainingDays in Hdays. rewrite He in Hdays.
  inversion Hdays; subst days. clear Hdays.
  exists newKey, (ceil_div (e - now) DAY_MS).
  pose proof (ceil_div_bounds (e - now)) as Hb.
  assert (Hpos : (0 < ceil_div (e - now) DAY_MS)%Z)
    by (unfold DAY_MS in *; lia).
  repeat (split; [assumption|]).
  split.
  - rewrite Hexp. unfold KeyManager.expiry.
    destruct (Z.eqb_spec (ceil_div (e - now) DAY_MS) 0); [lia|].
    reflexivity.
  - split; [exact Hpos|]. split; [exact Hb|]. split; [lia | exact Hold].
Qed.

Lemma rotateKey_live_key_witness :
  exists newKey s',
    @KeyManager.rotateKey Toy.platform Toy.window Examples.signing_key_id
      (Examples.t0 + Examples.HOUR_MS) (Examples.t0 + Examples.HOUR_MS + 250)
      Examples.with_signing_key
      = (Ok "key_1700003600250_r4", s')
    /\ Map_get "key_1700003600250_r4" (KeyManager.keys s') = Some newKey
    /\ KeyManager.expiresAt newKey
       = Some (DateObject (Examples.t0 + Examples.HOUR_MS + 250 + DAY_MS))
    /\ Map_get Examples.signing_key_id (KeyManager.keys s') = None.
Proof.
  destruct (@rotateKey_live_key Toy.platform Toy.window
              Examples.signing_key_id "key_1700003600250_r4"
              (Examples.t0 + Examples.HOUR_MS)%Z
              (Examples.t0 + Examples.HOUR_MS + 250)%Z
              (Examples.t0 + DAY_MS)%Z
              Examples.with_signing_key _ _
              eq_refl eq_refl eq_refl ltac:(vm_compute; discriminate)
              eq_refl ltac:(discriminate))
    as [newKey [days [Hnew [_ [_ [_ [Hexp [_ [_ [_ Hold]]]]]]]]]].
  exists newKey. eexists. split; [reflexivity|].
  split; [exact Hnew|]. split; [|exact Hold].
  vm_compute in Hnew. inversion Hnew. reflexivity.
Defined.

(** X16. A rotation that fails keeps the old key. In an initialised manager
    [rotateKey] of an id that is not in the index fails with "Key not found"
    and changes nothing; and [rotateKey] of a symmetric key always fails,
    because generating the replacement does, leaving the index with the old
    key exactly as it was. *)
Theorem rotateKey_failure_keeps_key `{Platform} (window : Window)
  (keyId : string) (now later : Z) (s : KeyManager.State) :
  KeyManager.ensureInitialized s = Ok tt ->
  (Map_get keyId (KeyManager.keys s) = None ->
   KeyManager.rotateKey window keyId now later s
     = (Err "Failed to rotate key: Key not found", s))
  /\ (forall oldKey,
        Map_get keyId (KeyManager.keys s) = Some oldKey ->
        KeyManager.type oldKey = KeyManager.symmetric ->
        (exists m,
           fst (KeyManager.rotateKey window keyId now later s) = Err m)
        /\ KeyManager.keys (snd (KeyManager.rotateKey window keyId now later s))
           = KeyManager.keys s
        /\ KeyManager.localStorage
             (snd (KeyManager.rotateKey window keyId now later s))
           = KeyManager.localStorage s).
Proof.
  intros Hi. unfold KeyManager.rotateKey. rewrite Hi. split.
  - intros ->. reflexivity.
  - intros oldKey -> ->.
    destruct (KeyManager.remainingDays oldKey now) as [days|m0];
      [|cbn [fst snd]; eauto].
    pose proof (generateSymmetricKey_leaves_index window
                  (KeyManager.name oldKey)
                  (KeyManager.purpose (KeyManager.metadata oldKey))
                  (KeyManager.owner (KeyManager.metadata oldKey))
                  days later s)
      as [[m Hm] [Hk [Hl _]]].
    destruct (KeyManager.generateSymmetricKey _ _ _ _ _ _ _)
      as [generated s1].
    cbn [fst snd] in *. subst generated. cbn [fst snd]. eauto.
Qed.

Lemma rotateKey_failure_keeps_key_witness :
  @KeyManager.rotateKey Toy.platform Toy.window "key_0_none" Examples.t0
    (Examples.t0 + 250) Examples.with_signing_key
  = (Err "Failed to rotate key: Key not found", Examples.with_signing_key).
Proof.
  exact (proj1 (@rotateKey_failure_keeps_key Toy.platform Toy.window
                  "key_0_none" Examples.t0 (Examples.t0 + 250)%Z
                  Examples.with_signing_key eq_refl)
           eq_refl).
Defined.

(** X30. Rotating a key of the persisted index. After a restart a key that
    has an [expiresAt] carries the text of the date, and [rotateKey] calls
    [getTime] on it: the call throws, so the rotation fails and the manager
    is left as it was, with the old key in place. A key without [expiresAt]
    is not affected. *)
Theorem rotateKey_reloaded_key_fails `{Platform} (window : Window)
  (keyId : string) (now later t : Z) (s : KeyManager.State)
  (oldKey : KeyManager.StoredKey) :
  KeyManager.ensureInitialized s = Ok tt ->
  Map_get keyId (KeyManager.keys s) = Some oldKey ->
  KeyManager.expiresAt oldKey = Some (IsoString t) ->
  KeyManager.rotateKey window keyId now later s
    = (Err "Failed to rotate key: oldKey.expiresAt.getTime is not a function",
       s).
Proof.
  intros Hi Hget He. unfold KeyManager.rotateKey, KeyManager.remainingDays.
  rewrite Hi, Hget, He. now destruct (KeyManager.type oldKey).
Qed.

Lemma rotateKey_reloaded_key_fails_witness :
  let restarted :=
    snd (@KeyManager.initialize Toy.platform Toy.window "Str0ng!Pass1234"
           Examples.reopened) in
  @KeyManager.rotateKey Toy.platform Toy.window Examples.signing_key_id
    (Examples.t0 + Examples.HOUR_MS) (Examples.t0 + Examples.HOUR_MS + 250)
    restarted
  = (Err "Failed to rotate key: oldKey.expiresAt.getTime is not a function",
     restarted).
Proof.
  cbv zeta.
  eapply (@rotateKey_reloaded_key_fails Toy.platform Toy.window);
    reflexivity.
Defined.

(* ================================================================== *)
(** * Further properties of the engines: the random draws *)
(* ================================================================== *)

Lemma toString_hex_inj (a b : Buffer) :
  toString_hex a = toString_hex b -> a = b.
Proof.
  intros E. rewrite <- (Buffer_from_toString_hex a), E.
  apply Buffer_from_toString_hex.
Qed.

(** X31. What [encryptText] does with the random source. For a non-empty
    plaintext and password, the engine over Node's crypto module and the
    IPC handler return the same envelope; its salt and iv are the
    hexadecimal text of two draws made in this call, the salt first and the
    iv from the state that draw leaves, and the source is left advanced
    past both: nothing is kept from one call to the next. Hence two calls
    return equal salts exactly when the source handed them the same salt
    bytes, and equal ivs exactly when it handed them the same iv bytes. *)
Theorem encryptText_draws_salt_then_iv `{Platform} (config : EncryptionConfig)
  (plaintext password : string) (g : Rng) :
  plaintext <> EmptyString -> password <> EmptyString ->
  exists r,
    CryptoEngineNode.encryptText config plaintext password g
      = (Ok r, after_draws config g)
    /\ ElectronMain.handle_encryptText plaintext password config g
       = (Ok r, after_draws config g)
    /\ salt r = toString_hex (salt_draw config g)
    /\ iv r = toString_hex (iv_draw config g)
    /\ forall plaintext' password' g' h' r',
         CryptoEngineNode.encryptText config plaintext' password' g'
           = (Ok r', h')
         \/ ElectronMain.handle_encryptText plaintext' password' config g'
            = (Ok r', h') ->
         (salt r = salt r' <-> salt_draw config g = salt_draw config g')
         /\ (iv r = iv r' <-> iv_draw config g = iv_draw config g').
Proof.
  intros Ht Hp.
  assert (Hdraws : forall plaintext' password' g' h' r',
            CryptoEngineNode.encryptText config plaintext' password' g'
              = (Ok r', h')
            \/ ElectronMain.handle_encryptText plaintext' password' config g'
               = (Ok r', h') ->
            salt r' = toString_hex (salt_draw config g')
            /\ iv r' = toString_hex (iv_draw config g')).
  { intros plaintext' password' g' h' r'.
    unfold CryptoEngineNode.encryptText, CryptoEngineNode.deriveKey,
      ElectronMain.handle_encryptText, salt_draw, iv_draw.
    destruct (negb (truthy plaintext') || negb (truthy password'));
      destruct (randomBytes (saltLength config) g') as [s1 g1]; cbn [fst snd];
      destruct (randomBytes (ivLength config) g1) as [v1 g2]; cbn [fst snd];
      destruct (cipher_run _ _ _ _) as [encrypted authTag];
      intros [E | E]; inversion E; subst; cbn; auto. }
  unfold CryptoEngineNode.encryptText, CryptoEngineNode.deriveKey,
    ElectronMain.handle_encryptText, salt_draw, iv_draw, after_draws in *.
  rewrite (truthy_true Ht), (truthy_true Hp). cbn [negb orb].
  destruct (randomBytes (saltLength config) g) as [s0 g1]. cbn [fst snd] in *.
  destruct (randomBytes (ivLength config) g1) as [v0 g2]. cbn [fst snd] in *.
  destruct (cipher_run _ _ _ _) as [encrypted authTag].
  eexists. split; [reflexivity|]. split; [reflexivity|].
  cbn [salt iv]. split; [reflexivity|]. split; [reflexivity|].
  intros plaintext' password' g' h' r' Hcall.
  destruct (Hdraws _ _ _ _ _ Hcall) as [-> ->].
  split; (split; [apply toString_hex_inj | intros ->; reflexivity]).
Qed.

(** Two calls in a row on the small platform, whose source is a counter:
    the second call starts from the state the first one left, and the two
    envelopes differ in salt and in iv. *)
Lemma encryptText_draws_salt_then_iv_witness :
  exists r r',
    @CryptoEngineNode.encryptText Toy.platform DEFAULT_CONFIG
      "invoice 42" "password123" 0%nat = (Ok r, 2%nat)
    /\ @CryptoEngineNode.encryptText Toy.platform DEFAULT_CONFIG
         "invoice 42" "password123" 2%nat = (Ok r', 4%nat)
    /\ salt r <> salt r' /\ iv r <> iv r'.
Proof.
  destruct (@encryptText_draws_salt_then_iv Toy.platform DEFAULT_CONFIG
              "invoice 42" "password123" 0%nat
              ltac:(discriminate) ltac:(discriminate))
    as [r [Hcall [_ [_ [_ Hsame]]]]].
  exists r. eexists. split; [exact Hcall|]. split; [reflexivity|].
  destruct (Hsame "invoice 42" "password123" 2%nat 4%nat _
              (or_introl eq_refl)) as [Hsalt Hiv].
  split; intros E; [apply Hsalt in E | apply Hiv in E];
    vm_compute in E; discriminate E.
Defined.

(* ================================================================== *)
(** * Further properties of the secure storage *)
(* ================================================================== *)

Lemma fullKey_inj (a b : string) :
  SecureStorage.fullKey a = SecureStorage.fullKey b -> a = b.
Proof.
  unfold SecureStorage.fullKey, SecureStorage.storageKey. cbn.
  intros E. now inversion E.
Qed.

Lemma Map_get_In (V : Type) (k : string) (m : list (string * V)) :
  Map_get k m <> None <-> In k (map fst m).
Proof.
  induction m as [|[k' v] rest IH]; cbn; [tauto|].
  destruct (String.eqb_spec k' k) as [->|Hne].
  - split; [auto | discriminate].
  - rewrite IH. split; [auto | intros [E|Hin]; [congruence | exact Hin]].
Qed.

Lemma startsWith_append (p k : string) :
  startsWith (p ++ k) p = true
  /\ substring_from (String.length p) (p ++ k) = k.
Proof.
  induction p as [|c p IH]; cbn.
  - destruct k; split; reflexivity.
  - rewrite Ascii.eqb_refl. exact IH.
Qed.

Lemma startsWith_split (s p : string) :
  startsWith s p = true -> s = p ++ substring_from (String.length p) s.
Proof.
  revert s. induction p as [|c p IH]; intros s.
  - now destruct s.
  - destruct s as [|d s]; cbn; [discriminate|].
    intros Hs. apply andb_true_iff in Hs as [Hc Hs].
    apply Ascii.eqb_eq in Hc. subst d. f_equal. now apply IH.
Qed.

(** X17. [listKeys] of the secure storage returns exactly the keys [k] for
    which [localStorage] has an entry named
    [zenithbill_secure_storage_k]: entries of other names are not listed,
    and the prefix is stripped. *)
Theorem storage_listKeys_exactly `{Platform} (s : SecureStorage.State)
  (key : string) :
  In key (SecureStorage.listKeys s) <->
  Map_get (SecureStorage.fullKey key) (SecureStorage.localStorage s) <> None.
Proof.
  rewrite Map_get_In. unfold SecureStorage.listKeys.
  rewrite in_flat_map. split.
  - intros [name [Hin Hk]].
    destruct (truthy name && startsWith name (SecureStorage.storageKey ++ "_"))
      eqn:Hc; [|destruct Hk].
    apply andb_true_iff in Hc as [_ Hs]. apply startsWith_split in Hs.
    destruct Hk as [<-|[]].
    assert (E : SecureStorage.fullKey
                  (substring_from
                     (String.length (SecureStorage.storageKey ++ "_")) name)
                = name) by (symmetry; exact Hs).
    now rewrite E.
  - intros Hin. exists (SecureStorage.fullKey key). split; [exact Hin|].
    unfold SecureStorage.fullKey.
    destruct (startsWith_append (SecureStorage.storageKey ++ "_") key)
      as [Hs Hsub].
    change (SecureStorage.storageKey ++ "_" ++ key)
      with ((SecureStorage.storageKey ++ "_") ++ key).
    rewrite Hs, Hsub. cbn. now left.
Qed.

(** A password of 8 UTF-16 code units or more passes the check of the
    secure storage, and is not empty. *)
Lemma storage_validatePassword_ok (password : string) :
  8 <= js_length password ->
  SecureStorage.validatePassword password = Ok tt /\ password <> EmptyString.
Proof.
  intros Hlen.
  assert (Hp : password <> EmptyString) by (intros ->; cbn in Hlen; lia).
  split; [|exact Hp]. unfold SecureStorage.validatePassword.
  rewrite (truthy_true Hp). apply Nat.ltb_ge in Hlen. now rewrite Hlen.
Qed.

(** X18. Invalid keys and short passwords fail fast. [store], [retrieve]
    and [remove] reject a key that [validateKey] rejects with its message
    under their own prefix, and [store] and [retrieve] reject a password of
    fewer than 8 characters, counted as JavaScript counts them; in each case
    neither [localStorage] nor the random source is touched. *)
Theorem storage_rejects_before_crypto `{Platform}
  `{SecureStorage.StorageCodec} (window : Window) (key password : string)
  (data : SecureStorage.Payload) (options : SecureStorage.SecureStorageOptions)
  (now : Z) (s : SecureStorage.State) :
  (forall m, SecureStorage.validateKey key = Err m ->
     SecureStorage.store window key data password options now s
       = (Err ("Failed to store data securely: " ++ m), s)
     /\ SecureStorage.retrieve window key password now s
        = (Err ("Failed to retrieve data securely: " ++ m), s)
     /\ SecureStorage.remove key s = (Err ("Failed to remove data: " ++ m), s))
  /\ (SecureStorage.validateKey key = Ok tt ->
      js_length password < 8 ->
      SecureStorage.store window key data password options now s
        = (Err "Failed to store data securely: Password must be at least 8 characters long",
           s)
      /\ SecureStorage.retrieve window key password now s
         = (Err "Failed to retrieve data securely: Password must be at least 8 characters long",
            s)).
Proof.
  unfold SecureStorage.store, SecureStorage.retrieve, SecureStorage.remove.
  split.
  - intros m ->. repeat split.
  - intros -> Hlen. unfold SecureStorage.validatePassword.
    apply Nat.ltb_lt in Hlen. rewrite Hlen, orb_true_r. split; reflexivity.
Qed.

(** A key with a space and an exclamation mark is refused; so is a password
    of four characters, although it takes eight bytes as UTF-8. *)
Lemma storage_rejects_before_crypto_witness :
  @SecureStorage.store Toy.platform Toy.storage_codec Toy.window "bad key!"
    "{a:1}" "password123" Examples.no_options Examples.t0
    Examples.empty_storage
  = (Err "Failed to store data securely: Key contains invalid characters: only alphanumeric, underscore, and dash allowed",
     Examples.empty_storage)
  /\ String.length Examples.four_umlauts = 8
  /\ @SecureStorage.store Toy.platform Toy.storage_codec Toy.window
       "backup_2024" "{a:1}" Examples.four_umlauts Examples.no_options
       Examples.t0 Examples.empty_storage
     = (Err "Failed to store data securely: Password must be at least 8 characters long",
        Examples.empty_storage).
Proof.
  split; [|split; [reflexivity|]].
  - exact (proj1 (proj1 (@storage_rejects_before_crypto Toy.platform
                           Toy.storage_codec Toy.window "bad key!"
                           "password123" "{a:1}" Examples.no_options
                           Examples.t0 Examples.empty_storage) _ eq_refl)).
  - exact (proj1 (proj2 (@storage_rejects_before_crypto Toy.platform
                           Toy.storage_codec Toy.window "backup_2024"
                           Examples.four_umlauts "{a:1}" Examples.no_options
                           Examples.t0 Examples.empty_storage)
                    eq_refl ltac:(vm_compute; lia))).
Defined.

(** X19. A successful [store]. With the bridge present, a key that
    [validateKey] accepts, a password of at least 8 characters, counted as
    JavaScript counts them, and a non-empty text to encrypt (the serialised payload, or its compressed
    form when compression is enabled), [store] succeeds; afterwards
    [exists] answers [true] for the key, [listKeys] lists it, and the entry
    of every other key is as before. *)
Theorem store_then_exists `{Platform} `{SecureStorage.StorageCodec}
  (window : Window) (key password processed : string)
  (data : SecureStorage.Payload) (options : SecureStorage.SecureStorageOptions)
  (now : Z) (s : SecureStorage.State) :
  electronAPI window = true ->
  SecureStorage.validateKey key = Ok tt ->
  8 <= js_length password ->
  (if SecureStorage.is_true (SecureStorage.compressionEnabled options)
   then SecureStorage.compressData (SecureStorage.JSON_stringify data)
   else Ok (SecureStorage.JSON_stringify data)) = Ok processed ->
  processed <> EmptyString ->
  exists s',
    SecureStorage.store window key data password options now s = (Ok tt, s')
    /\ SecureStorage.exists_ key s' = true
    /\ In key (SecureStorage.listKeys s')
    /\ (forall other, other <> key ->
          Map_get (SecureStorage.fullKey other) (SecureStorage.localStorage s')
          = Map_get (SecureStorage.fullKey other)
              (SecureStorage.localStorage s)).
Proof.
  intros Hw Hk Hlen Hproc Hne.
  destruct (storage_validatePassword_ok password Hlen) as [Hpw Hp].
  unfold SecureStorage.store. rewrite Hk, Hpw. cbn [bind]. rewrite Hproc.
  cbn [bind]. unfold CryptoEngine.encryptText.
  cbn [js_truthy structuredClone].
  rewrite (truthy_true Hne), (truthy_true Hp), Hw. cbn [negb orb].
  unfold ElectronMain.handle_encryptText.
  destruct (randomBytes _ (SecureStorage.rng s)) as [saltBytes g1].
  destruct (randomBytes _ g1) as [ivBytes g2].
  destruct (cipher_run _ _ _ _) as [encrypted authTag].
  cbn [invoke rethrow]. eexists. split; [reflexivity|].
  assert (Hget : forall (v : string) ls,
            Map_get (SecureStorage.fullKey key)
              (Map_set (SecureStorage.fullKey key) v ls) <> None)
    by (intros v ls; rewrite Map_get_set_same; discriminate).
  split; [|split].
  - unfold SecureStorage.exists_, SecureStorage.exists_try. rewrite Hk.
    cbn [bind SecureStorage.saveToStorage SecureStorage.localStorage].
    unfold Map_has. now rewrite Map_get_set_same.
  - apply storage_listKeys_exactly.
    cbn [SecureStorage.saveToStorage SecureStorage.localStorage]. apply Hget.
  - intros other Hne'.
    cbn [SecureStorage.saveToStorage SecureStorage.localStorage].
    apply Map_get_set_other. intros E. apply Hne'. now apply fullKey_inj.
Qed.

Lemma store_then_exists_witness :
  exists s',
    @SecureStorage.store Toy.platform Toy.storage_codec Toy.window
      "backup_2024" "{a:1}" "password123" Examples.no_options Examples.t0
      Examples.empty_storage = (Ok tt, s')
    /\ @SecureStorage.exists_ Toy.platform "backup_2024" s' = true.
Proof.
  destruct (@store_then_exists Toy.platform Toy.storage_codec Toy.window
              "backup_2024" "password123" "{a:1}" "{a:1}" Examples.no_options
              Examples.t0 Examples.empty_storage eq_refl eq_refl
              ltac:(cbn; lia) eq_refl ltac:(discriminate))
    as [s' [Hstore [Hex _]]].
  exists s'. split; [exact Hstore | exact Hex].
Defined.

(** X20. [remove]. For a key that [validateKey] accepts, [remove] always
    succeeds, whether or not an item was stored; afterwards [exists] answers
    [false], [listKeys] does not list the key, and every other key's entry
    is as before. *)
Theorem remove_then_absent `{Platform} (key : string)
  (s : SecureStorage.State) :
  SecureStorage.validateKey key = Ok tt ->
  let s' := snd (SecureStorage.remove key s) in
  fst (SecureStorage.remove key s) = Ok tt
  /\ SecureStorage.exists_ key s' = false
  /\ ~ In key (SecureStorage.listKeys s')
  /\ (forall other, other <> key ->
        Map_get (SecureStorage.fullKey other) (SecureStorage.localStorage s')
        = Map_get (SecureStorage.fullKey other) (SecureStorage.localStorage s)).
Proof.
  intros Hk. cbv zeta. unfold SecureStorage.remove. rewrite Hk.
  cbn [fst snd]. split; [reflexivity|]. split; [|split].
  - unfold SecureStorage.exists_, SecureStorage.exists_try. rewrite Hk.
    cbn [bind SecureStorage.localStorage]. unfold Map_has.
    now rewrite Map_get_delete_same.
  - rewrite storage_listKeys_exactly. cbn [SecureStorage.localStorage].
    rewrite Map_get_delete_same. tauto.
  - intros other Hne. cbn [SecureStorage.localStorage].
    apply Map_get_delete_other. intros E. apply Hne. now apply fullKey_inj.
Qed.

Lemma remove_then_absent_witness :
  fst (@SecureStorage.remove Toy.platform "backup_2024" Examples.stored_backup)
    = Ok tt
  /\ @SecureStorage.exists_ Toy.platform "backup_2024"
       (snd (@SecureStorage.remove Toy.platform "backup_2024"
               Examples.stored_backup)) = false.
Proof.
  destruct (@remove_then_absent Toy.platform "backup_2024"
              Examples.stored_backup eq_refl) as [Hok [Hex _]].
  split; [exact Hok | exact Hex].
Defined.




(* ------------------------------------------------------------------ *)
(** ** Cleaning up *)




(* ------------------------------------------------------------------ *)
(** ** Import *)

Section ImportFacts.
Context `{Platform} `{SecureStorage.StorageCodec}.

Lemma exists_present (key : string) (s : SecureStorage.State) :
  SecureStorage.exists_ key s = true ->
  Map_get (SecureStorage.fullKey key) (SecureStorage.localStorage s) <> None.
Proof.
  unfold SecureStorage.exists_, SecureStorage.exists_try, Map_has.
  destruct (SecureStorage.validateKey key); cbn; [|discriminate].
  destruct (Map_get _ _); [discriminate | discriminate].
Qed.

Lemma storage_import_each_present
  (entries : list (string * SecureStorage.SecureStorageItem)) (key : string)
  (s : SecureStorage.State) :
  Map_get (SecureStorage.fullKey key) (SecureStorage.localStorage s) <> None ->
  Map_get (SecureStorage.fullKey key)
    (SecureStorage.localStorage (SecureStorage.import_each entries s)) <> None.
Proof.
  revert s. induction entries as [|[first item] rest IH]; intros s Hp;
    [exact Hp|].
  cbn [SecureStorage.import_each].
  destruct (SecureStorage.exists_ first s); cbn [negb]; apply IH; [exact Hp|].
  cbn [SecureStorage.saveToStorage SecureStorage.localStorage].
  destruct (String.eqb_spec (SecureStorage.fullKey key)
              (SecureStorage.fullKey first)) as [->|Hne].
  - rewrite Map_get_set_same. discriminate.
  - now rewrite Map_get_set_other.
Qed.

Lemma storage_import_each_keeps
  (entries : list (string * SecureStorage.SecureStorageItem)) (key : string)
  (s : SecureStorage.State) (stored : string) :
  SecureStorage.validateKey key = Ok tt ->
  Map_get (SecureStorage.fullKey key) (SecureStorage.localStorage s)
    = Some stored ->
  Map_get (SecureStorage.fullKey key)
    (SecureStorage.localStorage (SecureStorage.import_each entries s))
    = Some stored.
Proof.
  intros Hk. revert s.
  induction entries as [|[first item] rest IH]; intros s Hget; [exact Hget|].
  cbn [SecureStorage.import_each].
  destruct (SecureStorage.exists_ first s) eqn:Hex; cbn [negb];
    apply IH; [exact Hget|].
  cbn [SecureStorage.saveToStorage SecureStorage.localStorage].
  rewrite Map_get_set_other; [exact Hget|].
  intros E. apply fullKey_inj in E. subst first.
  unfold SecureStorage.exists_, SecureStorage.exists_try, Map_has in Hex.
  rewrite Hk in Hex. cbn [bind] in Hex. rewrite Hget in Hex. discriminate.
Qed.

Lemma storage_import_each_adds
  (entries : list (string * SecureStorage.SecureStorageItem)) (key : string)
  (item : SecureStorage.SecureStorageItem) (s : SecureStorage.State) :
  In (key, item) entries ->
  Map_get (SecureStorage.fullKey key)
    (SecureStorage.localStorage (SecureStorage.import_each entries s)) <> None.
Proof.
  revert s. induction entries as [|[first item1] rest IH]; intros s Hin;
    [destruct Hin|].
  cbn [SecureStorage.import_each].
  destruct Hin as [E | Hin].
  - inversion E; subst first item1.
    destruct (SecureStorage.exists_ key s) eqn:Hex; cbn [negb];
      apply storage_import_each_present.
    + now apply exists_present.
    + cbn [SecureStorage.saveToStorage SecureStorage.localStorage].
      rewrite Map_get_set_same. discriminate.
  - destruct (SecureStorage.exists_ first s); now apply IH.
Qed.

End ImportFacts.

(** X23. [importData] is additive for the keys that [validateKey] accepts.
    For a text that parses to a version and a set of items: the call
    succeeds, an item already stored under an accepted key stays exactly as
    it is (the incoming one is skipped), and every incoming key has an entry
    afterwards. A text without version or without items is rejected as
    "Invalid export format" and changes nothing. *)
Theorem importData_additive `{Platform} `{SecureStorage.StorageCodec}
  `{SecureStorage.TransferCodec} (exportData : string)
  (s : SecureStorage.State) (data : SecureStorage.ParsedStorageExport) :
  SecureStorage.JSON_parse_export exportData = Ok data ->
  match SecureStorage.parsed_version data, SecureStorage.parsed_items data with
  | Some v, Some entries =>
      v <> EmptyString ->
      let s' := snd (SecureStorage.importData exportData s) in
      fst (SecureStorage.importData exportData s) = Ok tt
      /\ (forall key stored,
            SecureStorage.validateKey key = Ok tt ->
            Map_get (SecureStorage.fullKey key) (SecureStorage.localStorage s)
              = Some stored ->
            Map_get (SecureStorage.fullKey key) (SecureStorage.localStorage s')
              = Some stored)
      /\ (forall key item, In (key, item) entries ->
            Map_get (SecureStorage.fullKey key) (SecureStorage.localStorage s')
              <> None)
  | _, _ =>
      SecureStorage.importData exportData s
        = (Err "Failed to import data: Invalid export format", s)
  end.
Proof.
  intros Hparse. unfold SecureStorage.importData. rewrite Hparse.
  destruct (SecureStorage.parsed_version data) as [v|]; [|reflexivity].
  destruct (SecureStorage.parsed_items data) as [entries|]; [|reflexivity].
  intros Hv. rewrite (truthy_true Hv). cbn [fst snd].
  split; [reflexivity|]. split.
  - intros key stored. apply storage_import_each_keeps.
  - intros key item. apply storage_import_each_adds.
Qed.

Lemma importData_additive_witness :
  fst (@SecureStorage.importData Toy.platform Toy.storage_codec
         Toy.transfer_codec Examples.exported_storage Examples.empty_storage)
    = Ok tt
  /\ @SecureStorage.exists_ Toy.platform "backup_2024"
       (snd (@SecureStorage.importData Toy.platform Toy.storage_codec
               Toy.transfer_codec Examples.exported_storage
               Examples.empty_storage)) = true.
Proof.
  destruct (@SecureStorage.JSON_parse_export Toy.transfer_codec
              Examples.exported_storage) as [data|m] eqn:E;
    [|vm_compute in E; discriminate].
  pose proof (@importData_additive Toy.platform Toy.storage_codec
                Toy.transfer_codec Examples.exported_storage
                Examples.empty_storage data E) as W.
  vm_compute in E. inversion E; subst data. clear E.
  cbn [SecureStorage.parsed_version SecureStorage.parsed_items] in W.
  destruct (W ltac:(discriminate)) as [Hok _].
  split; [exact Hok | reflexivity].
Defined.

(* ================================================================== *)
(** * Further properties of the file encryption *)
(* ================================================================== *)

(** A password of 8 UTF-16 code units or more passes the check of the file
    encryption, and is not empty. *)
Lemma file_validatePassword_ok (password : string) :
  8 <= js_length password ->
  FileEncryption.validatePassword password = Ok tt
  /\ password <> EmptyString.
Proof.
  intros Hlen.
  assert (Hp : password <> EmptyString) by (intros ->; cbn in Hlen; lia).
  split; [|exact Hp]. unfold FileEncryption.validatePassword.
  rewrite (truthy_true Hp). apply Nat.ltb_ge in Hlen. now rewrite Hlen.
Qed.

Lemma bridged_hash `{Platform} (window : Window) (data alg h : string) :
  electronAPI window = true ->
  createHash_hex alg data = Ok h ->
  CryptoEngine.generateSecureHash window data alg = Ok h.
Proof.
  intros Hw Hh. unfold CryptoEngine.generateSecureHash,
    ElectronMain.handle_generateSecureHash.
  now rewrite Hw, Hh.
Qed.

Lemma bridged_encryptText_returns `{Platform} (window : Window)
  (config : EncryptionConfig) (plaintext password : string) (g : Rng) :
  electronAPI window = true ->
  plaintext <> EmptyString -> password <> EmptyString ->
  exists r g',
    CryptoEngine.encryptText window config (JsStr plaintext) password g
      = (Ok r, g').
Proof.
  intros Hw Ht Hp. unfold CryptoEngine.encryptText.
  cbn [js_truthy structuredClone].
  rewrite (truthy_true Ht), (truthy_true Hp), Hw. cbn [negb orb].
  unfold ElectronMain.handle_encryptText.
  destruct (randomBytes _ g) as [s g1]. destruct (randomBytes _ g1) as [v g2].
  destruct (cipher_run _ _ _ _). cbn. eauto.
Qed.

(** Encrypting a file and decrypting the result, on the bodies of the two
    [try] blocks. *)
Lemma encryptFile_body_roundtrip `{PlatformLaws} (window : Window)
  (file : FileEncryption.File) (password content h : string) (g : Rng) :
  electronAPI window = true ->
  FileEncryption.validateFile file = Ok tt ->
  8 <= js_length password ->
  FileEncryption.text file = Some content ->
  content <> EmptyString ->
  createHash_hex "sha256" content = Ok h ->
  exists r g',
    FileEncryption.encryptFile_body window file password g = (Ok r, g')
    /\ FileEncryption.originalName (FileEncryption.metadata r)
       = FileEncryption.name file
    /\ FileEncryption.checksum (FileEncryption.metadata r) = h
    /\ FileEncryption.decryptFile_body window r password
       = Ok {| FileEncryption.blob_text := content;
               FileEncryption.blob_type := FileEncryption.type file |}.
Proof.
  intros Hw Hf Hlen Htext Hne Hh.
  destruct (@file_validatePassword_ok password Hlen) as [Hpw Hp].
  pose proof (@bridged_hash _ window content "sha256" h Hw Hh) as Hhash.
  destruct (@bridged_encryptText_returns _ window DEFAULT_CONFIG content
              password g Hw Hne Hp) as [envelope [g' Henc]].
  unfold FileEncryption.encryptFile_body, FileEncryption.readFileAsText.
  rewrite Hf, Hpw, Htext. cbn [bind]. rewrite Hhash. cbn [bind].
  rewrite Henc. eexists. exists g'. split; [reflexivity|].
  cbn [FileEncryption.metadata FileEncryption.originalName
       FileEncryption.checksum].
  split; [reflexivity|]. split; [reflexivity|].
  unfold FileEncryption.decryptFile_body. rewrite Hpw.
  cbn [bind FileEncryption.encryption].
  rewrite (CryptoEngine_decryptText_encryptText _ _ _ _ _ Henc).
  cbn [bind]. rewrite Hhash.
  cbn [bind FileEncryption.metadata FileEncryption.checksum
       FileEncryption.mimeType].
  now rewrite String.eqb_refl.
Qed.

(** X24. What [encryptFile] refuses, and what it logs. A file of more than
    50 MB is refused first, then a file of one of the three executable
    types, then a password of fewer than 8 characters, counted as JavaScript
    counts them; none of these draws from the random source. Every call
    appends exactly one [FILE_ENCRYPTION] entry to the service's log (the
    entries before it are the old log, short of what the cap dropped from
    its front): [success] when a result is returned, and otherwise [error]
    carrying the message that the thrown error repeats after
    "File encryption failed: ". *)
Theorem encryptFile_refusals `{Platform} (window : Window)
  (file : FileEncryption.File) (password : string) (now : Z)
  (s : FileEncryption.State) :
  let out := FileEncryption.encryptFile window file password now s in
  ((50 * 1024 * 1024 < FileEncryption.size file)%Z ->
   fst out = Err "File encryption failed: File size exceeds maximum limit of 50MB"
   /\ FileEncryption.rng (snd out) = FileEncryption.rng s)
  /\ ((FileEncryption.size file <= 50 * 1024 * 1024)%Z ->
      In (FileEncryption.type file) FileEncryption.dangerousTypes ->
      fst out = Err "File encryption failed: File type not allowed for security reasons"
      /\ FileEncryption.rng (snd out) = FileEncryption.rng s)
  /\ (FileEncryption.validateFile file = Ok tt ->
      js_length password < 8 ->
      fst out = Err "File encryption failed: Password must be at least 8 characters long"
      /\ FileEncryption.rng (snd out) = FileEncryption.rng s)
  /\ exists dropped older entry,
       SecurityLogger.logs (FileEncryption.securityLogger s)
         = (dropped ++ older)%list
       /\ SecurityLogger.logs (FileEncryption.securityLogger (snd out))
          = (older ++ [entry])%list
       /\ SecurityLogger.event entry = "FILE_ENCRYPTION"
       /\ match fst out with
          | Ok _ => SecurityLogger.status entry = SecurityLogger.success
          | Err m =>
              SecurityLogger.status entry = SecurityLogger.error
              /\ exists inner,
                   m = "File encryption failed: " ++ inner
                   /\ In ("error", SecurityLogger.DString inner)
                        (SecurityLogger.details entry)
          end.
Proof.
  cbv zeta. unfold FileEncryption.encryptFile.
  split; [|split; [|split]].
  - intros Hbig. unfold FileEncryption.encryptFile_body,
      FileEncryption.validateFile.
    apply Z.ltb_lt in Hbig. rewrite Hbig. cbn. auto.
  - intros Hsmall Hbad. unfold FileEncryption.encryptFile_body,
      FileEncryption.validateFile.
    apply Z.ltb_ge in Hsmall. rewrite Hsmall.
    assert (Hx : existsb (String.eqb (FileEncryption.type file))
                   FileEncryption.dangerousTypes = true).
    { apply existsb_exists. exists (FileEncryption.type file).
      split; [exact Hbad | apply String.eqb_refl]. }
    rewrite Hx. cbn. auto.
  - intros Hf Hlen. unfold FileEncryption.encryptFile_body,
      FileEncryption.validatePassword.
    apply Nat.ltb_lt in Hlen. rewrite Hf, Hlen, orb_true_r. cbn. auto.
  - destruct (FileEncryption.encryptFile_body window file password
                (FileEncryption.rng s)) as [[result|m] g];
      cbn [fst snd FileEncryption.securityLogger].
    + destruct (logEvent_appends_one now "FILE_ENCRYPTION"
                  SecurityLogger.success
                  [("fileName", SecurityLogger.DString (FileEncryption.name file));
                   ("fileSize", SecurityLogger.DNumber (FileEncryption.size file));
                   ("mimeType", SecurityLogger.DString (FileEncryption.type file))]
                  (FileEncryption.securityLogger s))
        as [dropped [older [Hold Hlog]]].
      exists dropped, older. eexists. split; [exact Hold|].
      split; [exact Hlog|]. split; reflexivity.
    + destruct (logEvent_appends_one now "FILE_ENCRYPTION"
                  SecurityLogger.error
                  [("fileName", SecurityLogger.DString (FileEncryption.name file));
                   ("error", SecurityLogger.DString m)]
                  (FileEncryption.securityLogger s))
        as [dropped [older [Hold Hlog]]].
      exists dropped, older. eexists. split; [exact Hold|].
      split; [exact Hlog|]. split; [reflexivity|].
      split; [reflexivity|]. exists m. split; [reflexivity|].
      cbn. auto.
Qed.

(** X25. File round trip. With the bridge present, for a file within the
    size limit, not of an executable type, whose text is read and is not
    empty, and a password of at least 8 characters, counted as JavaScript
    counts them: [encryptFile] returns a
    result carrying the file's name and the checksum of its text, and
    [decryptFile] of that result under the same password returns a blob with
    the file's text and type. *)
Theorem decryptFile_encryptFile `{PlatformLaws} (window : Window)
  (file : FileEncryption.File) (password content h : string)
  (now now' : Z) (s s2 : FileEncryption.State) :
  electronAPI window = true ->
  FileEncryption.validateFile file = Ok tt ->
  8 <= js_length password ->
  FileEncryption.text file = Some content ->
  content <> EmptyString ->
  createHash_hex "sha256" content = Ok h ->
  exists r s1,
    FileEncryption.encryptFile window file password now s = (Ok r, s1)
    /\ FileEncryption.originalName (FileEncryption.metadata r)
       = FileEncryption.name file
    /\ FileEncryption.checksum (FileEncryption.metadata r) = h
    /\ fst (FileEncryption.decryptFile window r password now' s2)
       = Ok {| FileEncryption.blob_text := content;
               FileEncryption.blob_type := FileEncryption.type file |}.
Proof.
  intros Hw Hf Hlen Htext Hne Hh.
  destruct (@encryptFile_body_roundtrip _ _ window file password content h
              (FileEncryption.rng s) Hw Hf Hlen Htext Hne Hh)
    as [r [g' [Henc [Hn [Hc Hdec]]]]].
  unfold FileEncryption.encryptFile, FileEncryption.decryptFile.
  rewrite Henc. eexists. eexists. split; [reflexivity|].
  split; [exact Hn|]. split; [exact Hc|]. now rewrite Hdec.
Qed.

Lemma decryptFile_encryptFile_witness :
  exists r s1,
    @FileEncryption.encryptFile Toy.platform Toy.window Examples.report
      "password123" Examples.t0 Examples.service = (Ok r, s1)
    /\ fst (@FileEncryption.decryptFile Toy.platform Toy.window r
              "password123" (Examples.t0 + 5) s1)
       = Ok {| FileEncryption.blob_text := "hello";
               FileEncryption.blob_type := "text/plain" |}.
Proof.
  destruct (@decryptFile_encryptFile Toy.platform toy_laws Toy.window
              Examples.report "password123" "hello"
              (toString_hex (utf8_encode "hello"))
              Examples.t0 (Examples.t0 + 5)%Z Examples.service
              (snd (@FileEncryption.encryptFile Toy.platform Toy.window
                      Examples.report "password123" Examples.t0
                      Examples.service))
              eq_refl eq_refl ltac:(cbn; lia) eq_refl ltac:(discriminate)
              eq_refl) as [r [s1 [Henc [_ [_ Hdec]]]]].
  exists r, s1. split; [exact Henc|].
  replace s1 with (snd (@FileEncryption.encryptFile Toy.platform Toy.window
                          Examples.report "password123" Examples.t0
                          Examples.service)) by now rewrite Henc.
  exact Hdec.
Defined.

(** X26. Corruption is reported. For a password of at least 8 characters,
    counted as JavaScript counts them: when the envelope of a file result
    decrypts under the password but the checksum recorded in the result's
    metadata is not the checksum of the decrypted text, [decryptFile] fails
    with "File integrity check failed - file may be corrupted" and returns
    no blob. *)
Theorem decryptFile_detects_mismatch `{Platform} (window : Window)
  (r : FileEncryption.FileEncryptionResult) (password content h : string)
  (now : Z) (s : FileEncryption.State) :
  8 <= js_length password ->
  CryptoEngine.decryptText window DEFAULT_CONFIG (FileEncryption.encryption r)
    password = Ok content ->
  CryptoEngine.generateSecureHash window content "sha256" = Ok h ->
  h <> FileEncryption.checksum (FileEncryption.metadata r) ->
  fst (FileEncryption.decryptFile window r password now s)
  = Err "File decryption failed: File integrity check failed - file may be corrupted".
Proof.
  intros Hlen Hdec Hhash Hne.
  destruct (@file_validatePassword_ok password Hlen) as [Hpw _].
  unfold FileEncryption.decryptFile, FileEncryption.decryptFile_body.
  rewrite Hpw. cbn [bind]. rewrite Hdec. cbn [bind]. rewrite Hhash.
  cbn [bind]. apply String.eqb_neq in Hne. now rewrite Hne.
Qed.

Lemma decryptFile_detects_mismatch_witness :
  exists r,
    Examples.encrypted_report = Ok r
    /\ fst (@FileEncryption.decryptFile Toy.platform Toy.window
              (Examples.with_checksum "00" r) "password123" Examples.t0
              Examples.service)
       = Err "File decryption failed: File integrity check failed - file may be corrupted".
Proof.
  destruct Examples.encrypted_report as [r|m] eqn:E;
    [|vm_compute in E; discriminate].
  exists r. split; [reflexivity|].
  vm_compute in E. inversion E; subst r. clear E.
  apply (@decryptFile_detects_mismatch Toy.platform Toy.window _
           "password123" "hello" (toString_hex (utf8_encode "hello")));
    [cbn; lia | reflexivity | reflexivity | discriminate].
Defined.

(** X27. Backup and restore. With the bridge present, a password of at
    least 8 characters, counted as JavaScript counts them, and data whose
    JSON text is not empty, is within the
    50 MB limit and parses back to the data: [createEncryptedBackup] returns
    a file result named after the given file name, and
    [restoreFromEncryptedBackup] of it under the same password returns the
    data. *)
Theorem restore_createEncryptedBackup `{PlatformLaws}
  `{FileEncryption.BackupCodec} (window : Window)
  (data : FileEncryption.BackupData) (password filename h : string)
  (now now' : Z) (s s2 : FileEncryption.State) :
  electronAPI window = true ->
  8 <= js_length password ->
  FileEncryption.JSON_stringify_pretty data <> EmptyString ->
  (Z.of_nat (String.length (FileEncryption.JSON_stringify_pretty data))
   <= 50 * 1024 * 1024)%Z ->
  createHash_hex "sha256" (FileEncryption.JSON_stringify_pretty data) = Ok h ->
  FileEncryption.JSON_parse (FileEncryption.JSON_stringify_pretty data)
    = Ok data ->
  exists r s1,
    FileEncryption.createEncryptedBackup window data password filename now s
      = (Ok r, s1)
    /\ FileEncryption.originalName (FileEncryption.metadata r) = filename
    /\ fst (FileEncryption.restoreFromEncryptedBackup window r password now' s2)
       = Ok data.
Proof.
  intros Hw Hlen Hne Hsize Hh Hparse.
  set (json := FileEncryption.JSON_stringify_pretty data) in *.
  assert (Hf : FileEncryption.validateFile
                 (FileEncryption.backup_file json filename) = Ok tt).
  { unfold FileEncryption.validateFile, FileEncryption.backup_file.
    cbn [FileEncryption.size FileEncryption.type].
    apply Z.ltb_ge in Hsize. now rewrite Hsize. }
  destruct (@encryptFile_body_roundtrip _ _ window
              (FileEncryption.backup_file json filename) password json h
              (FileEncryption.rng s) Hw Hf Hlen eq_refl Hne Hh)
    as [r [g' [Henc [Hn [_ Hdec]]]]].
  unfold FileEncryption.createEncryptedBackup, FileEncryption.encryptFile.
  fold json. rewrite Henc. eexists. eexists. split; [reflexivity|].
  split; [exact Hn|].
  unfold FileEncryption.restoreFromEncryptedBackup, FileEncryption.decryptFile.
  rewrite Hdec. cbn [bind FileEncryption.blob_text]. now rewrite Hparse.
Qed.

Lemma restore_createEncryptedBackup_witness :
  exists r s1,
    @FileEncryption.createEncryptedBackup Toy.platform Toy.backup_codec
      Toy.window "{customers:[]}" "password123" "backup.json" Examples.t0
      Examples.service = (Ok r, s1)
    /\ fst (@FileEncryption.restoreFromEncryptedBackup Toy.platform
              Toy.backup_codec Toy.window r "password123" (Examples.t0 + 5)
              Examples.service) = Ok "{customers:[]}".
Proof.
  destruct (@restore_createEncryptedBackup Toy.platform toy_laws
              Toy.backup_codec Toy.window "{customers:[]}" "password123"
              "backup.json" (toString_hex (utf8_encode "{customers:[]}"))
              Examples.t0 (Examples.t0 + 5)%Z Examples.service
              Examples.service
              eq_refl ltac:(cbn; lia) ltac:(discriminate)
              ltac:(vm_compute; discriminate) eq_refl eq_refl)
    as [r [s1 [Hb [_ Hr]]]].
  exists r, s1. split; [exact Hb | exact Hr].
Defined.
